(** * AutoCFP conference calendar: filter, month window and deadline buckets

    A shallow embedding of [public/js/calendar.js] (class
    [ConferenceCalendar]) and the properties its specification states
    about it.

    - JavaScript strings are sequences of UTF-16 code units ([list N]).
    - JavaScript numbers are the integers plus [NaN]; the only arithmetic
      the code performs on them is on calendar fields.
    - A [Date] is observed through its local-time getters only, so it is
      modelled by its local calendar fields, or as the Invalid Date.
    - The two platform functions whose full definition is a table of the
      platform ([String.prototype.toLowerCase], and the [Date] constructor
      applied to a string) are section variables: every general theorem
      holds for whatever the platform does.  Concrete instances (ASCII
      lower-casing, the date-only ISO form) are given for evaluation.
    - The methods are written twice.  First over records, with the
      controller ([this]) passed explicitly: this is the model the
      functional properties are about.  Then over an explicit store of
      objects, with property reads that can throw: this is the model for
      what a run may change and for whether it returns.  The two are
      related in [Refinement].

    - The rest of the controller (loading, the theme boxes, the search
      box, what is rendered, the widths and the sticky header) is written
      over a small model of the page, in [The page].

    The file has the program, what the specification says, the page, and
    then the properties: those the specification states first, further
    properties of the code after them. *)

From Stdlib Require Import ZArith NArith List Bool Lia String Ascii.
From Stdlib Require Import DecimalString DecimalPos.
From stdpp Require Import base gmap sets list strings.

Open Scope Z_scope.

(** ** Strings *)

Abbreviation jsstring := (list N).

(** A string literal of the source, as code units. *)
Fixpoint js (s : string) : jsstring :=
  match s with
  | EmptyString => []
  | String a r => N_of_ascii a :: js r
  end.

(** Truthiness of a string: the empty string is falsy. *)
Definition truthy_string (s : jsstring) : bool :=
  match s with [] => false | _ :: _ => true end.

(** [x || ''] for a string-valued property that may be undefined. *)
Definition or_empty (o : option jsstring) : jsstring :=
  match o with
  | Some s => if truthy_string s then s else []
  | None => []
  end.

(** Truthiness of an optional string property. *)
Definition truthy_opt (o : option jsstring) : bool :=
  match o with Some s => truthy_string s | None => false end.

Fixpoint startsWith (s p : jsstring) {struct p} : bool :=
  match p, s with
  | [], _ => true
  | _ :: _, [] => false
  | a :: p', b :: s' => (a =? b)%N && startsWith s' p'
  end.

(** [s.includes(needle)] *)
Fixpoint includes (s needle : jsstring) : bool :=
  startsWith s needle ||
  match s with
  | [] => false
  | _ :: s' => includes s' needle
  end.

(** *** Character classes of the regular-expression engine *)

(** [\d] *)
Definition is_digit (c : N) : bool := ((48 <=? c) && (c <=? 57))%N.

(** [\s] : WhiteSpace and LineTerminator code points; also what
    [String.prototype.trim] removes. *)
Definition is_space (c : N) : bool :=
  (((9 <=? c) && (c <=? 13)) || (c =? 32) || (c =? 160) || (c =? 5760)
   || ((8192 <=? c) && (c <=? 8202)) || (c =? 8232) || (c =? 8233)
   || (c =? 8239) || (c =? 8287) || (c =? 12288) || (c =? 65279))%N.

(** [[\.\s]] *)
Definition is_dot_or_space (c : N) : bool := ((c =? 46)%N || is_space c).

(** Backtracking match of [X+ k]: one character of class [p], then,
    greedily, more of them before the rest of the pattern [k] is tried. *)
Fixpoint match_plus (p : N -> bool) (s : jsstring)
    (k : jsstring -> option jsstring) : option jsstring :=
  match s with
  | [] => None
  | c :: s' =>
      if p c then
        match match_plus p s' k with
        | Some r => Some r
        | None => k s'
        end
      else None
  end.

(** [/^\d+[\.\s]+/] matched at the start of [s]: the text after the match. *)
Definition match_number_prefix (s : jsstring) : option jsstring :=
  match_plus is_digit s (fun r => match_plus is_dot_or_space r Some).

(** [s.replace(/^\d+[\.\s]+/, '')] *)
Definition replace_number_prefix (s : jsstring) : jsstring :=
  match match_number_prefix s with
  | Some rest => rest
  | None => s
  end.

Fixpoint trimStart (s : jsstring) : jsstring :=
  match s with
  | [] => []
  | c :: s' => if is_space c then trimStart s' else s
  end.

Definition trimEnd (s : jsstring) : jsstring := rev (trimStart (rev s)).

(** [s.trim()] *)
Definition trim (s : jsstring) : jsstring := trimEnd (trimStart s).

(** [stripThemePrefix(theme)] *)
Definition stripThemePrefix (theme : jsstring) : jsstring :=
  if negb (truthy_string theme) then theme
  else trim (replace_number_prefix theme).

(** ** Numbers *)

Inductive number : Type :=
| NaN
| Int (z : Z).

#[global] Instance number_eq_dec : EqDecision number.
Proof. solve_decision. Defined.

(** [a + b] *)
Definition num_add (a b : number) : number :=
  match a, b with
  | Int x, Int y => Int (x + y)
  | _, _ => NaN
  end.

(** [a === b] on numbers: [NaN] is equal to nothing. *)
Definition num_eq (a b : number) : bool :=
  match a, b with
  | Int x, Int y => x =? y
  | _, _ => false
  end.

Definition digits_of (z : Z) : jsstring :=
  js (NilZero.string_of_int (Z.to_int z)).

(** [String(n)], and [n] inside a template literal. *)
Definition num_toString (n : number) : jsstring :=
  match n with
  | NaN => js "NaN"
  | Int z => digits_of z
  end.

(** [s.padStart(2, '0')] *)
Definition padStart2 (s : jsstring) : jsstring :=
  match s with
  | [] => js "00"
  | [c] => 48%N :: [c]
  | _ => s
  end.

(** [a - b] *)
Definition num_sub (a b : number) : number :=
  match a, b with
  | Int x, Int y => Int (x - y)
  | _, _ => NaN
  end.

(** [a * b] *)
Definition num_mul (a b : number) : number :=
  match a, b with
  | Int x, Int y => Int (x * y)
  | _, _ => NaN
  end.

(** [a >= b]: false as soon as one side is [NaN]. *)
Definition num_ge (a b : number) : bool :=
  match a, b with
  | Int x, Int y => y <=? x
  | _, _ => false
  end.

(** ** Dates

    A [Date] is read by the code through [getFullYear], [getMonth] and
    [getDate] only, all three in local time.  [LocalDate y m d] is a valid
    date whose local fields are year [y], month [m] (0 to 11) and day of
    month [d]; [InvalidDate] is the date every getter of which is [NaN].
    The bound on the time value of a [Date] (100,000,000 days on either
    side of 1970) is not part of the model. *)

Inductive Date : Type :=
| InvalidDate
| LocalDate (y m d : Z).

Definition getFullYear (t : Date) : number :=
  match t with InvalidDate => NaN | LocalDate y _ _ => Int y end.

Definition getMonth (t : Date) : number :=
  match t with InvalidDate => NaN | LocalDate _ m _ => Int m end.

Definition getDate (t : Date) : number :=
  match t with InvalidDate => NaN | LocalDate _ _ d => Int d end.

Definition is_leap_year (y : Z) : bool :=
  (y mod 4 =? 0) && (negb (y mod 100 =? 0) || (y mod 400 =? 0)).

(** Days of month [m] (0 to 11) of year [y]. *)
Definition days_in_month (y m : Z) : Z :=
  if m =? 1 then (if is_leap_year y then 29 else 28)
  else if (m =? 3) || (m =? 5) || (m =? 8) || (m =? 10) then 30
  else 31.

Definition next_day (t : Z * Z * Z) : Z * Z * Z :=
  let '(y, m, d) := t in
  if d <? days_in_month y m then (y, m, d + 1)
  else if m <? 11 then (y, m + 1, 1)
  else (y + 1, 0, 1).

Definition prev_day (t : Z * Z * Z) : Z * Z * Z :=
  let '(y, m, d) := t in
  if 1 <? d then (y, m, d - 1)
  else if 0 <? m then (y, m - 1, days_in_month y (m - 1))
  else (y - 1, 11, 31).

(** The day [k] days after (before, for negative [k]) the day [t]. *)
Definition shift_days (t : Z * Z * Z) (k : Z) : Z * Z * Z :=
  if 0 <=? k then Nat.iter (Z.to_nat k) next_day t
  else Nat.iter (Z.to_nat (- k)) prev_day t.

(** [new Date(year, month, day)]: a year from 0 to 99 stands for 1900 to
    1999; a month outside 0..11 carries into the year and a day outside
    the month carries into the neighbouring months. *)
Definition Date_ymd (year month day : number) : Date :=
  match year, month, day with
  | Int y, Int m, Int d =>
      let yr := if (0 <=? y) && (y <=? 99) then 1900 + y else y in
      let '(y', m', d') := shift_days (yr + m / 12, m mod 12, 1) (d - 1) in
      LocalDate y' m' d'
  | _, _, _ => InvalidDate
  end.

(** A valid reading of the clock. *)
Definition valid_date (t : Date) : Prop :=
  match t with
  | InvalidDate => False
  | LocalDate y m d => 0 <= m <= 11 /\ 1 <= d <= days_in_month y m
  end.

(** ** Data model *)

(** A property holding a flag: JSON gives a boolean, but the code only
    tests whether the value is truthy, so the other scalars are kept. *)
Inductive scalar : Type :=
| Undefined
| Null
| Bool (b : bool)
| Number (n : number)
| Str (s : jsstring).

Definition truthy (v : scalar) : bool :=
  match v with
  | Undefined | Null => false
  | Bool b => b
  | Number NaN => false
  | Number (Int z) => negb (z =? 0)
  | Str s => truthy_string s
  end.

(** [v || false] *)
Definition or_false (v : scalar) : scalar :=
  if truthy v then v else Bool false.

Record DeadlineRecord : Type := mkDeadline {
  dl_type : option jsstring;
  dl_date : option jsstring;
  dl_label : option jsstring;
  dl_is_predicted : scalar
}.

Record ConferenceDates : Type := mkConferenceDates {
  cd_start : option jsstring;
  cd_end : option jsstring
}.

Record YearInfo : Type := mkYearInfo {
  deadlines : option (list DeadlineRecord);
  conference_dates : option ConferenceDates;
  is_predicted : scalar
}.

(** [information] lists the year labels in the order [Object.keys]
    enumerates them. *)
Record ConferenceRecord : Type := mkConference {
  name : option jsstring;
  short_name : option jsstring;
  rank : option jsstring;
  url : option jsstring;
  theme : option jsstring;
  themes : option (list jsstring);
  flagship : option bool;
  information : option (list (jsstring * YearInfo))
}.

Record MonthSlot : Type := mkMonthSlot {
  year : number;
  month : number;
  label : jsstring;
  date : Date
}.

Record FilterState : Type := mkFilterState {
  fs_themes : gset jsstring;
  fs_search : jsstring
}.

(** The fields of the controller object that the modelled methods read
    or write. *)
Record ConferenceCalendar : Type := mkCalendar {
  conferences : list ConferenceRecord;
  filteredConferences : list ConferenceRecord;
  months : list MonthSlot;
  currentMonthIndex : option number;
  currentFilters : FilterState
}.

(** ** generateMonths *)

Definition month_slot (startDate : Date) (i : Z) : MonthSlot :=
  let date := Date_ymd (getFullYear startDate)
                       (num_add (getMonth startDate) (Int i)) (Int 1) in
  {| year := getFullYear date;
     month := num_add (getMonth date) (Int 1);
     label := num_toString (getFullYear date) ++ js "/" ++
              padStart2 (num_toString (num_add (getMonth date) (Int 1)));
     date := date |}.

(** The body of [for (let i = 0; i < totalMonths; i++)], [n] iterations
    from [i] on. *)
Fixpoint push_months (n : nat) (i : Z) (startDate : Date)
    (acc : list MonthSlot) : list MonthSlot :=
  match n with
  | O => acc
  | S n' => push_months n' (i + 1) startDate (acc ++ [month_slot startDate i])
  end.

(** Number of iterations of the loop: none when [totalMonths] is [NaN]
    or not positive. *)
Definition iterations (totalMonths : number) : nat :=
  match totalMonths with
  | NaN => O
  | Int n => Z.to_nat n
  end.

Definition fiscalYearStart (now : Date) : number :=
  if num_ge (getMonth now) (Int 3) then getFullYear now
  else num_sub (getFullYear now) (Int 1).

Definition generateMonths (now : Date) (this : ConferenceCalendar)
    : ConferenceCalendar :=
  let currentYear := getFullYear now in
  let currentMonth := getMonth now in
  let fiscalYearStart := fiscalYearStart now in
  let startDate := Date_ymd fiscalYearStart (Int 3) (Int 1) in
  let endDate := Date_ymd (num_add fiscalYearStart (Int 2)) (Int 2) (Int 31) in
  let totalMonths :=
    num_add (num_add (num_mul (num_sub (getFullYear endDate)
                                       (getFullYear startDate)) (Int 12))
                     (num_sub (getMonth endDate) (getMonth startDate)))
            (Int 1) in
  {| conferences := conferences this;
     filteredConferences := filteredConferences this;
     months := push_months (iterations totalMonths) 0 startDate [];
     currentMonthIndex :=
       Some (num_add (num_mul (num_sub currentYear fiscalYearStart) (Int 12))
                     (num_sub currentMonth (Int 3)));
     currentFilters := currentFilters this |}.

(** ** applyFilters *)

(** [Set.prototype.has], asked about a value that may be undefined. *)
Definition has (s : gset jsstring) (x : option jsstring) : bool :=
  match x with
  | Some t => bool_decide (t ∈ s)
  | None => false
  end.

(** [Array.isArray(conf.themes) ? conf.themes : [conf.theme]] *)
Definition confThemes (conf : ConferenceRecord) : list (option jsstring) :=
  match themes conf with
  | Some ts => map Some ts
  | None => [theme conf]
  end.

Section Filter.

(** [String.prototype.toLowerCase] of the platform. *)
Variable toLowerCase : jsstring -> jsstring.

(** The callback given to [this.conferences.filter]. *)
Definition filter_callback (this : ConferenceCalendar)
    (conf : ConferenceRecord) : bool :=
  if (size (fs_themes (currentFilters this)) =? 0)%nat then false
  else
    let confThemes := confThemes conf in
    let hasMatchingTheme :=
      existsb (fun theme => has (fs_themes (currentFilters this)) theme)
              confThemes in
    if negb hasMatchingTheme then false
    else if truthy_string (fs_search (currentFilters this)) then
      let searchLower := fs_search (currentFilters this) in
      let nameMatch :=
        includes (toLowerCase (or_empty (name conf))) searchLower in
      let shortNameMatch :=
        includes (toLowerCase (or_empty (short_name conf))) searchLower in
      let themeMatch :=
        existsb (fun theme =>
                   includes (toLowerCase (or_empty theme)) searchLower)
                confThemes in
      if negb nameMatch && negb shortNameMatch && negb themeMatch
      then false
      else true
    else true.

(** [applyFilters()]: stores the filtered list in the controller.  The
    call of [renderCalendar] that follows writes to the document only. *)
Definition applyFilters (this : ConferenceCalendar) : ConferenceCalendar :=
  {| conferences := conferences this;
     filteredConferences :=
       List.filter (filter_callback this) (conferences this);
     months := months this;
     currentMonthIndex := currentMonthIndex this;
     currentFilters := currentFilters this |}.

(** The handler of the search box:
    [this.currentFilters.search = e.target.value.toLowerCase()]. *)
Definition on_search_input (value : jsstring) (this : ConferenceCalendar)
    : ConferenceCalendar :=
  {| conferences := conferences this;
     filteredConferences := filteredConferences this;
     months := months this;
     currentMonthIndex := currentMonthIndex this;
     currentFilters :=
       {| fs_themes := fs_themes (currentFilters this);
          fs_search := toLowerCase value |} |}.

End Filter.

(** Lower-casing of the ASCII letters; it is what [toLowerCase] does on
    strings of ASCII characters. *)
Definition ascii_toLowerCase (s : jsstring) : jsstring :=
  map (fun c => if ((65 <=? c) && (c <=? 90))%N then (c + 32)%N else c) s.

(** ** getDeadlinesInMonth, createDeadlineMarker, showDeadlineDetails *)

(** An element of the list [getDeadlinesInMonth] returns. *)
Record Entry : Type := mkEntry {
  e_type : option jsstring;
  e_date : option jsstring;
  e_endDate : option jsstring;
  e_label : option jsstring;
  e_is_predicted : scalar;
  e_conferenceName : option jsstring;
  e_conferenceYear : jsstring
}.

(** What [createDeadlineMarker] builds, as far as the text goes. *)
Record Marker : Type := mkMarker {
  className : jsstring;
  predicted_class : bool;
  textContent : jsstring
}.

(** What [showDeadlineDetails] puts into the popup. *)
Record Popup : Type := mkPopup {
  header : jsstring;
  year_line : jsstring;
  predicted_note : bool
}.

(** An optional string inside a template literal. *)
Definition interpolate (o : option jsstring) : jsstring :=
  match o with
  | Some s => s
  | None => js "undefined"
  end.

(** [x === 'conference'] *)
Definition is_conference (o : option jsstring) : bool :=
  match o with
  | Some s => bool_decide (s = js "conference")
  | None => false
  end.

Section Bucketizer.

(** [new Date(s)] for a string [s], as the platform parses it, observed
    in local time. *)
Variable Date_parse : jsstring -> Date.

(** [new Date(v)] for a property that may be undefined. *)
Definition Date_of (v : option jsstring) : Date :=
  match v with
  | Some s => Date_parse s
  | None => InvalidDate
  end.

(** [t.getFullYear() === month.year && t.getMonth() + 1 === month.month] *)
Definition in_month (t : Date) (slot : MonthSlot) : bool :=
  num_eq (getFullYear t) (year slot) &&
  num_eq (num_add (getMonth t) (Int 1)) (month slot).

(** [{...deadline, conferenceName: ..., conferenceYear: confYear}] *)
Definition deadline_entry (conference : ConferenceRecord)
    (confYear : jsstring) (deadline : DeadlineRecord) : Entry :=
  {| e_type := dl_type deadline;
     e_date := dl_date deadline;
     e_endDate := None;
     e_label := dl_label deadline;
     e_is_predicted := dl_is_predicted deadline;
     e_conferenceName := short_name conference;
     e_conferenceYear := confYear |}.

Definition conference_entry (conference : ConferenceRecord)
    (confYear : jsstring) (yearInfo : YearInfo) (cd : ConferenceDates)
    : Entry :=
  {| e_type := Some (js "conference");
     e_date := cd_start cd;
     e_endDate := cd_end cd;
     e_label := Some (js "Conference Date");
     e_is_predicted := or_false (is_predicted yearInfo);
     e_conferenceName := short_name conference;
     e_conferenceYear := confYear |}.

(** The callback of [yearInfo.deadlines.forEach]; [acc] is the array
    [deadlines] being filled. *)
Definition visit_deadline (conference : ConferenceRecord)
    (month : MonthSlot) (confYear : jsstring) (acc : list Entry)
    (deadline : DeadlineRecord) : list Entry :=
  if truthy_opt (dl_date deadline) then
    let deadlineDate := Date_of (dl_date deadline) in
    if in_month deadlineDate month
    then acc ++ [deadline_entry conference confYear deadline]
    else acc
  else acc.

(** The callback of [Object.keys(conference.information).forEach]; the
    keys of an object are pairwise distinct, so
    [conference.information[confYear]] is the value paired with the
    key. *)
Definition visit_year (conference : ConferenceRecord) (month : MonthSlot)
    (acc : list Entry) (kv : jsstring * YearInfo) : list Entry :=
  let '(confYear, yearInfo) := kv in
  let acc :=
    match deadlines yearInfo with
    | Some ds => fold_left (visit_deadline conference month confYear) ds acc
    | None => acc
    end in
  match conference_dates yearInfo with
  | Some cd =>
      if truthy_opt (cd_start cd) then
        let startDate := Date_of (cd_start cd) in
        if in_month startDate month
        then acc ++ [conference_entry conference confYear yearInfo cd]
        else acc
      else acc
  | None => acc
  end.

Definition getDeadlinesInMonth (conference : ConferenceRecord)
    (month : MonthSlot) : list Entry :=
  match information conference with
  | Some info => fold_left (visit_year conference month) info []
  | None => []
  end.

(** [`${t.getMonth() + 1}/${t.getDate()}`] *)
Definition month_slash_day (t : Date) : jsstring :=
  num_toString (num_add (getMonth t) (Int 1)) ++ js "/" ++
  num_toString (getDate t).

(** [createDeadlineMarker(deadline)]: the marker, and what is written
    with [console.warn]. *)
Definition createDeadlineMarker (deadline : Entry) : Marker * list Entry :=
  let dateStr :=
    if is_conference (e_type deadline) && truthy_opt (e_endDate deadline)
    then
      let startDate := Date_of (e_date deadline) in
      let endDate := Date_of (e_endDate deadline) in
      month_slash_day startDate ++ js "-" ++ month_slash_day endDate
    else
      let date := Date_of (e_date deadline) in
      month_slash_day date in
  ({| className :=
        js "deadline-marker deadline-" ++ interpolate (e_type deadline);
      predicted_class := truthy (e_is_predicted deadline);
      textContent := dateStr |},
   if negb (truthy_string dateStr) || bool_decide (dateStr = js "NaN/NaN")
   then [deadline]
   else []).

(** The loop of [createConferenceRow] over [this.months]: the markers
    of each month column, and the warnings written on the way. *)
Definition timeline (conference : ConferenceRecord)
    (months : list MonthSlot) : list (list Marker) * list Entry :=
  fold_left
    (fun '(columns, console) month =>
       let deadlinesInMonth := getDeadlinesInMonth conference month in
       let made := map createDeadlineMarker deadlinesInMonth in
       (columns ++ [map fst made], console ++ concat (map snd made)))
    months ([], []).

End Bucketizer.

(** [showDeadlineDetails(marker, deadline)]: the content of the popup. *)
Definition showDeadlineDetails (deadline : Entry) : Popup :=
  {| header := interpolate (e_label deadline);
     year_line :=
       if truthy_string (e_conferenceYear deadline) &&
          truthy_opt (e_conferenceName deadline)
       then
         (if is_conference (e_type deadline) then js "Conference: "
          else js "For: ")
         ++ interpolate (e_conferenceName deadline) ++ js " "
         ++ e_conferenceYear deadline
       else [];
     predicted_note := truthy (e_is_predicted deadline) |}.

(** *** The date-only ISO form

    [new Date("YYYY-MM-DD")] is midnight UTC of that day.  Its local
    fields are those of the same day where local time is at or ahead of
    UTC, and those of the day before where local time is behind UTC. *)

Definition digit_value (c : N) : option Z :=
  if is_digit c then Some (Z.of_N c - 48) else None.

Definition two_digits (a b : N) : option Z :=
  match digit_value a, digit_value b with
  | Some x, Some y => Some (10 * x + y)
  | _, _ => None
  end.

(** Year, month (1 to 12) and day written by a string of the form
    [YYYY-MM-DD]. *)
Definition iso_date_only (s : jsstring) : option (Z * Z * Z) :=
  match s with
  | [y1; y2; y3; y4; 45%N; m1; m2; 45%N; d1; d2] =>
      match two_digits y1 y2, two_digits y3 y4, two_digits m1 m2,
            two_digits d1 d2 with
      | Some yh, Some yl, Some m, Some d =>
          let y := 100 * yh + yl in
          if (1 <=? m) && (m <=? 12) && (1 <=? d)
             && (d <=? days_in_month y (m - 1))
          then Some (y, m, d) else None
      | _, _, _, _ => None
      end
  | _ => None
  end.

(** The [Date] constructor on date-only ISO strings; [behindUTC] tells
    whether local time is behind UTC.  Strings of another form are not
    dates for this instance. *)
Definition Date_parse_iso (behindUTC : bool) (s : jsstring) : Date :=
  match iso_date_only s with
  | Some (y, m, d) =>
      let '(y', m', d') :=
        if behindUTC then prev_day (y, m - 1, d) else (y, m - 1, d) in
      LocalDate y' m' d'
  | None => InvalidDate
  end.

(** * The object store

    The records the loader keeps are JavaScript objects that the filter
    and the bucketizer reach through references.  Here the same two
    methods are written over an explicit store of objects: property
    reads, allocations and writes are steps on the store, and a read of a
    property of [undefined] or [null], or a call of what is not a
    function, throws.  The controller ([this]) stays a record passed
    explicitly, and a month is the [MonthSlot] that [generateMonths]
    built. *)

Module Store.

Abbreviation loc := nat.

Inductive value : Type :=
| VUndefined
| VNull
| VBool (b : bool)
| VNumber (n : number)
| VString (s : jsstring)
| VRef (l : loc).

(** A plain object lists its own properties in the order of
    [Object.keys]. *)
Inductive object : Type :=
| Obj (props : list (jsstring * value))
| Arr (items : list value).

Abbreviation heap := (list object).

Inductive outcome (A : Type) : Type :=
| Return (a : A)
| Throw.

Arguments Return {A} a.
Arguments Throw {A}.

(** A step of the program: the store after it, and what it returned, if
    it did not throw. *)
Definition M (A : Type) : Type := heap -> outcome A * heap.

Definition ret {A : Type} (a : A) : M A := fun h => (Return a, h).

Definition throw {A : Type} : M A := fun h => (Throw, h).

Definition bind {A B : Type} (m : M A) (f : A -> M B) : M B :=
  fun h =>
    match m h with
    | (Return a, h') => f a h'
    | (Throw, h') => (Throw, h')
    end.

Notation "'let!' x ':=' m 'in' k" := (bind m (fun x => k))
  (at level 10, x name, m at level 100, k at level 200).

Notation "m ';;' k" := (bind m (fun _ => k))
  (at level 100, k at level 200, right associativity).

(** A new object. *)
Definition alloc (o : object) : M loc :=
  fun h => (Return (length h), h ++ [o]).

Definition read (l : loc) : M object :=
  fun h =>
    match h !! l with
    | Some o => (Return o, h)
    | None => (Throw, h)
    end.

Definition write (l : loc) (o : object) : M unit :=
  fun h => (Return tt, <[l := o]> h).

Definition truthy (v : value) : bool :=
  match v with
  | VUndefined | VNull => false
  | VBool b => b
  | VNumber NaN => false
  | VNumber (Int z) => negb (z =? 0)
  | VString s => truthy_string s
  | VRef _ => true
  end.

Fixpoint digits_value (s : jsstring) (acc : nat) : option nat :=
  match s with
  | [] => Some acc
  | c :: r =>
      if is_digit c then digits_value r (10 * acc + N.to_nat (c - 48))
      else None
  end.

(** The array index a property key stands for, if it is one. *)
Definition index_of_key (k : jsstring) : option nat :=
  match k with
  | [] => None
  | [48%N] => Some O
  | 48%N :: _ => None
  | _ => digits_value k 0
  end.

Definition key_of_index (i : nat) : jsstring := digits_of (Z.of_nat i).

Fixpoint lookup_key (props : list (jsstring * value)) (k : jsstring)
    : value :=
  match props with
  | [] => VUndefined
  | (k', v) :: r => if decide (k' = k) then v else lookup_key r k
  end.

(** [props[k] = v] on the properties of an object being built. *)
Fixpoint set_key (props : list (jsstring * value)) (k : jsstring) (v : value)
    : list (jsstring * value) :=
  match props with
  | [] => [(k, v)]
  | (k', v') :: r =>
      if decide (k' = k) then (k, v) :: r else (k', v') :: set_key r k v
  end.

(** The property [k] of a sequence: its length or one of its elements. *)
Definition sequence_get {A : Type} (xs : list A) (inj : A -> value)
    (k : jsstring) : value :=
  if decide (k = js "length") then VNumber (Int (Z.of_nat (length xs)))
  else match index_of_key k with
       | Some i => match xs !! i with
                   | Some x => inj x
                   | None => VUndefined
                   end
       | None => VUndefined
       end.

(** [v[k]], for the keys the code reads: data properties only. *)
Definition get (v : value) (k : jsstring) : M value :=
  match v with
  | VUndefined | VNull => throw
  | VBool _ | VNumber _ => ret VUndefined
  | VString s => ret (sequence_get s (fun c => VString [c]) k)
  | VRef l =>
      let! o := read l in
      match o with
      | Obj props => ret (lookup_key props k)
      | Arr items => ret (sequence_get items (fun x => x) k)
      end
  end.

Definition index_keys (n : nat) : list jsstring := map key_of_index (seq 0 n).

(** [Object.keys(v)] for a [v] that is not [undefined] or [null]. *)
Definition Object_keys (v : value) : M (list jsstring) :=
  match v with
  | VUndefined | VNull => throw
  | VBool _ | VNumber _ => ret []
  | VString s => ret (index_keys (length s))
  | VRef l =>
      let! o := read l in
      match o with
      | Obj props => ret (map fst props)
      | Arr items => ret (index_keys (length items))
      end
  end.

(** The own properties [{...v}] copies. *)
Definition spread (v : value) : M (list (jsstring * value)) :=
  match v with
  | VUndefined | VNull | VBool _ | VNumber _ => ret []
  | VString s =>
      ret (combine (index_keys (length s)) (map (fun c => VString [c]) s))
  | VRef l =>
      let! o := read l in
      match o with
      | Obj props => ret props
      | Arr items => ret (combine (index_keys (length items)) items)
      end
  end.

Definition isArray (v : value) : M bool :=
  match v with
  | VRef l =>
      let! o := read l in
      match o with
      | Arr _ => ret true
      | Obj _ => ret false
      end
  | _ => ret false
  end.

(** [a.push(x)] *)
Definition push (a : loc) (x : value) : M unit :=
  let! o := read a in
  match o with
  | Arr items => write a (Arr (items ++ [x]))
  | Obj _ => throw
  end.

(** The element [k] of the array at [l], as it is now. *)
Definition element (l : loc) (k : nat) : M (option value) :=
  let! o := read l in
  match o with
  | Arr items => ret (items !! k)
  | Obj _ => ret None
  end.

(** The loop of [forEach]: [n] indices from [k] on, each element read
    when its turn comes. *)
Fixpoint forEach_loop (n k : nat) (l : loc) (cb : value -> M unit)
    : M unit :=
  match n with
  | O => ret tt
  | S n' =>
      let! x := element l k in
      match x with
      | Some x => cb x ;; forEach_loop n' (S k) l cb
      | None => forEach_loop n' (S k) l cb
      end
  end.

(** [v.forEach(cb)]: only an array has the method. *)
Definition forEach (v : value) (cb : value -> M unit) : M unit :=
  match v with
  | VRef l =>
      let! o := read l in
      match o with
      | Arr items => forEach_loop (length items) 0 l cb
      | Obj _ => throw
      end
  | _ => throw
  end.

Fixpoint some_loop (n k : nat) (l : loc) (cb : value -> M bool) : M bool :=
  match n with
  | O => ret false
  | S n' =>
      let! x := element l k in
      match x with
      | Some x =>
          let! b := cb x in
          if b then ret true else some_loop n' (S k) l cb
      | None => some_loop n' (S k) l cb
      end
  end.

(** [v.some(cb)] *)
Definition some (v : value) (cb : value -> M bool) : M bool :=
  match v with
  | VRef l =>
      let! o := read l in
      match o with
      | Arr items => some_loop (length items) 0 l cb
      | Obj _ => throw
      end
  | _ => throw
  end.

Fixpoint filter_loop (n k : nat) (l a : loc) (cb : value -> M bool)
    : M unit :=
  match n with
  | O => ret tt
  | S n' =>
      let! x := element l k in
      match x with
      | Some x =>
          let! b := cb x in
          (if b then push a x else ret tt) ;;
          filter_loop n' (S k) l a cb
      | None => filter_loop n' (S k) l a cb
      end
  end.

(** [v.filter(cb)]: a new array of the elements [cb] keeps. *)
Definition filter (v : value) (cb : value -> M bool) : M value :=
  match v with
  | VRef l =>
      let! o := read l in
      match o with
      | Arr items =>
          let! a := alloc (Arr []) in
          filter_loop (length items) 0 l a cb ;;
          ret (VRef a)
      | Obj _ => throw
      end
  | _ => throw
  end.

(** The iteration of [Object.keys(v).forEach(cb)] over the array of keys
    just made, which nothing else refers to. *)
Fixpoint forEach_key (keys : list jsstring) (cb : jsstring -> M unit)
    : M unit :=
  match keys with
  | [] => ret tt
  | k :: keys' => cb k ;; forEach_key keys' cb
  end.

(** [v || w] *)
Definition or_else (v w : value) : value := if truthy v then v else w.

Record Controller : Type := mkController {
  conferences : value;
  filteredConferences : value;
  currentFilters : FilterState
}.

Section Methods.

Variable toLowerCase : jsstring -> jsstring.

(** [new Date(v)] for any value [v], in a given store. *)
Variable Date_new : heap -> value -> Date.

Definition new_Date (v : value) : M Date := fun h => (Return (Date_new h v), h).

(** [v.toLowerCase().includes(search)]: only a string has the method. *)
Definition lower_includes (v : value) (search : jsstring) : M bool :=
  match v with
  | VString s => ret (includes (toLowerCase s) search)
  | _ => throw
  end.

(** [themes.has(v)] for a set of strings. *)
Definition has (themes : gset jsstring) (v : value) : bool :=
  match v with
  | VString s => bool_decide (s ∈ themes)
  | _ => false
  end.

(** The callback given to [this.conferences.filter]. *)
Definition filter_callback (this : Controller) (conf : value) : M bool :=
  if (size (fs_themes (currentFilters this)) =? 0)%nat then ret false
  else
    let! themes := get conf (js "themes") in
    let! is_array := isArray themes in
    let! confThemes :=
      (if is_array then ret themes
       else let! theme := get conf (js "theme") in
            let! a := alloc (Arr [theme]) in
            ret (VRef a)) in
    let! hasMatchingTheme :=
      some confThemes
           (fun theme => ret (has (fs_themes (currentFilters this)) theme)) in
    if negb hasMatchingTheme then ret false
    else if truthy_string (fs_search (currentFilters this)) then
      let searchLower := fs_search (currentFilters this) in
      let! name := get conf (js "name") in
      let! nameMatch :=
        lower_includes (or_else name (VString [])) searchLower in
      let! short_name := get conf (js "short_name") in
      let! shortNameMatch :=
        lower_includes (or_else short_name (VString [])) searchLower in
      let! themeMatch :=
        some confThemes
             (fun theme =>
                lower_includes (or_else theme (VString [])) searchLower) in
      if negb nameMatch && negb shortNameMatch && negb themeMatch
      then ret false
      else ret true
    else ret true.

Definition applyFilters (this : Controller) : M Controller :=
  let! filtered := filter (conferences this) (filter_callback this) in
  ret {| conferences := conferences this;
         filteredConferences := filtered;
         currentFilters := currentFilters this |}.

(** The callback of [yearInfo.deadlines.forEach]. *)
Definition visit_deadline (conference : value) (month : MonthSlot)
    (confYear : jsstring) (deadlines : loc) (deadline : value) : M unit :=
  let! date := get deadline (js "date") in
  if truthy date then
    let! date := get deadline (js "date") in
    let! deadlineDate := new_Date date in
    if in_month deadlineDate month then
      let! copied := spread deadline in
      let! short_name := get conference (js "short_name") in
      let! entry :=
        alloc (Obj (set_key (set_key copied (js "conferenceName") short_name)
                            (js "conferenceYear") (VString confYear))) in
      push deadlines (VRef entry)
    else ret tt
  else ret tt.

(** [yearInfo.conference_dates.start] and [yearInfo.conference_dates.end] *)
Definition conference_date (yearInfo : value) (k : jsstring) : M value :=
  let! conference_dates := get yearInfo (js "conference_dates") in
  get conference_dates k.

(** The callback of [Object.keys(conference.information).forEach]. *)
Definition visit_year (conference : value) (month : MonthSlot)
    (deadlines : loc) (confYear : jsstring) : M unit :=
  let! information := get conference (js "information") in
  let! yearInfo := get information confYear in
  let! year_deadlines := get yearInfo (js "deadlines") in
  (if truthy year_deadlines
   then let! year_deadlines := get yearInfo (js "deadlines") in
        forEach year_deadlines
                (visit_deadline conference month confYear deadlines)
   else ret tt) ;;
  let! conference_dates := get yearInfo (js "conference_dates") in
  let! has_start :=
    (if truthy conference_dates
     then conference_date yearInfo (js "start")
     else ret conference_dates) in
  if truthy has_start then
    let! start := conference_date yearInfo (js "start") in
    let! startDate := new_Date start in
    if in_month startDate month then
      let! start := conference_date yearInfo (js "start") in
      let! finish := conference_date yearInfo (js "end") in
      let! is_predicted := get yearInfo (js "is_predicted") in
      let! short_name := get conference (js "short_name") in
      let! entry :=
        alloc (Obj [(js "type", VString (js "conference"));
                    (js "date", start);
                    (js "endDate", finish);
                    (js "label", VString (js "Conference Date"));
                    (js "is_predicted", or_else is_predicted (VBool false));
                    (js "conferenceName", short_name);
                    (js "conferenceYear", VString confYear)]) in
      push deadlines (VRef entry)
    else ret tt
  else ret tt.

Definition getDeadlinesInMonth (conference : value) (month : MonthSlot)
    : M value :=
  let! deadlines := alloc (Arr []) in
  let! information := get conference (js "information") in
  (if truthy information then
     let! information := get conference (js "information") in
     let! keys := Object_keys information in
     let! _ := alloc (Arr (map VString keys)) in
     forEach_key keys (visit_year conference month deadlines)
   else ret tt) ;;
  ret (VRef deadlines).

End Methods.

(** ** groupConferencesByName *)

(** The loop of [map]: an element is read when its turn comes, and the
    value of the callback is the element of the new array at the same
    index.  The arrays of this store have no holes, so the new array is
    filled from the left. *)
Fixpoint map_loop (n k : nat) (l a : loc) (cb : value -> M value) : M unit :=
  match n with
  | O => ret tt
  | S n' =>
      let! x := element l k in
      match x with
      | Some x =>
          let! y := cb x in
          push a y ;;
          map_loop n' (S k) l a cb
      | None => map_loop n' (S k) l a cb
      end
  end.

(** [v.map(cb)]: a new array of the values of [cb]. *)
Definition Array_map (v : value) (cb : value -> M value) : M value :=
  match v with
  | VRef l =>
      let! o := read l in
      match o with
      | Arr items =>
          let! a := alloc (Arr []) in
          map_loop (length items) 0 l a cb ;;
          ret (VRef a)
      | Obj _ => throw
      end
  | _ => throw
  end.

(** The callback of [conferences.map]: the object literal is created,
    and then its properties are evaluated in the order they are
    written. *)
Definition group (conf : value) : M value :=
  let! literal := alloc (Obj []) in
  let! name := get conf (js "name") in
  let! short_name := get conf (js "short_name") in
  let! theme := get conf (js "theme") in
  let! themes := get conf (js "themes") in
  let! rank := get conf (js "rank") in
  let! url := get conf (js "url") in
  let! paper_types := get conf (js "paper_types") in
  let! paperTypes :=
    (if truthy paper_types then ret paper_types
     else let! empty := alloc (Arr []) in ret (VRef empty)) in
  let! information := get conf (js "information") in
  write literal (Obj [(js "name", name);
                      (js "short_name", short_name);
                      (js "theme", theme);
                      (js "themes", themes);
                      (js "rank", rank);
                      (js "url", url);
                      (js "paperTypes", paperTypes);
                      (js "information", information)]) ;;
  ret (VRef literal).

Definition groupConferencesByName (conferences : value) : M value :=
  Array_map conferences group.

(** ** What a run leaves unchanged *)

Section FrameInvariant.

(** The store before the run, the array the run fills, and what the run
    puts into it. *)
Variable h0 : heap.
Variable a : loc.
Variable F : value -> Prop.

(** The objects of [h0] are where they were and as they were; the array
    at [a] is not one of them, and holds values that satisfy [F]. *)
Definition inv (h : heap) : Prop :=
  h0 `prefix_of` h /\ (length h0 <= a)%nat /\
  exists items, h !! a = Some (Arr items) /\ Forall F items.

(** [m] keeps the invariant, whether it returns or throws, and what it
    returns satisfies [post]. *)
Definition preserves_with {A : Type} (m : M A) (post : A -> Prop) : Prop :=
  forall h, inv h ->
    inv (m h).2 /\ forall x, (m h).1 = Return x -> post x.

Definition preserves {A : Type} (m : M A) : Prop :=
  preserves_with m (fun _ => True).

(** [m] does not write. *)
Definition reads_only {A : Type} (m : M A) : Prop :=
  forall h, (m h).2 = h.

End FrameInvariant.

(** A reference to an object that was not in the store [h0]. *)
Definition fresh_ref (h0 : heap) (x : value) : Prop :=
  exists e, x = VRef e /\ (length h0 <= e)%nat.

(** An element of the array [items]. *)
Definition element_of (items : list value) (x : value) : Prop :=
  exists k : nat, items !! k = Some x.

End Store.

(** ** Records in the store

    What it means for the store to hold a conference record as the
    loader builds it from the JSON feed, and for an object of the store
    to be an entry of a bucket. *)

Definition opt_value (o : option jsstring) : Store.value :=
  match o with
  | Some s => Store.VString s
  | None => Store.VUndefined
  end.

Definition scalar_value (v : scalar) : Store.value :=
  match v with
  | Undefined => Store.VUndefined
  | Null => Store.VNull
  | Bool b => Store.VBool b
  | Number n => Store.VNumber n
  | Str s => Store.VString s
  end.

(** The value [v] is, in the store [h], the deadline record [d]. *)
Definition is_deadline (h : Store.heap) (v : Store.value)
    (d : DeadlineRecord) : Prop :=
  exists l props,
    v = Store.VRef l /\ h !! l = Some (Store.Obj props) /\
    Store.lookup_key props (js "type") = opt_value (dl_type d) /\
    Store.lookup_key props (js "date") = opt_value (dl_date d) /\
    Store.lookup_key props (js "endDate") = Store.VUndefined /\
    Store.lookup_key props (js "label") = opt_value (dl_label d) /\
    Store.lookup_key props (js "is_predicted")
      = scalar_value (dl_is_predicted d).

Definition is_deadlines (h : Store.heap) (v : Store.value)
    (ds : option (list DeadlineRecord)) : Prop :=
  match ds with
  | None => v = Store.VUndefined
  | Some ds =>
      exists l items,
        v = Store.VRef l /\ h !! l = Some (Store.Arr items) /\
        Forall2 (is_deadline h) items ds
  end.

Definition is_conference_dates (h : Store.heap) (v : Store.value)
    (cd : option ConferenceDates) : Prop :=
  match cd with
  | None => v = Store.VUndefined
  | Some cd =>
      exists l props,
        v = Store.VRef l /\ h !! l = Some (Store.Obj props) /\
        Store.lookup_key props (js "start") = opt_value (cd_start cd) /\
        Store.lookup_key props (js "end") = opt_value (cd_end cd)
  end.

Definition is_year_info (h : Store.heap) (v : Store.value)
    (yearInfo : YearInfo) : Prop :=
  exists l props,
    v = Store.VRef l /\ h !! l = Some (Store.Obj props) /\
    is_deadlines h (Store.lookup_key props (js "deadlines"))
                 (deadlines yearInfo) /\
    is_conference_dates h (Store.lookup_key props (js "conference_dates"))
                        (conference_dates yearInfo) /\
    Store.lookup_key props (js "is_predicted")
      = scalar_value (is_predicted yearInfo).

Definition is_information (h : Store.heap) (v : Store.value)
    (info : option (list (jsstring * YearInfo))) : Prop :=
  match info with
  | None => v = Store.VUndefined
  | Some info =>
      exists l props,
        v = Store.VRef l /\ h !! l = Some (Store.Obj props) /\
        NoDup (map fst props) /\
        Forall2 (fun p kv => p.1 = kv.1 /\ is_year_info h p.2 kv.2) props info
  end.

Definition is_conference_record (h : Store.heap) (v : Store.value)
    (conference : ConferenceRecord) : Prop :=
  exists l props,
    v = Store.VRef l /\ h !! l = Some (Store.Obj props) /\
    Store.lookup_key props (js "short_name")
      = opt_value (short_name conference) /\
    is_information h (Store.lookup_key props (js "information"))
                   (information conference).

(** The properties [props] are those of the entry [e]. *)
Definition entry_props (props : list (jsstring * Store.value)) (e : Entry)
    : Prop :=
  Store.lookup_key props (js "type") = opt_value (e_type e) /\
  Store.lookup_key props (js "date") = opt_value (e_date e) /\
  Store.lookup_key props (js "endDate") = opt_value (e_endDate e) /\
  Store.lookup_key props (js "label") = opt_value (e_label e) /\
  Store.lookup_key props (js "is_predicted")
    = scalar_value (e_is_predicted e) /\
  Store.lookup_key props (js "conferenceName")
    = opt_value (e_conferenceName e) /\
  Store.lookup_key props (js "conferenceYear")
    = Store.VString (e_conferenceYear e).

(** The value [v] is, in the store [h], the entry [e], in an object that
    was not in the store [h0]. *)
Definition is_entry (h0 h : Store.heap) (v : Store.value) (e : Entry) : Prop :=
  exists l props,
    v = Store.VRef l /\ (length h0 < l)%nat /\
    h !! l = Some (Store.Obj props) /\ entry_props props e.

(** The array at [length h0] holds the entries [es], and the objects of
    [h0] are as they were. *)
Definition bucket (h0 : Store.heap) (es : list Entry) (h : Store.heap)
    : Prop :=
  h0 `prefix_of` h /\
  exists items,
    h !! length h0 = Some (Store.Arr items) /\
    Forall2 (is_entry h0 h) items es.

(** * What the specification says, in its own words *)

(** ** Filter *)

(** [s] occurs in [t]. *)
Definition substring (s t : jsstring) : Prop :=
  exists pre post, t = pre ++ s ++ post.

(** The themes of a record: its [themes] list, or the singleton of its
    legacy [theme]. *)
Definition effective_themes (conf : ConferenceRecord) : list jsstring :=
  match themes conf with
  | Some ts => ts
  | None => match theme conf with Some t => [t] | None => [] end
  end.

Section FilterSpec.

Variable toLowerCase : jsstring -> jsstring.

(** [s] occurs in [t] when case is ignored. *)
Definition ci_substring (s t : jsstring) : Prop :=
  substring (toLowerCase s) (toLowerCase t).

Definition theme_selected (fs : FilterState) (conf : ConferenceRecord)
    : Prop :=
  exists t, In t (effective_themes conf) /\ t ∈ fs_themes fs.

(** The search string occurs in the name, the short name or a theme;
    a record without a name has the empty name. *)
Definition search_matches (fs : FilterState) (conf : ConferenceRecord)
    : Prop :=
  ci_substring (fs_search fs) (or_empty (name conf)) \/
  ci_substring (fs_search fs) (or_empty (short_name conf)) \/
  exists t, In t (effective_themes conf) /\ ci_substring (fs_search fs) t.

Definition included (fs : FilterState) (conf : ConferenceRecord) : Prop :=
  theme_selected fs conf /\ (fs_search fs <> [] -> search_matches fs conf).

(** The filtered list is the subsequence, in the original order, of the
    records that are [included]. *)
Definition filters_as_specified (this : ConferenceCalendar) : Prop :=
  exists keep : ConferenceRecord -> bool,
    (forall conf, keep conf = true <-> included (currentFilters this) conf)
    /\ filteredConferences (applyFilters toLowerCase this)
       = List.filter keep (conferences this).

End FilterSpec.

(** ** Theme prefix *)

(** [theme] is [digits], then [seps], then [rest]: a number, dots and
    spaces after it, and the remainder. *)
Definition number_prefix (theme digits seps rest : jsstring) : Prop :=
  theme = digits ++ seps ++ rest /\
  digits <> [] /\ Forall (fun c => is_digit c = true) digits /\
  seps <> [] /\ Forall (fun c => is_dot_or_space c = true) seps /\
  (forall c r, rest = c :: r -> is_dot_or_space c = false).

Definition has_number_prefix (theme : jsstring) : Prop :=
  exists digits seps rest, number_prefix theme digits seps rest.

(** No white space at either end. *)
Definition trimmed (s : jsstring) : Prop :=
  (forall c r, s = c :: r -> is_space c = false) /\
  (forall c r, s = r ++ [c] -> is_space c = false).

(** ** Month window *)

(** April-aligned fiscal year of month [m] (0 to 11) of year [y]. *)
Definition fiscal_year (y m : Z) : Z :=
  if m <? 3 then y - 1 else y.

(** The month after month [m] (1 to 12) of year [y]. *)
Definition next_month (ym : Z * Z) : Z * Z :=
  let '(y, m) := ym in
  if m =? 12 then (y + 1, 1) else (y, m + 1).

(** [n] consecutive months from [ym] on. *)
Fixpoint month_run (n : nat) (ym : Z * Z) : list (Z * Z) :=
  match n with
  | O => []
  | S n' => ym :: month_run n' (next_month ym)
  end.

Definition slot_ym (s : MonthSlot) : number * number := (year s, month s).

Definition ym_numbers (ym : Z * Z) : number * number :=
  (Int (fst ym), Int (snd ym)).

(** The window of the controller is the 24 months from April of the
    fiscal year of [now] on, and [currentMonthIndex] is the place of the
    month of [now] in it. *)
Definition window_as_specified (y m : Z) (this : ConferenceCalendar) : Prop :=
  map slot_ym (months this)
    = map ym_numbers (month_run 24 (fiscal_year y m, 4)) /\
  last (map slot_ym (months this))
    = Some (Int (fiscal_year y m + 2), Int 3) /\
  exists k : nat,
    currentMonthIndex this = Some (Int (Z.of_nat k)) /\
    map slot_ym (months this) !! k = Some (Int y, Int (m + 1)).

(** A calendar with nothing loaded yet, as the constructor leaves it. *)
Definition new_calendar : ConferenceCalendar :=
  {| conferences := [];
     filteredConferences := [];
     months := [];
     currentMonthIndex := None;
     currentFilters := {| fs_themes := ∅; fs_search := [] |} |}.

(** ** Deadline buckets *)

Section BucketSpec.

Variable Date_parse : jsstring -> Date.

(** The string [s] is a date of the month of [slot]. *)
Definition date_in_slot (s : jsstring) (slot : MonthSlot) : Prop :=
  s <> [] /\
  exists y m d, Date_parse s = LocalDate y m d /\
                year slot = Int y /\ month slot = Int (m + 1).

Definition deadline_in_slot (deadline : DeadlineRecord) (slot : MonthSlot)
    : Prop :=
  exists s, dl_date deadline = Some s /\ date_in_slot s slot.

Definition start_in_slot (yearInfo : YearInfo) (slot : MonthSlot) : Prop :=
  exists cd s, conference_dates yearInfo = Some cd /\ cd_start cd = Some s /\
               date_in_slot s slot.

(** The date of the deadline is missing, empty, or not a date. *)
Definition unusable (deadline : DeadlineRecord) : Prop :=
  dl_date deadline = None \/ dl_date deadline = Some [] \/
  exists s, dl_date deadline = Some s /\ Date_parse s = InvalidDate.

(** The two tests of [getDeadlinesInMonth], as the code makes them. *)
Definition deadline_in_month (slot : MonthSlot) (deadline : DeadlineRecord)
    : bool :=
  truthy_opt (dl_date deadline) &&
  in_month (Date_of Date_parse (dl_date deadline)) slot.

Definition start_in_month (slot : MonthSlot) (yearInfo : YearInfo) : bool :=
  match conference_dates yearInfo with
  | Some cd => truthy_opt (cd_start cd) &&
               in_month (Date_of Date_parse (cd_start cd)) slot
  | None => false
  end.

(** What one year label contributes to a bucket. *)
Definition year_entries (conference : ConferenceRecord) (slot : MonthSlot)
    (confYear : jsstring) (yearInfo : YearInfo) : list Entry :=
  map (deadline_entry conference confYear)
      (List.filter (deadline_in_month slot) (default [] (deadlines yearInfo)))
  ++ match conference_dates yearInfo with
     | Some cd =>
         if start_in_month slot yearInfo
         then [conference_entry conference confYear yearInfo cd]
         else []
     | None => []
     end.

(** The date of the deadline can be read. *)
Definition usable (deadline : DeadlineRecord) : bool :=
  truthy_opt (dl_date deadline) &&
  match Date_of Date_parse (dl_date deadline) with
  | InvalidDate => false
  | LocalDate _ _ _ => true
  end.

(** The year entry without the deadlines whose date cannot be read. *)
Definition usable_deadlines (yearInfo : YearInfo) : YearInfo :=
  {| deadlines :=
       match deadlines yearInfo with
       | Some ds => Some (List.filter usable ds)
       | None => None
       end;
     conference_dates := conference_dates yearInfo;
     is_predicted := is_predicted yearInfo |}.

Definition without_unusable (conference : ConferenceRecord)
    : ConferenceRecord :=
  {| name := name conference;
     short_name := short_name conference;
     rank := rank conference;
     url := url conference;
     theme := theme conference;
     themes := themes conference;
     flagship := flagship conference;
     information :=
       match information conference with
       | Some info => Some (map (fun kv => (kv.1, usable_deadlines kv.2)) info)
       | None => None
       end |}.

(** The claim of the specification about a deadline whose date cannot be
    read: it is in no month, and a warning about it is written. *)
Definition excluded_with_warning (conference : ConferenceRecord)
    (months : list MonthSlot) (confYear : jsstring)
    (deadline : DeadlineRecord) : Prop :=
  (forall slot, In slot months ->
     ~ In (deadline_entry conference confYear deadline)
          (getDeadlinesInMonth Date_parse conference slot)) /\
  exists e, In e (timeline Date_parse conference months).2 /\
            e_date e = dl_date deadline.

End BucketSpec.

(** The year entry has no start of a conference. *)
Definition no_start (yearInfo : YearInfo) : Prop :=
  conference_dates yearInfo = None \/
  exists cd, conference_dates yearInfo = Some cd /\ cd_start cd = None.

(** The claim of the specification reads: a record without [information],
    or whose year entries lack the deadlines or lack the start of the
    conference, has an empty bucket in every month. *)
Definition lacks_a_part (conference : ConferenceRecord) : Prop :=
  information conference = None \/
  forall kv, In kv (default [] (information conference)) ->
             deadlines kv.2 = None \/ no_start kv.2.

Definition lacks_both_parts (conference : ConferenceRecord) : Prop :=
  information conference = None \/
  forall kv, In kv (default [] (information conference)) ->
             deadlines kv.2 = None /\ no_start kv.2.

(** ** Sample data *)

(** Two conferences, one with a [themes] list and one with a legacy
    [theme]. *)
Definition conf_sigmod : ConferenceRecord :=
  {| name := Some (js "ACM SIGMOD Conference");
     short_name := Some (js "SIGMOD");
     rank := Some (js "A*");
     url := None;
     theme := None;
     themes := Some [js "03. Databases"];
     flagship := Some true;
     information := None |}.

Definition conf_abc : ConferenceRecord :=
  {| name := Some (js "abc");
     short_name := Some (js "x");
     rank := None;
     url := None;
     theme := Some (js "T");
     themes := None;
     flagship := None;
     information := None |}.

Definition calendar_with (confs : list ConferenceRecord)
    (selected : list jsstring) (search : jsstring) : ConferenceCalendar :=
  {| conferences := confs;
     filteredConferences := [];
     months := [];
     currentMonthIndex := None;
     currentFilters :=
       {| fs_themes := list_to_set selected; fs_search := search |} |}.

Definition submission_2026_03_10 : DeadlineRecord :=
  {| dl_type := Some (js "submission");
     dl_date := Some (js "2026-03-10");
     dl_label := Some (js "Paper Submission");
     dl_is_predicted := Bool false |}.

Definition abstract_2026_03_03 : DeadlineRecord :=
  {| dl_type := Some (js "submission");
     dl_date := Some (js "2026-03-03");
     dl_label := Some (js "Abstract Registration");
     dl_is_predicted := Undefined |}.

Definition undated : DeadlineRecord :=
  {| dl_type := Some (js "notification");
     dl_date := Some [];
     dl_label := Some (js "Notification");
     dl_is_predicted := Undefined |}.

(** A conference with the given year entries. *)
Definition conference_with (info : option (list (jsstring * YearInfo)))
    : ConferenceRecord :=
  {| name := Some (js "International Conference on Examples");
     short_name := Some (js "ICE");
     rank := Some (js "A");
     url := None;
     theme := None;
     themes := Some [js "01. Systems"];
     flagship := None;
     information := info |}.

Definition deadlines_only (ds : list DeadlineRecord) : YearInfo :=
  {| deadlines := Some ds; conference_dates := None; is_predicted := Undefined |}.

Definition dates_only (start finish : jsstring) (flag : scalar) : YearInfo :=
  {| deadlines := None;
     conference_dates :=
       Some {| cd_start := Some start; cd_end := Some finish |};
     is_predicted := flag |}.

Definition slot_of (y m : Z) : MonthSlot :=
  month_slot (LocalDate y (m - 1) 1) 0.

(** All deadline records of a conference. *)
Definition all_deadlines (conference : ConferenceRecord)
    : list DeadlineRecord :=
  flat_map (fun kv => default [] (deadlines kv.2))
           (default [] (information conference)).

Definition ice_2026_june : ConferenceRecord :=
  conference_with
    (Some [(js "2026",
            dates_only (js "2026-06-01") (js "2026-06-05") Undefined)]).

Definition ice_undated : ConferenceRecord :=
  conference_with
    (Some [(js "2026", deadlines_only [undated; submission_2026_03_10])]).

Definition ice_dated : ConferenceRecord :=
  conference_with (Some [(js "2026", deadlines_only [submission_2026_03_10])]).

(** A store that holds [ice_undated]: its two deadline records, their
    array, the year entry, the [information] object, the record and its
    themes. *)
Definition ice_undated_store : Store.heap :=
  [Store.Obj [(js "type", Store.VString (js "notification"));
              (js "date", Store.VString []);
              (js "label", Store.VString (js "Notification"))];
   Store.Obj [(js "type", Store.VString (js "submission"));
              (js "date", Store.VString (js "2026-03-10"));
              (js "label", Store.VString (js "Paper Submission"));
              (js "is_predicted", Store.VBool false)];
   Store.Arr [Store.VRef 0; Store.VRef 1];
   Store.Obj [(js "deadlines", Store.VRef 2)];
   Store.Obj [(js "2026", Store.VRef 3)];
   Store.Obj [(js "name",
               Store.VString (js "International Conference on Examples"));
              (js "short_name", Store.VString (js "ICE"));
              (js "rank", Store.VString (js "A"));
              (js "themes", Store.VRef 6);
              (js "information", Store.VRef 4)];
   Store.Arr [Store.VString (js "01. Systems")]].

(** [new Date(v)] where strings are read in the date-only ISO form and
    nothing else is a date. *)
Definition Date_new_iso (behindUTC : bool) (h : Store.heap)
    (v : Store.value) : Date :=
  match v with
  | Store.VString s => Date_parse_iso behindUTC s
  | _ => InvalidDate
  end.

(** * The page

    The rest of the controller: what it writes to the document and the
    handlers of its controls.  The document is seen through what the
    class writes to it and reads back from it: the children it gives to
    [#monthsHeader] and [#conferencesList], the theme checkboxes, the text
    of [#lastUpdated], the value it assigns to the horizontal scroll
    position, and the console.  The elements the class looks up by id are
    taken to be in the document.  The readings of the clock during one
    run of a handler are taken to be the same. *)

(** ** The document tree *)

(** An element is described by its tag, the string assigned to
    [className], the tokens added with [classList.add], the attributes
    and the style properties that were set, and its children. *)
#[warnings="-register-all"] Inductive Node : Type :=
| Text (data : jsstring)
| Element (tagName className : jsstring) (classList_add : list jsstring)
          (attributes style : list (jsstring * jsstring))
          (childNodes : list Node).

(** The children of an element after [element.textContent = v]: a single
    text node, or nothing when [v] is [undefined] or the empty string. *)
Definition textContent_set (v : option jsstring) : list Node :=
  match v with
  | Some (c :: s) => [Text (c :: s)]
  | _ => []
  end.

(** The element [createDeadlineMarker] returns, as a node. *)
Definition marker_element (m : Marker) : Node :=
  Element (js "div") (className m)
          (if predicted_class m then [js "deadline-predicted"] else [])
          [(js "title", [])] []
          (textContent_set (Some (textContent m))).

(** [month.year === currentYear && month.month === currentMonth], with
    [currentMonth = now.getMonth() + 1]. *)
Definition is_current_month (now : Date) (slot : MonthSlot) : bool :=
  num_eq (year slot) (getFullYear now) &&
  num_eq (month slot) (num_add (getMonth now) (Int 1)).

(** ** renderMonthHeaders *)

(** The children given to [#monthsHeader]. *)
Definition renderMonthHeaders (now : Date) (this : ConferenceCalendar)
    : list Node :=
  map (fun slot =>
         Element (js "div") (js "month-header")
                 (if is_current_month now slot then [js "current-month"]
                  else [])
                 [] [] (textContent_set (Some (label slot))))
      (months this).

(** ** groupConferencesByName *)

(** The new object made for a record, seen through the properties the
    methods read: it has no [flagship].  Its [paperTypes]
    ([conf.paper_types || []]) is read by no method. *)
Definition groupConferencesByName (conferences : list ConferenceRecord)
    : list ConferenceRecord :=
  map (fun conf =>
         {| name := name conf;
            short_name := short_name conf;
            rank := rank conf;
            url := url conf;
            theme := theme conf;
            themes := themes conf;
            flagship := None;
            information := information conf |})
      conferences.

(** ** createConferenceRow, renderConferenceRows *)

(** The text of the message shown when no conference is listed, in UTF-16
    code units. *)
Definition no_data_message : jsstring :=
  [35442; 24403; 12377; 12427; 20250; 35696; 12364; 35211; 12388; 12363;
   12426; 12414; 12379; 12435; 12391; 12375; 12383; 12290]%N.

Definition noDataDiv : Node :=
  Element (js "div") (js "no-data") [] []
          [(js "padding", js "40px"); (js "textAlign", js "center")]
          [Text no_data_message].

Section Rows.

Variable Date_parse : jsstring -> Date.

(** The body of [this.months.forEach] in [createConferenceRow]: the
    column of a month, and what is written with [console.warn]. *)
Definition month_column (now : Date) (conference : ConferenceRecord)
    (slot : MonthSlot) : Node * list Entry :=
  let deadlinesInMonth := getDeadlinesInMonth Date_parse conference slot in
  let made := map (createDeadlineMarker Date_parse) deadlinesInMonth in
  (Element (js "div") (js "month-column")
           (if is_current_month now slot then [js "current-month"] else [])
           [] [] (map (fun x => marker_element x.1) made),
   concat (map snd made)).

Definition createConferenceRow (now : Date) (this : ConferenceCalendar)
    (conference : ConferenceRecord) : Node * list Entry :=
  let shortNameSpan :=
    Element (js "span") (js "conference-name") [] [] []
            match url conference with
            | Some (c :: u) =>
                [Element (js "a") [] []
                         [(js "href", c :: u); (js "target", js "_blank")]
                         [(js "color", js "inherit");
                          (js "textDecoration", js "none")]
                         (textContent_set (short_name conference))]
            | _ => textContent_set (short_name conference)
            end in
  let rankBadge :=
    Element (js "span") (js "badge badge-rank-" ++ interpolate (rank conference))
            [] [] [] (textContent_set (rank conference)) in
  let nameDiv :=
    Element (js "div") (js "conference-name-row") [] [] []
            [rankBadge; shortNameSpan] in
  let fullNameDiv :=
    Element (js "div") (js "conference-full-name") [] [] []
            (textContent_set (name conference)) in
  let themeBadges :=
    flat_map (fun theme =>
                match theme with
                | Some (c :: t) =>
                    [Element (js "span") (js "badge badge-theme") [] [] []
                             (textContent_set
                                (Some (stripThemePrefix (c :: t))))]
                | _ => []
                end)
             (confThemes conference) in
  let flagshipBadge :=
    match flagship conference with
    | Some true =>
        [Element (js "span") (js "badge badge-flagship") [] [] []
                 [Text (js "Flagship")]]
    | _ => []
    end in
  let metaDiv :=
    Element (js "div") (js "conference-meta") [] [] []
            (themeBadges ++ flagshipBadge) in
  let infoDiv :=
    Element (js "div") (js "conference-info") [] [] []
            [nameDiv; fullNameDiv; metaDiv] in
  let timeline :=
    fold_left (fun acc slot =>
                 let made := month_column now conference slot in
                 (acc.1 ++ [made.1], acc.2 ++ made.2))
              (months this) ([], []) in
  let timelineDiv :=
    Element (js "div") (js "conference-timeline") [] [] [] timeline.1 in
  (Element (js "div") (js "conference-row") [] [] [] [infoDiv; timelineDiv],
   timeline.2).

(** The children given to [#conferencesList], and what is written with
    [console.warn]. *)
Definition renderConferenceRows (now : Date) (this : ConferenceCalendar)
    : list Node * list Entry :=
  if (length (filteredConferences this) =? 0)%nat then ([noDataDiv], [])
  else
    let groupedConferences :=
      groupConferencesByName (filteredConferences this) in
    fold_left (fun acc group =>
                 let made := createConferenceRow now this group in
                 (acc.1 ++ [made.1], acc.2 ++ made.2))
              groupedConferences ([], []).

End Rows.

(** ** scrollToCurrentMonth *)

(** The value assigned to [calendarWrapper.scrollLeft] when the timer
    fires, if one is set. *)
Definition scrollToCurrentMonth (this : ConferenceCalendar) : option number :=
  match currentMonthIndex this with
  | Some index => Some (num_mul index (Int 150))
  | None => None
  end.

(** ** syncHeaderAndBodyWidth *)

(** The widths that [syncHeaderAndBodyWidth] assigns, as the style
    properties hold them; [None] is a property that was not set.  The
    month columns, the timelines and the rows are listed in the order of
    the document, all rows together, as [querySelectorAll] gives them. *)
Record Layout : Type := mkLayout {
  monthsContainer_width : option jsstring;
  monthColumn_widths : list (option jsstring * option jsstring);
  conferenceTimeline_widths : list (option jsstring);
  conferenceRow_widths : list (option jsstring);
  calendarContainer_width : option jsstring;
  calendarBody_width : option jsstring
}.

(** [n + 'px'] *)
Definition px (n : number) : jsstring := num_toString n ++ js "px".

(** The body of [monthColumns.forEach((column, index) => ...)], from
    [index] on. *)
Fixpoint sync_columns (monthHeaderWidths : list number) (index : nat)
    (columns : list (option jsstring * option jsstring))
    : list (option jsstring * option jsstring) :=
  match columns with
  | [] => []
  | column :: rest =>
      match monthHeaderWidths !! index with
      | Some width => (Some (px width), Some (px width))
      | None => column
      end :: sync_columns monthHeaderWidths (S index) rest
  end.

(** [syncHeaderAndBodyWidth()], for the [offsetWidth] (a whole number of
    pixels) of each month header and, as it is after the widths of the
    months are set, of the header of the conference column, in a document
    that has the elements the method looks up. *)
Definition syncHeaderAndBodyWidth (monthHeader_offsetWidths : list nat)
    (conferenceColumnHeader_offsetWidth : nat) (layout : Layout) : Layout :=
  if (0 <? length monthHeader_offsetWidths)%nat then
    let monthHeaderWidths :=
      map (fun width => Int (Z.of_nat width)) monthHeader_offsetWidths in
    let actualMonthsWidth := fold_left num_add monthHeaderWidths (Int 0) in
    let conferenceColumnWidth :=
      Int (Z.of_nat conferenceColumnHeader_offsetWidth) in
    let headerWidth := num_add conferenceColumnWidth actualMonthsWidth in
    {| monthsContainer_width := Some (px actualMonthsWidth);
       monthColumn_widths :=
         sync_columns monthHeaderWidths 0 (monthColumn_widths layout);
       conferenceTimeline_widths :=
         map (fun _ => Some (px actualMonthsWidth))
             (conferenceTimeline_widths layout);
       conferenceRow_widths :=
         map (fun _ => Some (px headerWidth)) (conferenceRow_widths layout);
       calendarContainer_width := Some (px headerWidth);
       calendarBody_width := Some (px headerWidth) |}
  else layout.

(** ** setupStickyHeader, updateMonthsWrapperWidth

    The positions and sizes the two methods read are numbers of the
    platform (they need not be whole); the section takes their type and
    the operations the methods apply to them. *)

Section StickyHeader.

Variable pixels : Type.
(** [a + b], [a - b], [a >= b], [Math.min(a, b)], [Math.max(0, a)], the
    truthiness of a number, the number in a string, and the number 300. *)
Variable plus : pixels -> pixels -> pixels.
Variable minus : pixels -> pixels -> pixels.
Variable at_least : pixels -> pixels -> bool.
Variable Math_min : pixels -> pixels -> pixels.
Variable Math_max_0 : pixels -> pixels.
Variable is_truthy : pixels -> bool.
Variable String_of : pixels -> jsstring.
Variable three_hundred : pixels.

(** What [updateMonthsWrapperWidth] measures: the width of the rectangle
    of the calendar wrapper, the [offsetWidth] of the header of the
    conference column when the element is found, and the [scrollWidth]
    and [offsetWidth] of the clone. *)
Record WidthMeasure : Type := mkWidthMeasure {
  wrapperRect_width : pixels;
  conferenceColumnHeader_width : option pixels;
  monthsClone_scrollWidth : pixels;
  monthsClone_offsetWidth : pixels
}.

(** The wrapper appended to the body, with the clone of the month header
    as its only child: the style properties that are computed ([left],
    [height], [width]) and the [transform] of the clone.  The other style
    properties are the constants of the source. *)
Record Wrapper : Type := mkWrapper {
  wrapper_left : jsstring;
  wrapper_height : jsstring;
  wrapper_width : option jsstring;
  monthsClone_transform : option jsstring
}.

Definition updateMonthsWrapperWidth (measure : WidthMeasure)
    (monthsWrapper : option Wrapper) : option Wrapper :=
  match monthsWrapper with
  | None => None
  | Some wrapper =>
      let conferenceColumnWidth :=
        match conferenceColumnHeader_width measure with
        | Some width => width
        | None => three_hundred
        end in
      let actualMonthsWidth :=
        if is_truthy (monthsClone_scrollWidth measure)
        then monthsClone_scrollWidth measure
        else monthsClone_offsetWidth measure in
      let maxAvailableWidth :=
        minus (wrapperRect_width measure) conferenceColumnWidth in
      Some {| wrapper_left := wrapper_left wrapper;
              wrapper_height := wrapper_height wrapper;
              wrapper_width :=
                Some (String_of (Math_min actualMonthsWidth maxAvailableWidth)
                      ++ js "px");
              monthsClone_transform := monthsClone_transform wrapper |}
  end.

(** The variables of the closure of [setupStickyHeader], and the style
    properties its handlers set on the month header and on the header of
    the conference column. *)
Record Sticky : Type := mkSticky {
  headerTop : option pixels;
  isFixed : bool;
  monthsWrapper : option Wrapper;
  monthsHeader_visibility : jsstring;
  conferenceColumnHeader_position : jsstring;
  conferenceColumnHeader_top : jsstring;
  conferenceColumnHeader_left : jsstring;
  conferenceColumnHeader_zIndex : jsstring;
  conferenceColumnHeader_visibility : jsstring
}.

(** What a handler measures when it runs: the scroll position of the
    window, the top and the left of the rectangle of the calendar
    wrapper, the [offsetHeight] of the calendar header, the [offsetWidth]
    of the header of the conference column, the [scrollLeft] of the
    calendar wrapper, and what the two calls of
    [updateMonthsWrapperWidth] measure. *)
Record Measure : Type := mkMeasure {
  window_scrollY : pixels;
  wrapperRect_top : pixels;
  wrapperRect_left : pixels;
  calendarHeader_offsetHeight : pixels;
  conferenceColumnHeader_offsetWidth : pixels;
  calendarWrapper_scrollLeft : pixels;
  at_creation : WidthMeasure;
  at_scroll : WidthMeasure
}.

(** The state when [setupStickyHeader] returns, over a document with the
    five style properties as given. *)
Definition setupStickyHeader (visibility position top left zIndex
    column_visibility : jsstring) : Sticky :=
  {| headerTop := None;
     isFixed := false;
     monthsWrapper := None;
     monthsHeader_visibility := visibility;
     conferenceColumnHeader_position := position;
     conferenceColumnHeader_top := top;
     conferenceColumnHeader_left := left;
     conferenceColumnHeader_zIndex := zIndex;
     conferenceColumnHeader_visibility := column_visibility |}.

(** The clone is moved to the scroll position of the calendar, and the
    width of the wrapper is set again. *)
Definition scroll_clone (measure : Measure) (monthsWrapper : option Wrapper)
    : option Wrapper :=
  match monthsWrapper with
  | None => None
  | Some wrapper =>
      let scrollOffset := Math_max_0 (calendarWrapper_scrollLeft measure) in
      updateMonthsWrapperWidth (at_scroll measure)
        (Some {| wrapper_left := wrapper_left wrapper;
                 wrapper_height := wrapper_height wrapper;
                 wrapper_width := wrapper_width wrapper;
                 monthsClone_transform :=
                   Some (js "translateX(-" ++ String_of scrollOffset
                         ++ js "px)") |})
  end.

Definition handleScroll (measure : Measure) (state : Sticky) : Sticky :=
  let headerTop :=
    match headerTop state with
    | None => plus (wrapperRect_top measure) (window_scrollY measure)
    | Some top => top
    end in
  let scrollY := window_scrollY measure in
  if at_least scrollY headerTop then
    if negb (isFixed state) then
      let wrapperLeft := wrapperRect_left measure in
      let monthsWrapper :=
        match monthsWrapper state with
        | None =>
            let headerHeight := calendarHeader_offsetHeight measure in
            let conferenceColumnWidth :=
              conferenceColumnHeader_offsetWidth measure in
            let leftPosition := plus wrapperLeft conferenceColumnWidth in
            updateMonthsWrapperWidth (at_creation measure)
              (Some {| wrapper_left := String_of leftPosition ++ js "px";
                       wrapper_height := String_of headerHeight ++ js "px";
                       wrapper_width := None;
                       monthsClone_transform := None |})
        | Some wrapper => Some wrapper
        end in
      {| headerTop := Some headerTop;
         isFixed := true;
         monthsWrapper := scroll_clone measure monthsWrapper;
         monthsHeader_visibility := js "hidden";
         conferenceColumnHeader_position := js "fixed";
         conferenceColumnHeader_top := js "0";
         conferenceColumnHeader_left := String_of wrapperLeft ++ js "px";
         conferenceColumnHeader_zIndex := js "102";
         conferenceColumnHeader_visibility := js "visible" |}
    else
      {| headerTop := Some headerTop;
         isFixed := isFixed state;
         monthsWrapper := scroll_clone measure (monthsWrapper state);
         monthsHeader_visibility := monthsHeader_visibility state;
         conferenceColumnHeader_position :=
           conferenceColumnHeader_position state;
         conferenceColumnHeader_top := conferenceColumnHeader_top state;
         conferenceColumnHeader_left := conferenceColumnHeader_left state;
         conferenceColumnHeader_zIndex := conferenceColumnHeader_zIndex state;
         conferenceColumnHeader_visibility :=
           conferenceColumnHeader_visibility state |}
  else if isFixed state then
    {| headerTop := Some headerTop;
       isFixed := false;
       monthsWrapper := None;
       monthsHeader_visibility := [];
       conferenceColumnHeader_position := [];
       conferenceColumnHeader_top := [];
       conferenceColumnHeader_left := [];
       conferenceColumnHeader_zIndex := [];
       conferenceColumnHeader_visibility := [] |}
  else
    {| headerTop := Some headerTop;
       isFixed := isFixed state;
       monthsWrapper := monthsWrapper state;
       monthsHeader_visibility := monthsHeader_visibility state;
       conferenceColumnHeader_position :=
         conferenceColumnHeader_position state;
       conferenceColumnHeader_top := conferenceColumnHeader_top state;
       conferenceColumnHeader_left := conferenceColumnHeader_left state;
       conferenceColumnHeader_zIndex := conferenceColumnHeader_zIndex state;
       conferenceColumnHeader_visibility :=
         conferenceColumnHeader_visibility state |}.

Definition handleWrapperScroll (measure : Measure) (state : Sticky) : Sticky :=
  if isFixed state then
    {| headerTop := headerTop state;
       isFixed := isFixed state;
       monthsWrapper := scroll_clone measure (monthsWrapper state);
       monthsHeader_visibility := monthsHeader_visibility state;
       conferenceColumnHeader_position :=
         conferenceColumnHeader_position state;
       conferenceColumnHeader_top := conferenceColumnHeader_top state;
       conferenceColumnHeader_left := conferenceColumnHeader_left state;
       conferenceColumnHeader_zIndex := conferenceColumnHeader_zIndex state;
       conferenceColumnHeader_visibility :=
         conferenceColumnHeader_visibility state |}
  else state.

(** The handler of [resize]. *)
Definition handleResize (measure : Measure) (state : Sticky) : Sticky :=
  handleScroll measure
    {| headerTop := None;
       isFixed := false;
       monthsWrapper := None;
       monthsHeader_visibility := monthsHeader_visibility state;
       conferenceColumnHeader_position :=
         conferenceColumnHeader_position state;
       conferenceColumnHeader_top := conferenceColumnHeader_top state;
       conferenceColumnHeader_left := conferenceColumnHeader_left state;
       conferenceColumnHeader_zIndex := conferenceColumnHeader_zIndex state;
       conferenceColumnHeader_visibility :=
         conferenceColumnHeader_visibility state |}.

(** The events the three listeners are for. *)
Inductive LayoutEvent : Type :=
| WindowScroll (measure : Measure)
| WrapperScroll (measure : Measure)
| WindowResize (measure : Measure).

Definition handle (state : Sticky) (event : LayoutEvent) : Sticky :=
  match event with
  | WindowScroll measure => handleScroll measure state
  | WrapperScroll measure => handleWrapperScroll measure state
  | WindowResize measure => handleResize measure state
  end.

(** The event leaves the page above the top [top] of the calendar: a
    scroll of the calendar, or a scroll of the window to a position that
    is not at least [top]. *)
Definition stays_above (top : pixels) (event : LayoutEvent) : bool :=
  match event with
  | WindowScroll measure => negb (at_least (window_scrollY measure) top)
  | WrapperScroll _ => true
  | WindowResize _ => false
  end.

Definition is_resize (event : LayoutEvent) : bool :=
  match event with
  | WindowResize _ => true
  | _ => false
  end.

(** The header is fixed exactly when the wrapper with the clone exists,
    and then the month header is hidden and the header of the conference
    column is fixed. *)
Definition fixed_with_clone (state : Sticky) : Prop :=
  (isFixed state = true <-> monthsWrapper state <> None) /\
  (isFixed state = true ->
   monthsHeader_visibility state = js "hidden" /\
   conferenceColumnHeader_position state = js "fixed").

(** While the header is not fixed, the visibility of the month header is
    the one of the document, or the empty string the handler puts back. *)
Definition visible_unless_fixed (visibility : jsstring) (state : Sticky)
    : Prop :=
  isFixed state = false ->
  monthsHeader_visibility state = visibility \/
  monthsHeader_visibility state = [].

(** The month header is hidden although the header is not fixed and
    there is no clone. *)
Definition header_lost (state : Sticky) : Prop :=
  isFixed state = false /\ monthsWrapper state = None /\
  monthsHeader_visibility state = js "hidden".

End StickyHeader.

(** ** The state of the page *)

(** A label of [#themeCheckboxes]: the value and the state of its
    checkbox, and the text after it. *)
Record Checkbox : Type := mkCheckbox {
  cb_value : jsstring;
  cb_checked : bool;
  cb_text : jsstring
}.

Inductive ConsoleLine : Type :=
| Log_loaded (count : number)
| Error_loading
| Error_initialize
| Warn_invalid_date (deadline : Entry).

(** What [#conferencesList] holds: the nodes appended to it, or the
    markup of [showError] with its message. *)
Inductive ListContent : Type :=
| Children (nodes : list Node)
| ErrorBox (message : jsstring).

Record Page : Type := mkPage {
  controller : ConferenceCalendar;
  listening : bool;
  themeCheckboxes : list Checkbox;
  lastUpdated : jsstring;
  monthsHeader : list Node;
  conferencesList : ListContent;
  scrollLeft : option number;
  console : list ConsoleLine
}.

(** The page when the class is constructed over a document: the fields
    as the constructor sets them, and no handler yet. *)
Definition constructed (document : Page) : Page :=
  {| controller := new_calendar;
     listening := false;
     themeCheckboxes := themeCheckboxes document;
     lastUpdated := lastUpdated document;
     monthsHeader := monthsHeader document;
     conferencesList := conferencesList document;
     scrollLeft := scrollLeft document;
     console := console document |}.

Definition with_controller (this : ConferenceCalendar) (page : Page) : Page :=
  {| controller := this;
     listening := listening page;
     themeCheckboxes := themeCheckboxes page;
     lastUpdated := lastUpdated page;
     monthsHeader := monthsHeader page;
     conferencesList := conferencesList page;
     scrollLeft := scrollLeft page;
     console := console page |}.

Definition with_themes (selected : gset jsstring) (this : ConferenceCalendar)
    : ConferenceCalendar :=
  {| conferences := conferences this;
     filteredConferences := filteredConferences this;
     months := months this;
     currentMonthIndex := currentMonthIndex this;
     currentFilters :=
       {| fs_themes := selected;
          fs_search := fs_search (currentFilters this) |} |}.

Definition with_checkboxes (boxes : list Checkbox) (page : Page) : Page :=
  {| controller := controller page;
     listening := listening page;
     themeCheckboxes := boxes;
     lastUpdated := lastUpdated page;
     monthsHeader := monthsHeader page;
     conferencesList := conferencesList page;
     scrollLeft := scrollLeft page;
     console := console page |}.

Definition set_checked (b : bool) (box : Checkbox) : Checkbox :=
  {| cb_value := cb_value box; cb_checked := b; cb_text := cb_text box |}.

(** ** populateThemeFilter *)

Definition populateThemeFilter (themes : list jsstring) (page : Page) : Page :=
  with_checkboxes
    (map (fun theme =>
            {| cb_value := theme;
               cb_checked := true;
               cb_text := js " " ++ stripThemePrefix theme |})
         themes)
    (with_controller (with_themes (list_to_set themes) (controller page))
                     page).

(** ** loadData, showError, init *)

(** The parsed feed: an object with the three properties the loader
    reads.  A JSON value that is not an object and not [null] has none of
    them. *)
Record Data : Type := mkData {
  d_conferences : option (list ConferenceRecord);
  d_themes : option (list jsstring);
  d_last_updated : option jsstring
}.

(** What [response.json()] gives: a rejection when the body is not JSON,
    [null], or a value. *)
Inductive Body : Type :=
| NotJson
| JsonNull
| JsonValue (data : Data).

(** What [fetch] gives: a rejection, or a response. *)
Inductive Fetched : Type :=
| NetworkError
| Response (ok : bool) (body : Body).

(** A run that ends normally, or by throwing. *)
Inductive Completion : Type :=
| Normal (page : Page)
| Abrupt (page : Page).

Definition log (line : ConsoleLine) (page : Page) : Page :=
  {| controller := controller page;
     listening := listening page;
     themeCheckboxes := themeCheckboxes page;
     lastUpdated := lastUpdated page;
     monthsHeader := monthsHeader page;
     conferencesList := conferencesList page;
     scrollLeft := scrollLeft page;
     console := console page ++ [line] |}.

Definition with_conferences (confs : list ConferenceRecord)
    (this : ConferenceCalendar) : ConferenceCalendar :=
  {| conferences := confs;
     filteredConferences := filteredConferences this;
     months := months this;
     currentMonthIndex := currentMonthIndex this;
     currentFilters := currentFilters this |}.

Definition with_lastUpdated (text : jsstring) (page : Page) : Page :=
  {| controller := controller page;
     listening := listening page;
     themeCheckboxes := themeCheckboxes page;
     lastUpdated := text;
     monthsHeader := monthsHeader page;
     conferencesList := conferencesList page;
     scrollLeft := scrollLeft page;
     console := console page |}.

(** The part of [loadData] after [const data = await response.json()]. *)
Definition loadData_from (body : Body) (page : Page) : Completion :=
  match body with
  | NotJson | JsonNull => Abrupt (log Error_loading page)
  | JsonValue data =>
      let page :=
        with_controller
          (with_conferences (default [] (d_conferences data))
                            (controller page)) page in
      let themes := default [] (d_themes data) in
      let page := populateThemeFilter themes page in
      let page :=
        match d_last_updated data with
        | Some (c :: s) => with_lastUpdated (c :: s) page
        | _ => page
        end in
      Normal (log (Log_loaded
                     (Int (Z.of_nat (length (conferences (controller page))))))
                  page)
  end.

(** [first] is what the fetch of [data/conferences_with_cfp.json] gives,
    and [second] what the fetch of [data/conferences_base.json] gives
    when it is made. *)
Definition loadData (first second : Fetched) (page : Page) : Completion :=
  match first with
  | NetworkError => Abrupt (log Error_loading page)
  | Response true body => loadData_from body page
  | Response false _ =>
      match second with
      | NetworkError => Abrupt (log Error_loading page)
      | Response _ body => loadData_from body page
      end
  end.

(** The message [init] gives to [showError], in UTF-16 code units. *)
Definition load_failed_message : jsstring :=
  [12487; 12540; 12479; 12398; 35501; 12415; 36796; 12415; 12395; 22833;
   25943; 12375; 12414; 12375; 12383; 12290]%N.

Definition showError (message : jsstring) (page : Page) : Page :=
  {| controller := controller page;
     listening := listening page;
     themeCheckboxes := themeCheckboxes page;
     lastUpdated := lastUpdated page;
     monthsHeader := monthsHeader page;
     conferencesList := ErrorBox message;
     scrollLeft := scrollLeft page;
     console := console page |}.

Definition setupEventListeners (page : Page) : Page :=
  {| controller := controller page;
     listening := true;
     themeCheckboxes := themeCheckboxes page;
     lastUpdated := lastUpdated page;
     monthsHeader := monthsHeader page;
     conferencesList := conferencesList page;
     scrollLeft := scrollLeft page;
     console := console page |}.

Section Handlers.

Variable toLowerCase : jsstring -> jsstring.
Variable Date_parse : jsstring -> Date.

(** [renderCalendar()]; the widths that [syncHeaderAndBodyWidth] sets are
    not part of the page, and the timer of [scrollToCurrentMonth] has
    fired. *)
Definition renderCalendar (now : Date) (page : Page) : Page :=
  let rows := renderConferenceRows Date_parse now (controller page) in
  {| controller := controller page;
     listening := listening page;
     themeCheckboxes := themeCheckboxes page;
     lastUpdated := lastUpdated page;
     monthsHeader := renderMonthHeaders now (controller page);
     conferencesList := Children rows.1;
     scrollLeft :=
       match scrollToCurrentMonth (controller page) with
       | Some x => Some x
       | None => scrollLeft page
       end;
     console := console page ++ map Warn_invalid_date rows.2 |}.

(** [applyFilters()], with the rendering it ends with. *)
Definition applyFilters_render (now : Date) (page : Page) : Page :=
  renderCalendar now
    (with_controller (applyFilters toLowerCase (controller page)) page).

Definition init (first second : Fetched) (now : Date) (page : Page) : Page :=
  match loadData first second page with
  | Normal page =>
      let page := setupEventListeners page in
      let page :=
        with_controller (generateMonths now (controller page)) page in
      applyFilters_render now page
  | Abrupt page =>
      showError load_failed_message (log Error_initialize page)
  end.

(** ** The handlers of setupEventListeners *)

(** The click on [#selectAllThemes]. *)
Definition on_selectAll (now : Date) (page : Page) : Page :=
  let checkboxes := map (set_checked true) (themeCheckboxes page) in
  let checkedThemes := map cb_value checkboxes in
  applyFilters_render now
    (with_controller
       (with_themes (list_to_set checkedThemes) (controller page))
       (with_checkboxes checkboxes page)).

(** The click on [#deselectAllThemes]. *)
Definition on_deselectAll (now : Date) (page : Page) : Page :=
  let checkboxes := map (set_checked false) (themeCheckboxes page) in
  applyFilters_render now
    (with_controller (with_themes ∅ (controller page))
                     (with_checkboxes checkboxes page)).

(** The change of a checkbox of [#themeCheckboxes]. *)
Definition on_change (now : Date) (page : Page) : Page :=
  let checkedThemes :=
    map cb_value (List.filter cb_checked (themeCheckboxes page)) in
  applyFilters_render now
    (with_controller
       (with_themes (list_to_set checkedThemes) (controller page)) page).

(** The input in [#searchInput]. *)
Definition on_input (value : jsstring) (now : Date) (page : Page) : Page :=
  applyFilters_render now
    (with_controller (on_search_input toLowerCase value (controller page))
                     page).

(** What the user does. *)
Inductive Event : Type :=
| ClickSelectAll
| ClickDeselectAll
| ClickTheme (i : nat)
| TypeSearch (value : jsstring).

(** The browser flips the checkbox that is clicked. *)
Definition flip (i : nat) (boxes : list Checkbox) : list Checkbox :=
  alter (fun box => set_checked (negb (cb_checked box)) box) i boxes.

(** An event at a reading [now] of the clock: what the browser does, and
    the handler, when one is installed. *)
Definition dispatch (page : Page) (at_event : Date * Event) : Page :=
  let '(now, event) := at_event in
  match event with
  | ClickSelectAll =>
      if listening page then on_selectAll now page else page
  | ClickDeselectAll =>
      if listening page then on_deselectAll now page else page
  | ClickTheme i =>
      if bool_decide (i < length (themeCheckboxes page))%nat then
        let page := with_checkboxes (flip i (themeCheckboxes page)) page in
        if listening page then on_change now page else page
      else page
  | TypeSearch value =>
      if listening page then on_input value now page else page
  end.

(** A session: the page is loaded, and then used. *)
Definition session (first second : Fetched) (now : Date) (page : Page)
    (events : list (Date * Event)) : Page :=
  fold_left dispatch events (init first second now page).

End Handlers.


(** ** Records of the filter in the store *)

(** In the store [h], [v] is the record [conf], as far as the filter
    reads it: the name, the short name, the legacy theme, and the array of
    themes when there is one. *)
Definition is_filter_record (h : Store.heap) (v : Store.value)
    (conf : ConferenceRecord) : Prop :=
  exists l props,
    v = Store.VRef l /\ h !! l = Some (Store.Obj props) /\
    Store.lookup_key props (js "name") = opt_value (name conf) /\
    Store.lookup_key props (js "short_name") = opt_value (short_name conf) /\
    Store.lookup_key props (js "theme") = opt_value (theme conf) /\
    match themes conf with
    | Some ts =>
        exists lt, Store.lookup_key props (js "themes") = Store.VRef lt /\
                   h !! lt = Some (Store.Arr (map Store.VString ts))
    | None => Store.lookup_key props (js "themes") = Store.VUndefined
    end.

(** The references, among [items], of the records that [keep] keeps. *)
Definition kept_of (keep : ConferenceRecord -> bool)
    (items : list Store.value) (confs : list ConferenceRecord)
    : list Store.value :=
  map fst (List.filter (fun p => keep p.2) (combine items confs)).

(** ** Groups in the store *)

(** The properties of the object [groupConferencesByName] makes for a
    record with the properties [props]. *)
Definition group_props (props : list (jsstring * Store.value))
    (paperTypes : Store.value) : list (jsstring * Store.value) :=
  [(js "name", Store.lookup_key props (js "name"));
   (js "short_name", Store.lookup_key props (js "short_name"));
   (js "theme", Store.lookup_key props (js "theme"));
   (js "themes", Store.lookup_key props (js "themes"));
   (js "rank", Store.lookup_key props (js "rank"));
   (js "url", Store.lookup_key props (js "url"));
   (js "paperTypes", paperTypes);
   (js "information", Store.lookup_key props (js "information"))].

(** In the store [h], [v] is an object. *)
Definition is_object (h : Store.heap) (v : Store.value) : Prop :=
  exists l props, v = Store.VRef l /\ h !! l = Some (Store.Obj props).

(** In the store [h'], [group] is the group of the record [conf] of the
    store [h]: a new object with the eight properties, whose [paperTypes]
    is the [paper_types] of the record or else a new, empty array. *)
Definition is_group (h h' : Store.heap) (conf group : Store.value) : Prop :=
  exists l props lg paperTypes,
    conf = Store.VRef l /\ h !! l = Some (Store.Obj props) /\
    group = Store.VRef lg /\ (length h < lg)%nat /\
    h' !! lg = Some (Store.Obj (group_props props paperTypes)) /\
    if Store.truthy (Store.lookup_key props (js "paper_types"))
    then paperTypes = Store.lookup_key props (js "paper_types")
    else exists le, paperTypes = Store.VRef le /\ (length h < le)%nat /\
                    h' !! le = Some (Store.Arr []).

(** The objects of [h] are in [h'] where they were and as they were, and
    the array at [length h] holds the groups of the records [confs]. *)
Definition grouped (h : Store.heap) (confs : list Store.value)
    (h' : Store.heap) : Prop :=
  (forall i o, h !! i = Some o -> h' !! i = Some o) /\
  exists groups,
    h' !! length h = Some (Store.Arr groups) /\
    Forall2 (is_group h h') confs groups.

(** ** Reading the document *)

Definition childNodes_of (n : Node) : list Node :=
  match n with
  | Text _ => []
  | Element _ _ _ _ _ children => children
  end.

(** The text of the text nodes among the children of [n]. *)
Definition text_of (n : Node) : jsstring :=
  flat_map (fun child => match child with Text data => data | _ => [] end)
           (childNodes_of n).

(** [current-month] was added to the class list of [n]. *)
Definition highlighted (n : Node) : bool :=
  match n with
  | Text _ => false
  | Element _ _ added _ _ _ => bool_decide (js "current-month" ∈ added)
  end.

(** The parts of a row of [createConferenceRow]: the element with the
    full name, the badges of the meta line, and the month columns. *)
Definition row_fullName (row : Node) : list Node :=
  match childNodes_of row with
  | [infoDiv; _] =>
      match childNodes_of infoDiv with
      | [_; fullNameDiv; _] => [fullNameDiv]
      | _ => []
      end
  | _ => []
  end.

Definition row_badges (row : Node) : list Node :=
  match childNodes_of row with
  | [infoDiv; _] =>
      match childNodes_of infoDiv with
      | [_; _; metaDiv] => childNodes_of metaDiv
      | _ => []
      end
  | _ => []
  end.

Definition row_columns (row : Node) : list Node :=
  match childNodes_of row with
  | [_; timelineDiv] => childNodes_of timelineDiv
  | _ => []
  end.

(** The badge of a theme, as [createConferenceRow] makes it. *)
Definition theme_badge (theme : jsstring) : Node :=
  Element (js "span") (js "badge badge-theme") [] [] []
          (textContent_set (Some (stripThemePrefix theme))).

Definition with_flagship (flag : option bool) (conf : ConferenceRecord)
    : ConferenceRecord :=
  {| name := name conf;
     short_name := short_name conf;
     rank := rank conf;
     url := url conf;
     theme := theme conf;
     themes := themes conf;
     flagship := flag;
     information := information conf |}.

Definition with_filteredConferences (confs : list ConferenceRecord)
    (this : ConferenceCalendar) : ConferenceCalendar :=
  {| conferences := conferences this;
     filteredConferences := confs;
     months := months this;
     currentMonthIndex := currentMonthIndex this;
     currentFilters := currentFilters this |}.

Definition with_search (search : jsstring) (this : ConferenceCalendar)
    : ConferenceCalendar :=
  {| conferences := conferences this;
     filteredConferences := filteredConferences this;
     months := months this;
     currentMonthIndex := currentMonthIndex this;
     currentFilters :=
       {| fs_themes := fs_themes (currentFilters this);
          fs_search := search |} |}.

(** The selected themes are the values of the checked boxes. *)
Definition themes_in_sync (page : Page) : Prop :=
  fs_themes (currentFilters (controller page))
  = list_to_set (map cb_value (List.filter cb_checked (themeCheckboxes page))).

(** ** A loaded page *)

(** The feed that [loadData] reads, when there is one. *)
Definition feed_of (first second : Fetched) : option Data :=
  match first with
  | Response true (JsonValue data) => Some data
  | Response false _ =>
      match second with
      | Response _ (JsonValue data) => Some data
      | _ => None
      end
  | _ => None
  end.

(** The controller and the controls of a page that was loaded from the
    feed [data] at the reading [now0] of the clock, over [document]. *)
Definition loaded_model (data : Data) (now0 : Date) (document page : Page)
    : Prop :=
  listening page = true /\
  conferences (controller page) = default [] (d_conferences data) /\
  months (controller page) = months (generateMonths now0 new_calendar) /\
  currentMonthIndex (controller page)
  = currentMonthIndex (generateMonths now0 new_calendar) /\
  map cb_value (themeCheckboxes page) = default [] (d_themes data) /\
  themes_in_sync page /\
  console page
  = console document
    ++ [Log_loaded
          (Int (Z.of_nat (length (default [] (d_conferences data)))))].

(** What the page shows is what the controller holds. *)
Definition loaded_view (toLowerCase : jsstring -> jsstring)
    (Date_parse : jsstring -> Date) (page : Page) : Prop :=
  filteredConferences (controller page)
  = List.filter (filter_callback toLowerCase (controller page))
                (conferences (controller page)) /\
  scrollLeft page = scrollToCurrentMonth (controller page) /\
  exists now,
    conferencesList page
    = Children (renderConferenceRows Date_parse now (controller page)).1 /\
    monthsHeader page = renderMonthHeaders now (controller page).

(** ** A sample feed *)

Definition feed : Data :=
  {| d_conferences := Some [conf_sigmod; conf_abc; ice_dated];
     d_themes := Some [js "01. Systems"; js "03. Databases"];
     d_last_updated := Some (js "2025-11-01") |}.

Definition blank_page : Page :=
  {| controller := new_calendar;
     listening := false;
     themeCheckboxes := [];
     lastUpdated := [];
     monthsHeader := [];
     conferencesList := Children [];
     scrollLeft := None;
     console := [] |}.

(** A store with a record whose entry for 2026 is [null], and an array of
    records one of which is [null]. *)
Definition null_year_store : Store.heap :=
  [Store.Obj [(js "2025", Store.VRef 3); (js "2026", Store.VNull)];
   Store.Obj [(js "short_name", Store.VString (js "ICE"));
              (js "theme", Store.VString (js "T"));
              (js "information", Store.VRef 0)];
   Store.Arr [Store.VRef 1; Store.VNull];
   Store.Obj []].

(** A store with one record, listed twice. *)
Definition twice_store : Store.heap :=
  [Store.Obj [(js "name", Store.VString (js "abc"));
              (js "flagship", Store.VBool true);
              (js "information", Store.VRef 2)];
   Store.Arr [Store.VRef 0; Store.VRef 0];
   Store.Obj []].

(** A controller with a window and two filtered records. *)
Definition calendar_2025_10 : ConferenceCalendar :=
  with_filteredConferences [conf_sigmod; ice_dated]
    (generateMonths (LocalDate 2025 10 15) new_calendar).

(** Two rows of two month columns, with no width set. *)
Definition layout_two_rows : Layout :=
  {| monthsContainer_width := None;
     monthColumn_widths := [(None, None); (None, None);
                            (None, None); (None, None)];
     conferenceTimeline_widths := [None; None];
     conferenceRow_widths := [None; None];
     calendarContainer_width := None;
     calendarBody_width := None |}.

(** Measures in whole pixels: the window is scrolled to 500, and the
    calendar wrapper begins [top] pixels below the top of the window. *)
Definition measure_at (top : Z) : Measure Z :=
  {| window_scrollY := 500;
     wrapperRect_top := top;
     wrapperRect_left := 20;
     calendarHeader_offsetHeight := 40;
     conferenceColumnHeader_offsetWidth := 300;
     calendarWrapper_scrollLeft := 0;
     at_creation := {| wrapperRect_width := 1000;
                       conferenceColumnHeader_width := Some 300;
                       monthsClone_scrollWidth := 3600;
                       monthsClone_offsetWidth := 3600 |};
     at_scroll := {| wrapperRect_width := 1000;
                     conferenceColumnHeader_width := Some 300;
                     monthsClone_scrollWidth := 3600;
                     monthsClone_offsetWidth := 3600 |} |}.

(** The sticky header over whole pixels. *)
Definition handle_whole : Sticky Z -> LayoutEvent Z -> Sticky Z :=
  handle Z Z.add Z.sub Z.geb Z.min (Z.max 0) (fun x => negb (x =? 0))
         digits_of 300.

(** A store with the two sample conferences and their array. *)
Definition filter_store : Store.heap :=
  [Store.Arr [Store.VString (js "03. Databases")];
   Store.Obj [(js "name", Store.VString (js "ACM SIGMOD Conference"));
              (js "short_name", Store.VString (js "SIGMOD"));
              (js "rank", Store.VString (js "A*"));
              (js "themes", Store.VRef 0);
              (js "flagship", Store.VBool true)];
   Store.Obj [(js "name", Store.VString (js "abc"));
              (js "short_name", Store.VString (js "x"));
              (js "theme", Store.VString (js "T"))];
   Store.Arr [Store.VRef 1; Store.VRef 2]].

(** * Properties *)

(** ** Strings *)

Lemma startsWith_prefix (p s : jsstring) :
  startsWith s p = true <-> exists post, s = p ++ post.
Proof.
  revert s; induction p as [|a p IH]; intros s; simpl.
  - split; [intros _; exists s; reflexivity | reflexivity].
  - destruct s as [|b s]; simpl.
    + split; [discriminate | intros [post H]; discriminate].
    + rewrite andb_true_iff, N.eqb_eq, IH. split.
      * intros [-> [post ->]]. exists post. reflexivity.
      * intros [post H]. injection H as -> ->. eauto.
Qed.

Lemma includes_substring (t s : jsstring) :
  includes t s = true <-> substring s t.
Proof.
  unfold substring. induction t as [|c t IH]; simpl.
  - rewrite orb_false_r, startsWith_prefix. split.
    + intros [post H]. exists [], post. exact H.
    + intros (pre & post & H). destruct pre as [|x pre]; [|discriminate].
      exists post. exact H.
  - rewrite orb_true_iff, startsWith_prefix, IH. split.
    + intros [[post H] | (pre & post & H)].
      * exists [], post. exact H.
      * exists (c :: pre), post. simpl. rewrite H. reflexivity.
    + intros (pre & post & H). destruct pre as [|x pre]; simpl in H.
      * left. exists post. exact H.
      * right. injection H as -> ->. eauto.
Qed.

Lemma or_empty_Some (s : jsstring) : or_empty (Some s) = s.
Proof. destruct s; reflexivity. Qed.

Lemma truthy_string_nonempty (s : jsstring) :
  truthy_string s = true <-> s <> [].
Proof. destruct s; simpl; split; congruence. Qed.

(** ** Filter *)

Section FilterProperties.

Variable toLowerCase : jsstring -> jsstring.

Lemma has_Some_existsb (s : gset jsstring) (ts : list jsstring) :
  existsb (has s) (map Some ts) = true <-> exists t, In t ts /\ t ∈ s.
Proof.
  rewrite existsb_exists. split.
  - intros (x & Hx & Hs). apply in_map_iff in Hx as (t & <- & Ht).
    simpl in Hs. apply bool_decide_eq_true in Hs. eauto.
  - intros (t & Ht & Hs). exists (Some t). split.
    + apply in_map. exact Ht.
    + simpl. apply bool_decide_eq_true. exact Hs.
Qed.

Lemma hasMatchingTheme_selected (fs : FilterState) (conf : ConferenceRecord) :
  existsb (fun theme => has (fs_themes fs) theme) (confThemes conf) = true
  <-> theme_selected fs conf.
Proof.
  unfold theme_selected, confThemes, effective_themes.
  destruct (themes conf) as [ts|].
  - apply has_Some_existsb.
  - destruct (theme conf) as [t|]; simpl.
    + rewrite orb_false_r, bool_decide_eq_true. split.
      * intros H. exists t. split; [left; reflexivity | exact H].
      * intros (t' & [<- | []] & H). exact H.
    + split; [discriminate | intros (t' & [] & _)].
Qed.

(** When a theme of the record is selected, the themes the callback
    searches are the effective themes. *)
Lemma confThemes_effective (fs : FilterState) (conf : ConferenceRecord) :
  theme_selected fs conf ->
  confThemes conf = map Some (effective_themes conf).
Proof.
  unfold theme_selected, confThemes, effective_themes.
  destruct (themes conf) as [ts|]; [reflexivity|].
  destruct (theme conf) as [t|]; [reflexivity|].
  intros (t' & [] & _).
Qed.

Lemma themeMatch_effective (search : jsstring) (ts : list jsstring) :
  existsb (fun theme => includes (toLowerCase (or_empty theme)) search)
          (map Some ts) = true
  <-> exists t, In t ts /\ substring search (toLowerCase t).
Proof.
  rewrite existsb_exists. split.
  - intros (x & Hx & Hs). apply in_map_iff in Hx as (t & <- & Ht).
    rewrite or_empty_Some in Hs. apply includes_substring in Hs. eauto.
  - intros (t & Ht & Hs). exists (Some t). split.
    + apply in_map. exact Ht.
    + rewrite or_empty_Some. apply includes_substring. exact Hs.
Qed.

(** The callback keeps a record exactly when the specification includes
    it, as soon as some theme is selected and the stored search string
    is in lower case. *)
Lemma filter_callback_included (this : ConferenceCalendar)
    (conf : ConferenceRecord) :
  fs_themes (currentFilters this) <> ∅ ->
  toLowerCase (fs_search (currentFilters this))
    = fs_search (currentFilters this) ->
  filter_callback toLowerCase this conf = true
  <-> included toLowerCase (currentFilters this) conf.
Proof.
  intros Hne Hlow. unfold filter_callback, included.
  set (fs := currentFilters this) in *.
  destruct (size (fs_themes fs) =? 0)%nat eqn:Hsize.
  { apply Nat.eqb_eq, size_empty_iff in Hsize.
    apply leibniz_equiv in Hsize. contradiction. }
  destruct (existsb _ (confThemes conf)) eqn:Hsel; simpl.
  2:{ split; [discriminate|]. intros [Hs _].
      apply hasMatchingTheme_selected in Hs. congruence. }
  apply hasMatchingTheme_selected in Hsel.
  rewrite (confThemes_effective fs conf Hsel).
  destruct (truthy_string (fs_search fs)) eqn:Htr.
  2:{ split; [|reflexivity]. intros _. split; [exact Hsel|].
      intros Hs. apply truthy_string_nonempty in Hs. congruence. }
  assert (Hm :
    (includes (toLowerCase (or_empty (name conf))) (fs_search fs)
     || includes (toLowerCase (or_empty (short_name conf))) (fs_search fs)
     || existsb (fun theme =>
                   includes (toLowerCase (or_empty theme)) (fs_search fs))
                (map Some (effective_themes conf))) = true
    <-> search_matches toLowerCase fs conf).
  { unfold search_matches, ci_substring. rewrite Hlow.
    rewrite !orb_true_iff, !includes_substring, themeMatch_effective.
    tauto. }
  destruct (includes (toLowerCase (or_empty (name conf))) (fs_search fs));
    destruct (includes (toLowerCase (or_empty (short_name conf)))
                       (fs_search fs));
    destruct (existsb _ (map Some (effective_themes conf)));
    simpl in *; split; intros H; try reflexivity; try discriminate;
    try (split; [exact Hsel | intros _; apply Hm; reflexivity]).
  destruct H as [_ H]. apply Hm, H.
  apply truthy_string_nonempty. exact Htr.
Qed.

End FilterProperties.

(** C1. When no theme is selected, [applyFilters] leaves no conference in
    the filtered list, whatever the conferences and the search string. *)
Theorem applyFilters_no_theme_selected
    (toLowerCase : jsstring -> jsstring) (this : ConferenceCalendar) :
  fs_themes (currentFilters this) = ∅ ->
  filteredConferences (applyFilters toLowerCase this) = [].
Proof.
  intros Hempty. unfold applyFilters; simpl.
  induction (conferences this) as [|conf confs IH]; simpl; [reflexivity|].
  unfold filter_callback at 1. rewrite Hempty, size_empty. simpl. exact IH.
Qed.

Lemma applyFilters_no_theme_selected_witness :
  filteredConferences
    (applyFilters ascii_toLowerCase
       (calendar_with [conf_sigmod; conf_abc] [] (js "sig"))) = [].
Proof.
  apply (applyFilters_no_theme_selected ascii_toLowerCase
           (calendar_with [conf_sigmod; conf_abc] [] (js "sig"))).
  reflexivity.
Defined.

(** C2, as the code has it.  When some theme is selected and the stored
    search string is in lower case (the search box stores it so), the
    filtered list is the subsequence, in the original order, of the
    records a theme of which is selected and, for a non-empty search
    string, the name, short name or a theme of which contains the search
    string when case is ignored. *)
Theorem applyFilters_as_specified
    (toLowerCase : jsstring -> jsstring) (this : ConferenceCalendar) :
  fs_themes (currentFilters this) <> ∅ ->
  toLowerCase (fs_search (currentFilters this))
    = fs_search (currentFilters this) ->
  filters_as_specified toLowerCase this.
Proof.
  intros Hne Hlow. exists (filter_callback toLowerCase this). split.
  - intros conf. apply filter_callback_included; assumption.
  - reflexivity.
Qed.

Lemma applyFilters_as_specified_witness :
  filters_as_specified ascii_toLowerCase
    (calendar_with [conf_sigmod; conf_abc] [js "03. Databases"] (js "sig")).
Proof.
  apply (applyFilters_as_specified ascii_toLowerCase
           (calendar_with [conf_sigmod; conf_abc] [js "03. Databases"]
                          (js "sig"))).
  - intros H.
    assert (Hin : js "03. Databases"
                  ∈ fs_themes (currentFilters
                      (calendar_with [conf_sigmod; conf_abc]
                                     [js "03. Databases"] (js "sig")))).
    { apply (bool_decide_unpack _). vm_compute. exact I. }
    rewrite H in Hin. exact (not_elem_of_empty _ Hin).
  - reflexivity.
Defined.

(** C2, as stated, fails: with the search string "ABC" stored as typed,
    the record named "abc" is left out although "ABC" occurs in "abc"
    when case is ignored.  [applyFilters] compares the lower-cased fields
    with the stored string as it is. *)
Lemma applyFilters_upper_case_search :
  fs_themes (currentFilters (calendar_with [conf_abc] [js "T"] (js "ABC")))
    <> ∅ /\
  included ascii_toLowerCase
    (currentFilters (calendar_with [conf_abc] [js "T"] (js "ABC"))) conf_abc /\
  filteredConferences
    (applyFilters ascii_toLowerCase
       (calendar_with [conf_abc] [js "T"] (js "ABC"))) = [] /\
  ~ filters_as_specified ascii_toLowerCase
      (calendar_with [conf_abc] [js "T"] (js "ABC")).
Proof.
  assert (Hin : js "T" ∈ fs_themes (currentFilters
                  (calendar_with [conf_abc] [js "T"] (js "ABC")))).
  { apply (bool_decide_unpack _). vm_compute. exact I. }
  assert (Hinc : included ascii_toLowerCase
                   (currentFilters
                      (calendar_with [conf_abc] [js "T"] (js "ABC")))
                   conf_abc).
  { split.
    - exists (js "T"). split; [left; reflexivity | exact Hin].
    - intros _. left. exists [], []. reflexivity. }
  assert (Hout : filteredConferences
                   (applyFilters ascii_toLowerCase
                      (calendar_with [conf_abc] [js "T"] (js "ABC"))) = []).
  { vm_compute. reflexivity. }
  split; [|split; [exact Hinc | split; [exact Hout|]]].
  - intros H. rewrite H in Hin. exact (not_elem_of_empty _ Hin).
  - intros (keep & Hkeep & Heq). rewrite Hout in Heq. simpl in Heq.
    apply Hkeep in Hinc. rewrite Hinc in Heq. discriminate.
Qed.

(** ** Theme prefix *)

Lemma match_plus_Some_starts (p : N -> bool) (c : N) (s : jsstring) :
  p c = true -> match_plus p (c :: s) Some <> None.
Proof.
  intros Hc. simpl. rewrite Hc. destruct (match_plus p s Some); discriminate.
Qed.

(** The last [X+] of a pattern takes the whole run of [X]. *)
Lemma match_plus_last (p : N -> bool) (s r : jsstring) :
  match_plus p s Some = Some r <->
  exists xs, s = xs ++ r /\ xs <> [] /\ Forall (fun c => p c = true) xs /\
             (forall c r', r = c :: r' -> p c = false).
Proof.
  revert r. induction s as [|c s IH]; intros r; simpl.
  - split; [discriminate|]. intros (xs & H & Hne & _).
    destruct xs; [congruence | discriminate].
  - destruct (p c) eqn:Hc.
    + destruct (match_plus p s Some) as [r0|] eqn:Hm.
      * split.
        -- intros [= <-]. destruct (proj1 (IH r0) eq_refl) as (xs & -> & _ & Hxs & Hr).
           exists (c :: xs). repeat split; auto; discriminate.
        -- intros (xs & Hs & Hne & Hxs & Hr).
           destruct xs as [|x xs]; [congruence|]. injection Hs as <- ->.
           destruct xs as [|x' xs].
           ++ simpl in Hm. destruct r as [|c' r'].
              ** simpl in Hm. discriminate.
              ** specialize (Hr c' r' eq_refl).
                 simpl in Hm. rewrite Hr in Hm. discriminate.
           ++ apply IH.
              exists (x' :: xs). inversion Hxs; subst.
              repeat split; auto; discriminate.
      * split.
        -- intros [= <-]. exists [c]. repeat split; auto; try discriminate.
           intros c' r' ->. destruct (p c') eqn:Hc'; [|reflexivity].
              exfalso. exact (match_plus_Some_starts p c' r' Hc' Hm).
        -- intros (xs & Hs & Hne & Hxs & Hr).
           destruct xs as [|x xs]; [congruence|]. injection Hs as <- ->.
           destruct xs as [|x' xs]; [reflexivity|]. exfalso.
           inversion Hxs as [|? ? _ Hxs']; subst. inversion Hxs'; subst.
           exact (match_plus_Some_starts p x' (xs ++ r) ltac:(assumption) Hm).
    + split; [discriminate|]. intros (xs & Hs & Hne & Hxs & _).
      destruct xs as [|x xs]; [congruence|]. injection Hs as <- ->.
      inversion Hxs; subst. congruence.
Qed.

Lemma digit_not_dot_or_space (c : N) :
  is_digit c = true -> is_dot_or_space c = false.
Proof.
  unfold is_digit, is_dot_or_space, is_space. intros H.
  apply andb_true_iff in H as [H1 H2].
  apply N.leb_le in H1. apply N.leb_le in H2.
  repeat match goal with
         | |- context [(?a =? c)%N] =>
             destruct (N.eqb_spec a c); [lia|]
         | |- context [(c =? ?a)%N] =>
             destruct (N.eqb_spec c a); [lia|]
         | |- context [(?a <=? c)%N] =>
             destruct (N.leb_spec a c)
         | |- context [(c <=? ?a)%N] =>
             destruct (N.leb_spec c a)
         end; simpl; try reflexivity; lia.
Qed.

(** [\d+] followed by a pattern that cannot start with a digit takes the
    whole run of digits. *)
Lemma match_plus_digits (s : jsstring) (k : jsstring -> option jsstring)
    (r : jsstring) :
  (forall c s', is_digit c = true -> k (c :: s') = None) ->
  k [] = None ->
  match_plus is_digit s k = Some r <->
  exists ds s', s = ds ++ s' /\ ds <> [] /\
                Forall (fun c => is_digit c = true) ds /\
                (forall c r', s' = c :: r' -> is_digit c = false) /\
                k s' = Some r.
Proof.
  intros Hk Hnil. induction s as [|c s IH]; simpl.
  - split; [discriminate|]. intros (ds & s' & H & Hne & _).
    destruct ds; [congruence | discriminate].
  - destruct (is_digit c) eqn:Hc.
    + destruct (match_plus is_digit s k) as [r0|] eqn:Hm.
      * split.
        -- intros [= <-]. destruct (proj1 IH eq_refl)
             as (ds & s' & -> & _ & Hds & Hs' & Hks').
           exists (c :: ds), s'. repeat split; auto; discriminate.
        -- intros (ds & s' & Hs & Hne & Hds & Hs' & Hks').
           destruct ds as [|x ds]; [congruence|]. injection Hs as <- ->.
           destruct ds as [|x' ds].
           ++ simpl in Hm. destruct s' as [|c' r'].
              ** congruence.
              ** specialize (Hs' c' r' eq_refl). simpl in Hm.
                 rewrite Hs' in Hm. discriminate.
           ++ apply IH. exists (x' :: ds), s'. inversion Hds; subst.
              repeat split; auto; discriminate.
      * split.
        -- intros Hks. exists [c], s. repeat split; auto; try discriminate.
           intros c' r' ->. destruct (is_digit c') eqn:Hc'; [|reflexivity].
              rewrite (Hk c' r' Hc') in Hks. discriminate.
        -- intros (ds & s' & Hs & Hne & Hds & Hs' & Hks').
           destruct ds as [|x ds]; [congruence|]. injection Hs as <- ->.
           destruct ds as [|x' ds]; [exact Hks'|]. exfalso.
           assert (None = Some r); [|discriminate]. apply IH.
           exists (x' :: ds), s'. inversion Hds; subst.
           repeat split; auto; discriminate.
    + split; [discriminate|]. intros (ds & s' & Hs & Hne & Hds & _).
      destruct ds as [|x ds]; [congruence|]. injection Hs as <- ->.
      inversion Hds; subst. congruence.
Qed.

(** The regular expression matches exactly the strings with a number
    prefix, and what is left after the match is the remainder. *)
Lemma match_number_prefix_spec (theme rest : jsstring) :
  match_number_prefix theme = Some rest <->
  exists digits seps, number_prefix theme digits seps rest.
Proof.
  unfold match_number_prefix, number_prefix.
  rewrite match_plus_digits.
  - split.
    + intros (ds & s' & -> & Hne & Hds & _ & Hk).
      apply match_plus_last in Hk as (seps & -> & Hsne & Hseps & Hrest).
      exists ds, seps. repeat split; auto.
    + intros (ds & seps & -> & Hne & Hds & Hsne & Hseps & Hrest).
      exists ds, (seps ++ rest). repeat split; auto.
      * intros c r' Heq. destruct seps as [|x seps]; [congruence|].
        injection Heq as <- _. inversion Hseps; subst.
        destruct (is_digit x) eqn:Hx; [|reflexivity].
        apply digit_not_dot_or_space in Hx. congruence.
      * apply match_plus_last. exists seps. repeat split; auto.
  - intros c s' Hc. simpl. rewrite (digit_not_dot_or_space c Hc). reflexivity.
  - reflexivity.
Qed.

Lemma trimStart_id (s : jsstring) :
  (forall c r, s = c :: r -> is_space c = false) -> trimStart s = s.
Proof.
  destruct s as [|c s]; [reflexivity|]. intros H. simpl.
  rewrite (H c s eq_refl). reflexivity.
Qed.

Lemma trim_trimmed (s : jsstring) : trimmed s -> trim s = s.
Proof.
  intros [Hstart Hend]. unfold trim, trimEnd.
  rewrite (trimStart_id s Hstart).
  rewrite trimStart_id; [apply rev_involutive|].
  intros c r Hrev. apply (Hend c (rev r)).
  rewrite <- (rev_involutive s), Hrev. reflexivity.
Qed.

(** C7, as the code has it.  For a theme with a number prefix (digits,
    then dots and spaces) [stripThemePrefix] gives the remainder with the
    white space at its ends removed; for a theme without one it gives the
    theme with the white space at its ends removed, which is the theme
    itself when it has none there.  "01. Systems" gives "Systems". *)
Theorem stripThemePrefix_trims_remainder :
  (forall theme : jsstring,
      (forall digits seps rest,
          number_prefix theme digits seps rest ->
          stripThemePrefix theme = trim rest) /\
      (~ has_number_prefix theme -> stripThemePrefix theme = trim theme) /\
      (~ has_number_prefix theme -> trimmed theme ->
       stripThemePrefix theme = theme)) /\
  stripThemePrefix (js "01. Systems") = js "Systems".
Proof.
  split; [|reflexivity]. intros theme.
  assert (Hno : ~ has_number_prefix theme ->
                stripThemePrefix theme = trim theme).
  { intros Hn. unfold stripThemePrefix.
    destruct theme as [|c theme]; [reflexivity|]. simpl negb. cbv iota.
    unfold replace_number_prefix.
    destruct (match_number_prefix (c :: theme)) as [rest|] eqn:Hm;
      [|reflexivity].
    exfalso. apply Hn. apply match_number_prefix_spec in Hm as (ds & seps & H).
    exists ds, seps, rest. exact H. }
  split; [|split; [exact Hno|]].
  - intros digits seps rest H. unfold stripThemePrefix.
    assert (Hm : match_number_prefix theme = Some rest).
    { apply match_number_prefix_spec. eauto. }
    destruct H as (-> & Hne & _).
    destruct digits as [|d digits]; [congruence|]. simpl negb. cbv iota.
    unfold replace_number_prefix. rewrite Hm. reflexivity.
  - intros Hn Ht. rewrite (Hno Hn). apply trim_trimmed. exact Ht.
Qed.

Lemma stripThemePrefix_trims_remainder_witness :
  stripThemePrefix (js "19  AI ") = trim (js "AI ").
Proof.
  apply (proj1 (proj1 stripThemePrefix_trims_remainder (js "19  AI "))
           (js "19") (js "  ") (js "AI ")).
  repeat split; try discriminate.
  - repeat constructor.
  - repeat constructor.
  - intros c r [= <- _]. reflexivity.
Defined.

(** C7, as stated, fails: "AI " has no number prefix and is not returned
    unchanged, and the remainder "AI " of "01. AI " is not what is
    returned either; [trim] removes the space at the end. *)
Lemma stripThemePrefix_not_identity :
  (~ has_number_prefix (js "AI ") /\
   stripThemePrefix (js "AI ") <> js "AI ") /\
  (number_prefix (js "01. AI ") (js "01") (js ". ") (js "AI ") /\
   stripThemePrefix (js "01. AI ") <> js "AI ").
Proof.
  split; split.
  - intros (ds & seps & rest & H & Hne & Hds & _).
    destruct ds as [|d ds]; [congruence|]. injection H as <- _.
    inversion Hds; subst. discriminate.
  - discriminate.
  - repeat split; try discriminate.
    + repeat constructor.
    + repeat constructor.
    + intros c r [= <- _]. reflexivity.
  - discriminate.
Qed.

(** ** Month window *)

Lemma fiscalYearStart_fiscal_year (y m d : Z) :
  fiscalYearStart (LocalDate y m d) = Int (fiscal_year y m).
Proof.
  unfold fiscalYearStart, fiscal_year; simpl.
  destruct (Z.leb_spec 3 m), (Z.ltb_spec m 3); try lia; reflexivity.
Qed.

(** From year 100 on the constructor takes the year as it is written. *)
Lemma Date_ymd_first_of_month (y m : Z) :
  99 < y -> Date_ymd (Int y) (Int m) (Int 1) = LocalDate (y + m / 12) (m mod 12) 1.
Proof.
  intros Hy. unfold Date_ymd.
  destruct (Z.leb_spec 0 y), (Z.leb_spec y 99); try lia; reflexivity.
Qed.

Lemma Date_ymd_end_of_march (y : Z) :
  99 < y -> Date_ymd (Int y) (Int 2) (Int 31) = LocalDate y 2 31.
Proof.
  intros Hy. unfold Date_ymd.
  destruct (Z.leb_spec 0 y), (Z.leb_spec y 99); try lia.
  all: change (2 / 12) with 0; change (2 mod 12) with 2;
    rewrite Z.add_0_r; reflexivity.
Qed.

Lemma slot_ym_month_slot (fy i : Z) :
  99 < fy ->
  slot_ym (month_slot (LocalDate fy 3 1) i)
  = (Int (fy + (3 + i) / 12), Int ((3 + i) mod 12 + 1)).
Proof.
  intros Hy. unfold slot_ym, month_slot.
  cbn [getFullYear getMonth year month num_add].
  rewrite (Date_ymd_first_of_month fy (3 + i) Hy). reflexivity.
Qed.

Lemma push_months_acc (n : nat) (i : Z) (startDate : Date)
    (acc : list MonthSlot) :
  push_months n i startDate acc = acc ++ push_months n i startDate [].
Proof.
  revert i acc. induction n as [|n IH]; intros i acc; simpl.
  - symmetry. apply app_nil_r.
  - rewrite (IH (i + 1) (acc ++ _)), (IH (i + 1) [_]), <- app_assoc.
    reflexivity.
Qed.

Lemma push_months_map (n : nat) (i : Z) (startDate : Date) :
  push_months n i startDate []
  = map (fun k => month_slot startDate (i + Z.of_nat k)) (seq 0 n).
Proof.
  revert i. induction n as [|n IH]; intros i; [reflexivity|].
  simpl push_months. rewrite push_months_acc, IH. simpl seq. simpl map.
  rewrite Z.add_0_r. f_equal. rewrite <- seq_shift, map_map.
  apply map_ext. intros k. f_equal. lia.
Qed.

(** The [k]-th month from month [m] (1 to 12) of year [y] on. *)
Lemma month_run_nth (n : nat) (y m : Z) :
  1 <= m <= 12 ->
  month_run n (y, m)
  = map (fun k => (y + (m - 1 + Z.of_nat k) / 12,
                   (m - 1 + Z.of_nat k) mod 12 + 1)) (seq 0 n).
Proof.
  revert y m. induction n as [|n IH]; intros y m Hm; [reflexivity|].
  simpl month_run. simpl seq. simpl map. f_equal.
  - change (Z.of_nat 0) with 0. rewrite Z.add_0_r.
    rewrite Z.div_small, Z.mod_small by lia. f_equal; lia.
  - rewrite <- seq_shift, map_map. unfold next_month.
    destruct (Z.eqb_spec m 12) as [-> | Hne].
    + rewrite IH by lia. apply map_ext. intros k.
      rewrite Nat2Z.inj_succ.
      replace (12 - 1 + Z.succ (Z.of_nat k)) with (Z.of_nat k + 1 * 12) by lia.
      rewrite Z.div_add, Z.mod_add by lia.
      replace (1 - 1 + Z.of_nat k) with (Z.of_nat k) by lia.
      f_equal. lia.
    + rewrite IH by lia. apply map_ext. intros k.
      rewrite Nat2Z.inj_succ.
      replace (m + 1 - 1 + Z.of_nat k) with (m - 1 + Z.succ (Z.of_nat k))
        by lia.
      reflexivity.
Qed.

(** The months the loop pushes, from a fiscal year on which the [Date]
    constructor does not reinterpret. *)
Lemma push_months_window (fy : Z) (n : nat) :
  99 < fy ->
  map slot_ym (push_months n 0 (LocalDate fy 3 1) [])
  = map ym_numbers (month_run n (fy, 4)).
Proof.
  intros Hy. rewrite push_months_map, month_run_nth, !map_map by lia.
  apply map_ext. intros k. rewrite (slot_ym_month_slot fy _ Hy).
  unfold ym_numbers. simpl fst. simpl snd.
  replace (3 + (0 + Z.of_nat k)) with (4 - 1 + Z.of_nat k) by lia.
  reflexivity.
Qed.

Lemma month_run_lookup (n k : nat) (y m : Z) :
  1 <= m <= 12 -> (k < n)%nat ->
  map ym_numbers (month_run n (y, m)) !! k
  = Some (Int (y + (m - 1 + Z.of_nat k) / 12),
          Int ((m - 1 + Z.of_nat k) mod 12 + 1)).
Proof.
  intros Hm Hk. rewrite month_run_nth, map_map by lia.
  change (map ?f ?l) with (f <$> l).
  rewrite list_lookup_fmap, lookup_seq_lt by lia. reflexivity.
Qed.

(** What [generateMonths] stores, for a current date whose fiscal year
    starts in the year 100 or later. *)
Lemma generateMonths_months (y m d : Z) (this : ConferenceCalendar) :
  99 < fiscal_year y m ->
  map slot_ym (months (generateMonths (LocalDate y m d) this))
  = map ym_numbers (month_run 24 (fiscal_year y m, 4)).
Proof.
  intros Hfy. unfold generateMonths. cbn [months].
  rewrite fiscalYearStart_fiscal_year.
  set (fy := fiscal_year y m) in *.
  cbn [num_add]. rewrite (Date_ymd_first_of_month fy 3 Hfy).
  rewrite (Date_ymd_end_of_march (fy + 2)) by lia.
  change (3 / 12) with 0. change (3 mod 12) with 3. rewrite Z.add_0_r.
  cbn [getFullYear getMonth num_sub num_mul num_add iterations].
  replace ((fy + 2 - fy) * 12 + (2 - 3) + 1) with 24 by lia.
  change (Z.to_nat 24) with 24%nat.
  apply (push_months_window fy 24 Hfy).
Qed.

Lemma generateMonths_index (y m d : Z) (this : ConferenceCalendar) :
  currentMonthIndex (generateMonths (LocalDate y m d) this)
  = Some (Int ((y - fiscal_year y m) * 12 + (m - 3))).
Proof.
  unfold generateMonths. cbn [currentMonthIndex].
  rewrite fiscalYearStart_fiscal_year. reflexivity.
Qed.

Lemma month_run_NoDup (n : nat) (y m : Z) :
  1 <= m <= 12 -> NoDup (map ym_numbers (month_run n (y, m))).
Proof.
  intros Hm. rewrite month_run_nth, map_map by lia.
  change (map ?f ?l) with (f <$> l).
  apply NoDup_fmap_2_strong; [|apply NoDup_seq].
  intros k1 k2 _ _ [= H1 H2].
  assert (m - 1 + Z.of_nat k1 = m - 1 + Z.of_nat k2); [|lia].
  rewrite (Z.div_mod (m - 1 + Z.of_nat k1) 12),
          (Z.div_mod (m - 1 + Z.of_nat k2) 12) by lia.
  lia.
Qed.




(** ** Deadline buckets *)

Section BucketProperties.

Variable Date_parse : jsstring -> Date.

Lemma in_month_fields (y m d : Z) (slot : MonthSlot) :
  in_month (LocalDate y m d) slot = true
  <-> year slot = Int y /\ month slot = Int (m + 1).
Proof.
  unfold in_month; simpl.
  destruct (year slot) as [|ys], (month slot) as [|ms]; simpl;
    rewrite ?andb_false_r;
    try (split; [discriminate | intros [? ?]; discriminate]).
  rewrite andb_true_iff, !Z.eqb_eq. split.
  - intros [-> ->]. split; reflexivity.
  - intros [[= ->] [= ->]]. split; reflexivity.
Qed.

Lemma in_month_invalid (slot : MonthSlot) : in_month InvalidDate slot = false.
Proof. reflexivity. Qed.

Lemma date_in_month_slot (o : option jsstring) (slot : MonthSlot) :
  truthy_opt o && in_month (Date_of Date_parse o) slot = true
  <-> exists s, o = Some s /\ date_in_slot Date_parse s slot.
Proof.
  unfold date_in_slot. destruct o as [s|]; simpl.
  - rewrite andb_true_iff, truthy_string_nonempty. split.
    + intros [Hs Hin]. exists s. split; [reflexivity|]. split; [exact Hs|].
      destruct (Date_parse s) as [|y m d]; [discriminate|].
      exists y, m, d. split; [reflexivity|].
      exact (proj1 (in_month_fields y m d slot) Hin).
    + intros (s' & [= <-] & Hs & y & m & d & Hp & Hy & Hm).
      split; [exact Hs|]. rewrite Hp.
      apply (proj2 (in_month_fields y m d slot)). auto.
  - split; [discriminate | intros (s & [=] & _)].
Qed.

Lemma deadline_in_month_slot (slot : MonthSlot) (deadline : DeadlineRecord) :
  deadline_in_month Date_parse slot deadline = true <-> deadline_in_slot Date_parse deadline slot.
Proof. apply date_in_month_slot. Qed.

Lemma start_in_month_slot (slot : MonthSlot) (yearInfo : YearInfo) :
  start_in_month Date_parse slot yearInfo = true <-> start_in_slot Date_parse yearInfo slot.
Proof.
  unfold start_in_month, start_in_slot.
  destruct (conference_dates yearInfo) as [cd|].
  - rewrite date_in_month_slot. split.
    + intros (s & Hs & H). exists cd, s. auto.
    + intros (cd' & s & [= <-] & Hs & H). exists s. auto.
  - split; [discriminate | intros (cd & s & [=] & _)].
Qed.

Lemma visit_deadlines (conference : ConferenceRecord) (slot : MonthSlot)
    (confYear : jsstring) (ds : list DeadlineRecord) (acc : list Entry) :
  fold_left (visit_deadline Date_parse conference slot confYear) ds acc
  = acc ++ map (deadline_entry conference confYear)
               (List.filter (deadline_in_month Date_parse slot) ds).
Proof.
  revert acc. induction ds as [|d ds IH]; intros acc; simpl.
  - symmetry. apply app_nil_r.
  - rewrite IH. unfold visit_deadline, deadline_in_month.
    destruct (truthy_opt (dl_date d)); simpl; [|reflexivity].
    destruct (in_month _ slot); simpl; [|reflexivity].
    rewrite <- app_assoc. reflexivity.
Qed.

Lemma visit_year_entries (conference : ConferenceRecord) (slot : MonthSlot)
    (confYear : jsstring) (yearInfo : YearInfo) (acc : list Entry) :
  visit_year Date_parse conference slot acc (confYear, yearInfo)
  = acc ++ year_entries Date_parse conference slot confYear yearInfo.
Proof.
  unfold visit_year, year_entries, start_in_month.
  assert (Hd : match deadlines yearInfo with
               | Some ds =>
                   fold_left (visit_deadline Date_parse conference slot
                                             confYear) ds acc
               | None => acc
               end
               = acc ++ map (deadline_entry conference confYear)
                            (List.filter (deadline_in_month Date_parse slot)
                                         (default [] (deadlines yearInfo)))).
  { destruct (deadlines yearInfo) as [ds|]; simpl.
    - apply visit_deadlines.
    - symmetry. apply app_nil_r. }
  rewrite Hd. destruct (conference_dates yearInfo) as [cd|].
  - destruct (truthy_opt (cd_start cd)); simpl.
    + destruct (in_month _ slot);
        [rewrite <- app_assoc | rewrite app_nil_r]; reflexivity.
    + rewrite app_nil_r. reflexivity.
  - rewrite app_nil_r. reflexivity.
Qed.

(** The bucket of a month is the concatenation, over the year labels in
    their order, of what each contributes. *)
Lemma getDeadlinesInMonth_entries (conference : ConferenceRecord)
    (slot : MonthSlot) :
  getDeadlinesInMonth Date_parse conference slot
  = flat_map (fun kv => year_entries Date_parse conference slot kv.1 kv.2)
             (default [] (information conference)).
Proof.
  unfold getDeadlinesInMonth.
  destruct (information conference) as [info|]; [|reflexivity]. simpl.
  rewrite <- (app_nil_l (flat_map _ info)). generalize (@nil Entry).
  induction info as [|[y yi] info IH]; intros acc;
    cbn [fold_left flat_map fst snd].
  - symmetry. apply app_nil_r.
  - rewrite IH, visit_year_entries, <- app_assoc. reflexivity.
Qed.

End BucketProperties.



(** *** The synthetic conference entry *)

Section ConferenceEntry.

Variable Date_parse : jsstring -> Date.

(** A year label whose conference starts in the month of the slot gives
    its deadline entries and then exactly one conference entry; any other
    year label gives its deadline entries only. *)
Lemma year_entries_conference (conference : ConferenceRecord)
    (slot : MonthSlot) (confYear : jsstring) (yearInfo : YearInfo) :
  (start_in_slot Date_parse yearInfo slot ->
   exists cd,
     conference_dates yearInfo = Some cd /\
     year_entries Date_parse conference slot confYear yearInfo
     = map (deadline_entry conference confYear)
           (List.filter (deadline_in_month Date_parse slot)
                        (default [] (deadlines yearInfo)))
       ++ [conference_entry conference confYear yearInfo cd]) /\
  (~ start_in_slot Date_parse yearInfo slot ->
   year_entries Date_parse conference slot confYear yearInfo
   = map (deadline_entry conference confYear)
         (List.filter (deadline_in_month Date_parse slot)
                      (default [] (deadlines yearInfo)))).
Proof.
  unfold year_entries. split.
  - intros Hin. pose proof Hin as (cd & s & Hcd & _).
    apply start_in_month_slot in Hin. rewrite Hcd, Hin. eauto.
  - intros Hout. destruct (conference_dates yearInfo) as [cd|];
      [|apply app_nil_r].
    destruct (start_in_month Date_parse slot yearInfo) eqn:Hin;
      [|apply app_nil_r].
    apply start_in_month_slot in Hin. contradiction.
Qed.

(** What a year label contributes is part of the bucket. *)
Lemma year_entries_in_bucket (conference : ConferenceRecord)
    (slot : MonthSlot) (confYear : jsstring) (yearInfo : YearInfo)
    (info : list (jsstring * YearInfo)) (e : Entry) :
  information conference = Some info ->
  In (confYear, yearInfo) info ->
  In e (year_entries Date_parse conference slot confYear yearInfo) ->
  In e (getDeadlinesInMonth Date_parse conference slot).
Proof.
  intros Hinfo Hin He. rewrite getDeadlinesInMonth_entries, Hinfo.
  apply in_flat_map. exists (confYear, yearInfo). split; assumption.
Qed.

End ConferenceEntry.

(** The text of a marker: start and end for a conference entry that has
    an end date, the single date otherwise. *)
Lemma createDeadlineMarker_text (Date_parse : jsstring -> Date)
    (deadline : Entry) :
  textContent (createDeadlineMarker Date_parse deadline).1
  = if is_conference (e_type deadline) && truthy_opt (e_endDate deadline)
    then
      num_toString (num_add (getMonth (Date_of Date_parse (e_date deadline)))
                            (Int 1))
      ++ js "/" ++ num_toString (getDate (Date_of Date_parse (e_date deadline)))
      ++ js "-"
      ++ num_toString
           (num_add (getMonth (Date_of Date_parse (e_endDate deadline)))
                    (Int 1))
      ++ js "/"
      ++ num_toString (getDate (Date_of Date_parse (e_endDate deadline)))
    else
      num_toString (num_add (getMonth (Date_of Date_parse (e_date deadline)))
                            (Int 1))
      ++ js "/" ++ num_toString (getDate (Date_of Date_parse (e_date deadline))).
Proof.
  unfold createDeadlineMarker, month_slash_day. cbn [fst textContent].
  destruct (is_conference (e_type deadline) && truthy_opt (e_endDate deadline));
    [|reflexivity].
  rewrite <- !app_assoc. reflexivity.
Qed.

(** Where local time is at or ahead of UTC, the range 2026-06-01 to
    2026-06-05 gives one conference entry, in the slot of June 2026 and in
    no other, and its marker reads "6/1-6/5". *)
Lemma conference_range_ahead_of_UTC (slot : MonthSlot) :
  getDeadlinesInMonth (Date_parse_iso false) ice_2026_june slot
  = (if decide (slot_ym slot = (Int 2026, Int 6))
     then [conference_entry ice_2026_june (js "2026")
             (dates_only (js "2026-06-01") (js "2026-06-05") Undefined)
             {| cd_start := Some (js "2026-06-01");
                cd_end := Some (js "2026-06-05") |}]
     else []) /\
  textContent
    (createDeadlineMarker (Date_parse_iso false)
       (conference_entry ice_2026_june (js "2026")
          (dates_only (js "2026-06-01") (js "2026-06-05") Undefined)
          {| cd_start := Some (js "2026-06-01");
             cd_end := Some (js "2026-06-05") |})).1
  = js "6/1-6/5".
Proof.
  split; [|reflexivity].
  rewrite getDeadlinesInMonth_entries.
  cbn [information ice_2026_june conference_with default from_option id
       flat_map fst snd].
  unfold year_entries, start_in_month.
  cbn [deadlines conference_dates dates_only default from_option id
       List.filter map app cd_start].
  change (Date_of (Date_parse_iso false) (Some (js "2026-06-01")))
    with (LocalDate 2026 5 1).
  change (truthy_opt (Some (js "2026-06-01"))) with true. cbn [andb].
  rewrite app_nil_r.
  destruct (in_month (LocalDate 2026 5 1) slot) eqn:Hin.
  - apply in_month_fields in Hin as [Hy Hm].
    rewrite decide_True; [reflexivity|].
    unfold slot_ym. rewrite Hy, Hm. reflexivity.
  - rewrite decide_False; [reflexivity|]. intros [= Hy Hm].
    rewrite (proj2 (in_month_fields 2026 5 1 slot)) in Hin; [discriminate|].
    split; assumption.
Qed.

(** C5: the code at a failing input.  Where local time is behind UTC,
    [new Date("2026-06-01")] is a time of May 31: the range 2026-06-01 to
    2026-06-05 gives no entry in the slot of June 2026, its conference
    entry is in the slot of May 2026, and the marker reads "5/31-6/4". *)
Theorem conference_range_behind_UTC :
  getDeadlinesInMonth (Date_parse_iso true) ice_2026_june (slot_of 2026 6)
  = [] /\
  getDeadlinesInMonth (Date_parse_iso true) ice_2026_june (slot_of 2026 5)
  = [conference_entry ice_2026_june (js "2026")
       (dates_only (js "2026-06-01") (js "2026-06-05") Undefined)
       {| cd_start := Some (js "2026-06-01");
          cd_end := Some (js "2026-06-05") |}] /\
  textContent
    (createDeadlineMarker (Date_parse_iso true)
       (conference_entry ice_2026_june (js "2026")
          (dates_only (js "2026-06-01") (js "2026-06-05") Undefined)
          {| cd_start := Some (js "2026-06-01");
             cd_end := Some (js "2026-06-05") |})).1
  = js "5/31-6/4".
Proof. repeat split; vm_compute; reflexivity. Qed.

(** *** Dates that cannot be read *)

Lemma digits_of_head (z : Z) :
  exists c r, digits_of z = c :: r /\ c <> 78%N.
Proof.
  unfold digits_of.
  assert (Huint : forall d, d <> Decimal.Nil ->
            exists c r, js (NilEmpty.string_of_uint d) = c :: r /\ c <> 78%N).
  { intros d Hd. destruct d; [congruence| ..]; simpl;
      eexists _, _; (split; [reflexivity | discriminate]). }
  destruct z as [|p|p].
  - exists 48%N, []. split; [reflexivity | discriminate].
  - pose proof (Unsigned.to_uint_nonnil p) as Hp.
    change (Z.to_int (Z.pos p)) with (Decimal.Pos (Pos.to_uint p)).
    unfold NilZero.string_of_int.
    destruct (Pos.to_uint p) eqn:E; try congruence;
      apply Huint; discriminate.
  - pose proof (Unsigned.to_uint_nonnil p) as Hp.
    change (Z.to_int (Z.neg p)) with (Decimal.Neg (Pos.to_uint p)).
    unfold NilZero.string_of_int.
    destruct (Pos.to_uint p) eqn:E; try congruence;
      exists 45%N; eexists; (split; [reflexivity | discriminate]).
Qed.

Section UnusableDates.

Variable Date_parse : jsstring -> Date.

Lemma usable_unusable (deadline : DeadlineRecord) :
  usable Date_parse deadline = false <-> unusable Date_parse deadline.
Proof.
  unfold usable, unusable. destruct (dl_date deadline) as [s|]; simpl.
  - destruct s as [|c s]; simpl.
    + split; auto.
    + destruct (Date_parse (c :: s)) eqn:Hp; split; intros H;
        try discriminate; auto.
      * right. right. eauto.
      * destruct H as [H | [H | (s' & [= <-] & H)]]; congruence.
  - split; auto.
Qed.

Lemma deadline_in_month_usable (slot : MonthSlot) (deadline : DeadlineRecord) :
  deadline_in_month Date_parse slot deadline = true -> usable Date_parse deadline = true.
Proof.
  unfold deadline_in_month, usable.
  destruct (truthy_opt (dl_date deadline)); [|discriminate]. simpl.
  destruct (Date_of Date_parse (dl_date deadline)); [discriminate|reflexivity].
Qed.

Lemma filter_in_month_usable (slot : MonthSlot) (ds : list DeadlineRecord) :
  List.filter (deadline_in_month Date_parse slot) (List.filter (usable Date_parse) ds)
  = List.filter (deadline_in_month Date_parse slot) ds.
Proof.
  induction ds as [|d ds IH]; [reflexivity|]. simpl.
  destruct (usable Date_parse d) eqn:Hu; simpl.
  - rewrite IH. reflexivity.
  - destruct (deadline_in_month Date_parse slot d) eqn:Hin; [|exact IH].
    apply deadline_in_month_usable in Hin. congruence.
Qed.

Lemma year_entries_usable (conference : ConferenceRecord) (slot : MonthSlot)
    (confYear : jsstring) (yearInfo : YearInfo) :
  year_entries Date_parse (without_unusable Date_parse conference) slot confYear
               (usable_deadlines Date_parse yearInfo)
  = year_entries Date_parse conference slot confYear yearInfo.
Proof.
  unfold year_entries, start_in_month, conference_entry, deadline_entry.
  cbn [conference_dates deadlines is_predicted usable_deadlines
       short_name without_unusable].
  destruct (deadlines yearInfo) as [ds|]; [|reflexivity].
  cbn [default from_option id]. rewrite filter_in_month_usable. reflexivity.
Qed.

(** Every entry of a bucket carries a date that was read. *)
Lemma bucket_dates_read (conference : ConferenceRecord) (slot : MonthSlot)
    (e : Entry) :
  In e (getDeadlinesInMonth Date_parse conference slot) ->
  exists s y m d, e_date e = Some s /\ s <> [] /\
                  Date_parse s = LocalDate y m d.
Proof.
  rewrite getDeadlinesInMonth_entries. intros He.
  apply in_flat_map in He as ([confYear yearInfo] & _ & He).
  unfold year_entries in He. cbn [fst snd] in He.
  apply in_app_or in He as [He | He].
  - apply in_map_iff in He as (dl & <- & Hdl).
    apply filter_In in Hdl as [_ Hdl].
    apply deadline_in_month_slot in Hdl
      as (s & Hs & Hne & y & m & d & Hp & _).
    exists s, y, m, d. auto.
  - destruct (conference_dates yearInfo) as [cd|] eqn:Hcd; [|destruct He].
    destruct (start_in_month Date_parse slot yearInfo) eqn:Hin;
      [|destruct He].
    destruct He as [<- | []].
    apply start_in_month_slot in Hin
      as (cd' & s & Hcd' & Hs & Hne & y & m & d & Hp & _).
    rewrite Hcd in Hcd'. injection Hcd' as <-.
    exists s, y, m, d. auto.
Qed.

(** No marker made from an entry whose date was read gives a warning. *)
Lemma createDeadlineMarker_silent (e : Entry) (s : jsstring) (y m d : Z) :
  e_date e = Some s -> Date_parse s = LocalDate y m d ->
  (createDeadlineMarker Date_parse e).2 = [].
Proof.
  intros Hs Hp. unfold createDeadlineMarker. cbn [snd].
  assert (Hmsd : exists c r,
             month_slash_day (Date_of Date_parse (e_date e)) = c :: r /\
             c <> 78%N).
  { rewrite Hs. cbn [Date_of]. rewrite Hp. unfold month_slash_day.
    cbn [getMonth getDate num_add num_toString].
    destruct (digits_of_head (m + 1)) as (c & r & -> & Hc).
    exists c, (r ++ js "/" ++ digits_of d). split; [reflexivity | exact Hc]. }
  destruct Hmsd as (c & r & Hmsd & Hc). rewrite Hmsd.
  change (js "NaN/NaN") with (78%N :: js "aN/NaN").
  destruct (is_conference (e_type e) && truthy_opt (e_endDate e));
    cbn [app truthy_string negb orb];
    (rewrite bool_decide_eq_false_2; [reflexivity|]);
    intros [= Heq _]; congruence.
Qed.

Lemma timeline_console (conference : ConferenceRecord)
    (months : list MonthSlot) :
  (timeline Date_parse conference months).2
  = flat_map (fun slot =>
                concat (map snd (map (createDeadlineMarker Date_parse)
                                     (getDeadlinesInMonth Date_parse
                                                          conference slot))))
             months.
Proof.
  unfold timeline.
  enough (H : forall columns console,
             (fold_left
                (fun '(columns, console) month =>
                   let deadlinesInMonth :=
                     getDeadlinesInMonth Date_parse conference month in
                   let made :=
                     map (createDeadlineMarker Date_parse) deadlinesInMonth in
                   (columns ++ [map fst made],
                    console ++ concat (map snd made)))
                months (columns, console)).2
             = console
               ++ flat_map
                    (fun slot =>
                       concat (map snd (map (createDeadlineMarker Date_parse)
                                            (getDeadlinesInMonth
                                               Date_parse conference slot))))
                    months)
    by apply (H [] []).
  induction months as [|slot months IH]; intros columns console.
  - cbn [fold_left flat_map snd]. symmetry. apply app_nil_r.
  - cbn [fold_left flat_map]. cbv zeta. rewrite IH, <- app_assoc.
    reflexivity.
Qed.

Lemma timeline_silent (conference : ConferenceRecord)
    (months : list MonthSlot) :
  (timeline Date_parse conference months).2 = [].
Proof.
  rewrite timeline_console. induction months as [|slot months IH];
    [reflexivity|].
  cbn [flat_map]. rewrite IH, app_nil_r.
  assert (H : forall es,
             (forall e, In e es ->
                exists s y m d, e_date e = Some s /\ s <> [] /\
                                Date_parse s = LocalDate y m d) ->
             concat (map snd (map (createDeadlineMarker Date_parse) es)) = []).
  { induction es as [|e es IHes]; intros Hes; [reflexivity|].
    cbn [map concat].
    destruct (Hes e (or_introl eq_refl)) as (s & y & m & d & Hs & _ & Hp).
    rewrite (createDeadlineMarker_silent e s y m d Hs Hp). simpl.
    apply IHes. intros e' He'. apply Hes. right. exact He'. }
  apply H. intros e He. exact (bucket_dates_read conference slot e He).
Qed.

End UnusableDates.

(** *** The predicted flag *)

(** C9.  When the [is_predicted] of a year entry is absent or falsy, the
    conference entry made from it carries the boolean [false], and the
    popup made from it has no "Predicted" note; in general the note is
    there exactly when the [is_predicted] of the year entry is truthy. *)
Theorem conference_entry_predicted_flag (Date_parse : jsstring -> Date) :
  (forall conference slot confYear yearInfo,
      truthy (is_predicted yearInfo) = false ->
      start_in_slot Date_parse yearInfo slot ->
      exists e,
        last (year_entries Date_parse conference slot confYear yearInfo)
          = Some e /\
        is_conference (e_type e) = true /\
        e_is_predicted e = Bool false /\
        predicted_note (showDeadlineDetails e) = false) /\
  (forall conference slot confYear yearInfo,
      start_in_slot Date_parse yearInfo slot ->
      exists e,
        last (year_entries Date_parse conference slot confYear yearInfo)
          = Some e /\
        is_conference (e_type e) = true /\
        predicted_note (showDeadlineDetails e)
          = truthy (is_predicted yearInfo)) /\
  (forall conference slot confYear yearInfo info e,
      information conference = Some info ->
      In (confYear, yearInfo) info ->
      last (year_entries Date_parse conference slot confYear yearInfo)
        = Some e ->
      In e (getDeadlinesInMonth Date_parse conference slot)).
Proof.
  assert (Hlast : forall conference slot confYear yearInfo,
             start_in_slot Date_parse yearInfo slot ->
             exists cd,
               last (year_entries Date_parse conference slot confYear yearInfo)
               = Some (conference_entry conference confYear yearInfo cd)).
  { intros conference slot confYear yearInfo Hin.
    destruct (proj1 (year_entries_conference Date_parse conference slot
                       confYear yearInfo) Hin) as (cd & _ & ->).
    exists cd. apply last_snoc. }
  split; [|split].
  - intros conference slot confYear yearInfo Hflag Hin.
    destruct (Hlast conference slot confYear yearInfo Hin) as [cd ->].
    eexists. split; [reflexivity|].
    unfold showDeadlineDetails, conference_entry, or_false.
    cbn [e_type e_is_predicted predicted_note]. rewrite Hflag.
    repeat split.
  - intros conference slot confYear yearInfo Hin.
    destruct (Hlast conference slot confYear yearInfo Hin) as [cd ->].
    eexists. split; [reflexivity|]. split; [reflexivity|].
    unfold showDeadlineDetails, conference_entry, or_false.
    cbn [e_is_predicted predicted_note].
    destruct (truthy (is_predicted yearInfo)) eqn:Hflag; [exact Hflag|].
    reflexivity.
  - intros conference slot confYear yearInfo info e Hinfo Hin He.
    apply (year_entries_in_bucket Date_parse conference slot confYear
             yearInfo info e Hinfo Hin).
    apply last_Some in He as [l ->]. apply in_or_app. right. left.
    reflexivity.
Qed.

Lemma conference_entry_predicted_flag_witness :
  exists e,
    last (year_entries (Date_parse_iso false) ice_2026_june (slot_of 2026 6)
            (js "2026")
            (dates_only (js "2026-06-01") (js "2026-06-05") Undefined))
      = Some e /\
    is_conference (e_type e) = true /\
    e_is_predicted e = Bool false /\
    predicted_note (showDeadlineDetails e) = false.
Proof.
  apply (proj1 (conference_entry_predicted_flag (Date_parse_iso false))
           ice_2026_june (slot_of 2026 6) (js "2026")
           (dates_only (js "2026-06-01") (js "2026-06-05") Undefined)).
  - reflexivity.
  - eexists _, (js "2026-06-01"). split; [reflexivity|].
    split; [reflexivity|]. split; [discriminate|].
    exists 2026, 5, 1. repeat split.
Defined.

(** ** The object store *)

Module Frame.

Import Store.

Section Invariant.

Variable h0 : heap.
Variable a : loc.
Variable F : value -> Prop.

Lemma preserves_weaken {A : Type} (m : M A) (post : A -> Prop) :
  preserves_with h0 a F m post -> preserves h0 a F m.
Proof. intros H h Hh. split; [apply (H h Hh) | auto]. Qed.

Lemma preserves_ret {A : Type} (x : A) : preserves h0 a F (ret x).
Proof. intros h Hh. split; [exact Hh | auto]. Qed.

Lemma preserves_throw {A : Type} : preserves h0 a F (@throw A).
Proof. intros h Hh. split; [exact Hh | auto]. Qed.

Lemma preserves_bind_with {A B : Type} (m : M A) (f : A -> M B)
    (post : A -> Prop) (post' : B -> Prop) :
  preserves_with h0 a F m post ->
  (forall x, post x -> preserves_with h0 a F (f x) post') ->
  preserves_with h0 a F (bind m f) post'.
Proof.
  intros Hm Hf h Hh. unfold bind. destruct (Hm h Hh) as [Hinv Hpost].
  destruct (m h) as [[x|] h']; cbn [fst snd] in *.
  - apply (Hf x (Hpost x eq_refl) h' Hinv).
  - split; [exact Hinv | discriminate].
Qed.

Lemma preserves_bind {A B : Type} (m : M A) (f : A -> M B) :
  preserves h0 a F m -> (forall x, preserves h0 a F (f x)) -> preserves h0 a F (bind m f).
Proof.
  intros Hm Hf. apply (preserves_bind_with m f (fun _ => True));
    [exact Hm | intros x _; apply Hf].
Qed.

Lemma preserves_reads_only {A : Type} (m : M A) :
  reads_only m -> preserves h0 a F m.
Proof. intros Hm h Hh. rewrite Hm. split; [exact Hh | auto]. Qed.

Lemma reads_only_ret {A : Type} (x : A) : reads_only (ret x).
Proof. intros h. reflexivity. Qed.

Lemma reads_only_throw {A : Type} : reads_only (@throw A).
Proof. intros h. reflexivity. Qed.

Lemma reads_only_bind {A B : Type} (m : M A) (f : A -> M B) :
  reads_only m -> (forall x, reads_only (f x)) -> reads_only (bind m f).
Proof.
  intros Hm Hf h. unfold bind. specialize (Hm h).
  destruct (m h) as [[x|] h']; cbn [snd] in *; subst h'; [apply Hf|reflexivity].
Qed.

Lemma reads_only_read (l : loc) : reads_only (read l).
Proof. intros h. unfold read. destruct (h !! l); reflexivity. Qed.

Lemma reads_only_get (v : value) (k : jsstring) : reads_only (get v k).
Proof.
  destruct v; cbn [get]; try apply reads_only_ret; try apply reads_only_throw.
  apply reads_only_bind; [apply reads_only_read|].
  intros [props|items]; apply reads_only_ret.
Qed.

Lemma reads_only_Object_keys (v : value) : reads_only (Object_keys v).
Proof.
  destruct v; cbn [Object_keys]; try apply reads_only_ret;
    try apply reads_only_throw.
  apply reads_only_bind; [apply reads_only_read|].
  intros [props|items]; apply reads_only_ret.
Qed.

Lemma reads_only_spread (v : value) : reads_only (spread v).
Proof.
  destruct v; cbn [spread]; try apply reads_only_ret.
  apply reads_only_bind; [apply reads_only_read|].
  intros [props|items]; apply reads_only_ret.
Qed.

Lemma reads_only_isArray (v : value) : reads_only (isArray v).
Proof.
  destruct v; cbn [isArray]; try apply reads_only_ret.
  apply reads_only_bind; [apply reads_only_read|].
  intros [props|items]; apply reads_only_ret.
Qed.

Lemma reads_only_element (l : loc) (k : nat) : reads_only (element l k).
Proof.
  apply reads_only_bind; [apply reads_only_read|].
  intros [props|items]; apply reads_only_ret.
Qed.

Lemma reads_only_new_Date (Date_new : heap -> value -> Date) (v : value) :
  reads_only (new_Date Date_new v).
Proof. intros h. reflexivity. Qed.

Lemma reads_only_lower_includes (toLowerCase : jsstring -> jsstring)
    (v : value) (search : jsstring) :
  reads_only (lower_includes toLowerCase v search).
Proof.
  destruct v; cbn [lower_includes]; try apply reads_only_ret;
    apply reads_only_throw.
Qed.

Lemma reads_only_conference_date (yearInfo : value) (k : jsstring) :
  reads_only (conference_date yearInfo k).
Proof.
  apply reads_only_bind; [apply reads_only_get|].
  intros cd. apply reads_only_get.
Qed.

(** A new object is not one of [h0], and leaves the array as it is. *)
Lemma preserves_alloc (o : object) :
  preserves_with h0 a F (alloc o) (fun l => (length h0 <= l)%nat /\ l <> a).
Proof.
  intros h (Hpre & Ha & items & Hitems & HF). cbn [alloc fst snd].
  split.
  - split; [|split; [exact Ha|]].
    + apply prefix_app_r. exact Hpre.
    + exists items. split; [|exact HF].
      apply lookup_app_l_Some. exact Hitems.
  - intros l [= <-]. split.
    + apply prefix_length. exact Hpre.
    + apply lookup_lt_Some in Hitems. lia.
Qed.

(** A value that satisfies [F] may be pushed. *)
Lemma preserves_push (x : value) : F x -> preserves h0 a F (push a x).
Proof.
  intros Hx h (Hpre & Ha & items & Hitems & HF).
  unfold push, bind, read. rewrite Hitems. cbn [write fst snd].
  split; [|auto]. split; [|split; [exact Ha|]].
  - destruct Hpre as [k ->]. rewrite insert_app_r_alt by exact Ha.
    eexists. reflexivity.
  - exists (items ++ [x]). split.
    + apply list_lookup_insert_eq. apply lookup_lt_Some in Hitems. exact Hitems.
    + apply Forall_app. split; [exact HF|]. constructor; [exact Hx|constructor].
Qed.

Lemma preserves_forEach_loop (n k : nat) (l : loc) (cb : value -> M unit) :
  (forall x, preserves h0 a F (cb x)) -> preserves h0 a F (forEach_loop n k l cb).
Proof.
  intros Hcb. revert k. induction n as [|n IH]; intros k; cbn [forEach_loop].
  - apply preserves_ret.
  - apply preserves_bind;
      [apply preserves_reads_only, reads_only_element|].
    intros [x|]; [|apply IH].
    apply preserves_bind; [apply Hcb | intros _; apply IH].
Qed.

Lemma preserves_forEach (v : value) (cb : value -> M unit) :
  (forall x, preserves h0 a F (cb x)) -> preserves h0 a F (forEach v cb).
Proof.
  intros Hcb. destruct v; cbn [forEach]; try apply preserves_throw.
  apply preserves_bind; [apply preserves_reads_only, reads_only_read|].
  intros [props|items]; [apply preserves_throw|].
  apply preserves_forEach_loop, Hcb.
Qed.

Lemma preserves_some_loop (n k : nat) (l : loc) (cb : value -> M bool) :
  (forall x, preserves h0 a F (cb x)) -> preserves h0 a F (some_loop n k l cb).
Proof.
  intros Hcb. revert k. induction n as [|n IH]; intros k; cbn [some_loop].
  - apply preserves_ret.
  - apply preserves_bind;
      [apply preserves_reads_only, reads_only_element|].
    intros [x|]; [|apply IH].
    apply preserves_bind; [apply Hcb|].
    intros [|]; [apply preserves_ret | apply IH].
Qed.

Lemma preserves_some (v : value) (cb : value -> M bool) :
  (forall x, preserves h0 a F (cb x)) -> preserves h0 a F (some v cb).
Proof.
  intros Hcb. destruct v; cbn [some]; try apply preserves_throw.
  apply preserves_bind; [apply preserves_reads_only, reads_only_read|].
  intros [props|items]; [apply preserves_throw|].
  apply preserves_some_loop, Hcb.
Qed.

Lemma preserves_forEach_key (keys : list jsstring) (cb : jsstring -> M unit) :
  (forall k, preserves h0 a F (cb k)) -> preserves h0 a F (forEach_key keys cb).
Proof.
  intros Hcb. induction keys as [|k keys IH]; cbn [forEach_key].
  - apply preserves_ret.
  - apply preserves_bind; [apply Hcb | intros _; exact IH].
Qed.

End Invariant.

Section MethodFrames.

Variable toLowerCase : jsstring -> jsstring.
Variable Date_new : heap -> value -> Date.
Variable h0 : heap.
Variable a : loc.

Lemma visit_deadline_preserves (conference : value) (month : MonthSlot)
    (confYear : jsstring) (deadline : value) :
  preserves h0 a (fresh_ref h0)
    (visit_deadline Date_new conference month confYear a deadline).
Proof.
  unfold visit_deadline.
  apply preserves_bind; [apply preserves_reads_only, reads_only_get|].
  intros date. destruct (truthy date); [|apply preserves_ret].
  apply preserves_bind; [apply preserves_reads_only, reads_only_get|].
  intros date'.
  apply preserves_bind; [apply preserves_reads_only, reads_only_new_Date|].
  intros deadlineDate.
  destruct (in_month deadlineDate month); [|apply preserves_ret].
  apply preserves_bind; [apply preserves_reads_only, reads_only_spread|].
  intros copied.
  apply preserves_bind; [apply preserves_reads_only, reads_only_get|].
  intros short_name.
  eapply preserves_bind_with; [apply preserves_alloc|].
  intros entry [Hfresh _]. apply preserves_push. exists entry. auto.
Qed.

Lemma visit_year_preserves (conference : value) (month : MonthSlot)
    (confYear : jsstring) :
  preserves h0 a (fresh_ref h0)
    (visit_year Date_new conference month a confYear).
Proof.
  unfold visit_year.
  apply preserves_bind; [apply preserves_reads_only, reads_only_get|].
  intros information.
  apply preserves_bind; [apply preserves_reads_only, reads_only_get|].
  intros yearInfo.
  apply preserves_bind; [apply preserves_reads_only, reads_only_get|].
  intros year_deadlines.
  apply preserves_bind.
  { destruct (truthy year_deadlines); [|apply preserves_ret].
    apply preserves_bind; [apply preserves_reads_only, reads_only_get|].
    intros ds. apply preserves_forEach. intros deadline.
    apply visit_deadline_preserves. }
  intros _.
  apply preserves_bind; [apply preserves_reads_only, reads_only_get|].
  intros conference_dates.
  apply preserves_bind.
  { destruct (truthy conference_dates); [|apply preserves_ret].
    apply preserves_reads_only, reads_only_conference_date. }
  intros has_start. destruct (truthy has_start); [|apply preserves_ret].
  apply preserves_bind;
    [apply preserves_reads_only, reads_only_conference_date|].
  intros start.
  apply preserves_bind; [apply preserves_reads_only, reads_only_new_Date|].
  intros startDate.
  destruct (in_month startDate month); [|apply preserves_ret].
  apply preserves_bind;
    [apply preserves_reads_only, reads_only_conference_date|].
  intros start'.
  apply preserves_bind;
    [apply preserves_reads_only, reads_only_conference_date|].
  intros finish.
  apply preserves_bind; [apply preserves_reads_only, reads_only_get|].
  intros is_predicted.
  apply preserves_bind; [apply preserves_reads_only, reads_only_get|].
  intros short_name.
  eapply preserves_bind_with; [apply preserves_alloc|].
  intros entry [Hfresh _]. apply preserves_push. exists entry. auto.
Qed.

(** What follows the allocation of the array [deadlines]. *)
Lemma getDeadlinesInMonth_rest_preserves (conference : value)
    (month : MonthSlot) :
  preserves_with h0 a (fresh_ref h0)
    (let! information := get conference (js "information") in
     (if truthy information then
        let! information := get conference (js "information") in
        let! keys := Object_keys information in
        let! _ := alloc (Arr (map VString keys)) in
        forEach_key keys (visit_year Date_new conference month a)
      else ret tt) ;;
     ret (VRef a))
    (fun v => v = VRef a).
Proof.
  eapply preserves_bind_with;
    [apply preserves_reads_only, reads_only_get|].
  intros information _.
  eapply preserves_bind_with.
  { destruct (truthy information); [|apply preserves_ret].
    apply preserves_bind; [apply preserves_reads_only, reads_only_get|].
    intros information'.
    apply preserves_bind;
      [apply preserves_reads_only, reads_only_Object_keys|].
    intros keys.
    apply preserves_bind;
      [eapply preserves_weaken, preserves_alloc|].
    intros _. apply preserves_forEach_key. intros k.
    apply visit_year_preserves. }
  intros _ _ h Hh. split; [exact Hh|]. intros v [= <-]. reflexivity.
Qed.

Variable F : value -> Prop.

Lemma filter_callback_preserves (this : Controller) (conf : value) :
  preserves h0 a F (filter_callback toLowerCase this conf).
Proof.
  unfold filter_callback.
  destruct (size (fs_themes (currentFilters this)) =? 0)%nat;
    [apply preserves_ret|].
  apply preserves_bind; [apply preserves_reads_only, reads_only_get|].
  intros themes.
  apply preserves_bind; [apply preserves_reads_only, reads_only_isArray|].
  intros is_array.
  apply preserves_bind.
  { destruct is_array; [apply preserves_ret|].
    apply preserves_bind; [apply preserves_reads_only, reads_only_get|].
    intros theme.
    apply preserves_bind; [eapply preserves_weaken, preserves_alloc|].
    intros l. apply preserves_ret. }
  intros confThemes.
  apply preserves_bind.
  { apply preserves_some. intros theme. apply preserves_ret. }
  intros hasMatchingTheme.
  destruct (negb hasMatchingTheme); [apply preserves_ret|].
  destruct (truthy_string (fs_search (currentFilters this)));
    [|apply preserves_ret].
  apply preserves_bind; [apply preserves_reads_only, reads_only_get|].
  intros name.
  apply preserves_bind;
    [apply preserves_reads_only, reads_only_lower_includes|].
  intros nameMatch.
  apply preserves_bind; [apply preserves_reads_only, reads_only_get|].
  intros short_name.
  apply preserves_bind;
    [apply preserves_reads_only, reads_only_lower_includes|].
  intros shortNameMatch.
  apply preserves_bind.
  { apply preserves_some. intros theme.
    apply preserves_reads_only, reads_only_lower_includes. }
  intros themeMatch.
  destruct (negb nameMatch && negb shortNameMatch && negb themeMatch);
    apply preserves_ret.
Qed.

(** Under the invariant the source array is read as it was in [h0]. *)
Lemma element_of_source (l : loc) (items : list value) (k : nat) (h : heap) :
  h0 !! l = Some (Arr items) -> h0 `prefix_of` h ->
  element l k h = (Return (items !! k), h).
Proof.
  intros Hl Hpre. unfold element, bind, read.
  rewrite (prefix_lookup_Some _ _ _ _ Hl Hpre). reflexivity.
Qed.

Lemma filter_loop_preserves (n k : nat) (l : loc) (items : list value)
    (cb : value -> M bool) :
  h0 !! l = Some (Arr items) ->
  (forall x, element_of items x -> F x) ->
  (forall x, preserves h0 a F (cb x)) ->
  preserves h0 a F (filter_loop n k l a cb).
Proof.
  intros Hl HF Hcb. revert k. induction n as [|n IH]; intros k.
  - apply preserves_ret.
  - intros h Hh.
    assert (Heq : filter_loop (S n) k l a cb h
                  = match items !! k with
                    | Some x =>
                        (let! b := cb x in
                         (if b then push a x else ret tt) ;;
                         filter_loop n (S k) l a cb) h
                    | None => filter_loop n (S k) l a cb h
                    end).
    { cbn [filter_loop]. unfold bind at 1.
      rewrite (element_of_source l items k h Hl (proj1 Hh)).
      destruct (items !! k); reflexivity. }
    rewrite Heq. clear Heq.
    destruct (items !! k) as [x|] eqn:Hx; [|apply (IH (S k) h Hh)].
    revert h Hh. apply preserves_bind; [apply Hcb|].
    intros b. apply preserves_bind; [|intros _; apply IH].
    destruct b; [|apply preserves_ret].
    apply preserves_push, HF. exists k. exact Hx.
Qed.

End MethodFrames.

(** A run of [filter] leaves every object of the store as it was; the
    array it returns is new and holds elements of the source array. *)
Lemma filter_frame (v : value) (cb : value -> M bool) (h : heap) :
  (forall a F x, preserves h a F (cb x)) ->
  h `prefix_of` (filter v cb h).2 /\
  forall r,
    (filter v cb h).1 = Return r ->
    exists l source a kept,
      v = VRef l /\ h !! l = Some (Arr source) /\
      r = VRef a /\ (length h <= a)%nat /\
      (filter v cb h).2 !! a = Some (Arr kept) /\
      Forall (element_of source) kept.
Proof.
  intros Hcb.
  destruct v as [| | | | |l];
    try (split; [reflexivity | intros r [=]]).
  assert (Heq : filter (VRef l) cb h
                = match h !! l with
                  | Some (Arr source) =>
                      match filter_loop (length source) 0 l (length h) cb
                                        (h ++ [Arr []]) with
                      | (Return _, h2) => (Return (VRef (length h)), h2)
                      | (Throw, h2) => (Throw, h2)
                      end
                  | Some (Obj _) => (Throw, h)
                  | None => (Throw, h)
                  end).
  { unfold filter, bind, read, alloc.
    destruct (h !! l) as [[props|source]|]; reflexivity. }
  rewrite Heq. clear Heq.
  destruct (h !! l) as [[props|source]|] eqn:Hl;
    try (split; [reflexivity | intros r [=]]).
  assert (Hinv : inv h (length h) (element_of source) (h ++ [Arr []])).
  { split; [apply prefix_app_r; reflexivity|]. split; [reflexivity|].
    exists []. split; [apply list_lookup_middle; reflexivity | constructor]. }
  pose proof (filter_loop_preserves h (length h) (element_of source)
                (length source) 0 l source cb Hl (fun x H => H)
                (Hcb (length h) (element_of source))
                (h ++ [Arr []]) Hinv) as [Hfinal _].
  destruct (filter_loop (length source) 0 l (length h) cb (h ++ [Arr []]))
    as [[[]|] h2]; cbn [fst snd] in *.
  - destruct Hfinal as (Hpre & Ha & kept & Hkept & HF).
    split; [exact Hpre|]. intros r [= <-].
    exists l, source, (length h), kept. auto 10.
  - split; [apply Hfinal | intros r [=]].
Qed.

(** [applyFilters] leaves every object of the store as it was, whether
    it returns or throws; the list it stores in the controller is a new
    array of elements of [this.conferences]. *)
Lemma applyFilters_frame (toLowerCase : jsstring -> jsstring)
    (this : Controller) (h : heap) :
  h `prefix_of` (applyFilters toLowerCase this h).2 /\
  forall this',
    (applyFilters toLowerCase this h).1 = Return this' ->
    conferences this' = conferences this /\
    currentFilters this' = currentFilters this /\
    exists l source a kept,
      conferences this = VRef l /\ h !! l = Some (Arr source) /\
      filteredConferences this' = VRef a /\ (length h <= a)%nat /\
      (applyFilters toLowerCase this h).2 !! a = Some (Arr kept) /\
      Forall (element_of source) kept.
Proof.
  pose proof (filter_frame (conferences this)
                (filter_callback toLowerCase this) h
                (fun a F x => filter_callback_preserves toLowerCase h a F
                                this x)) as [Hpre Hret].
  unfold applyFilters, bind.
  destruct (filter (conferences this) (filter_callback toLowerCase this) h)
    as [[filtered|] h']; cbn [fst snd ret] in *.
  - split; [exact Hpre|]. intros this' [= <-]. cbn.
    split; [reflexivity|]. split; [reflexivity|].
    apply Hret. reflexivity.
  - split; [exact Hpre | intros this' [=]].
Qed.

(** The bucketizer leaves every object of the store as it was, whether
    it returns or throws; what it returns is a new array of new
    objects. *)
Lemma getDeadlinesInMonth_frame (Date_new : heap -> value -> Date)
    (conference : value) (month : MonthSlot) (h : heap) :
  h `prefix_of` (getDeadlinesInMonth Date_new conference month h).2 /\
  forall v,
    (getDeadlinesInMonth Date_new conference month h).1 = Return v ->
    exists a entries,
      v = VRef a /\ (length h <= a)%nat /\
      (getDeadlinesInMonth Date_new conference month h).2 !! a
        = Some (Arr entries) /\
      Forall (fresh_ref h) entries.
Proof.
  set (a := length h). set (h1 := h ++ [Arr []]).
  assert (Hinv : inv h a (fresh_ref h) h1).
  { split; [apply prefix_app_r; reflexivity|]. split; [reflexivity|].
    exists []. split; [apply list_lookup_middle; reflexivity | constructor]. }
  destruct (getDeadlinesInMonth_rest_preserves Date_new h a conference month
              h1 Hinv) as [(Hpre & Ha & entries & Hentries & HF) Hpost].
  change (getDeadlinesInMonth Date_new conference month h)
    with ((let! information := get conference (js "information") in
           (if truthy information then
              let! information := get conference (js "information") in
              let! keys := Object_keys information in
              let! _ := alloc (Arr (map VString keys)) in
              forEach_key keys (visit_year Date_new conference month a)
            else ret tt) ;;
           ret (VRef a)) h1).
  split; [exact Hpre|]. intros v Hv. specialize (Hpost v Hv). subst v.
  exists a, entries. auto.
Qed.

(** C8.  Running [applyFilters] and then [getDeadlinesInMonth] leaves
    every object that was in the store (every conference record, year
    entry and deadline record among them) at its place and as it was,
    whether the runs return or throw.  The filtered list is a new array
    whose elements are elements of [this.conferences], and the bucket is a
    new array whose elements are references to new objects. *)
Theorem records_unchanged (toLowerCase : jsstring -> jsstring)
    (Date_new : heap -> value -> Date) (this : Controller)
    (conference : value) (month : MonthSlot) (h : heap) :
  (forall l o,
      h !! l = Some o ->
      (applyFilters toLowerCase this h).2 !! l = Some o /\
      (getDeadlinesInMonth Date_new conference month
         (applyFilters toLowerCase this h).2).2 !! l = Some o) /\
  (forall this',
      (applyFilters toLowerCase this h).1 = Return this' ->
      conferences this' = conferences this /\
      exists l source a kept,
        conferences this = VRef l /\ h !! l = Some (Arr source) /\
        filteredConferences this' = VRef a /\ (length h <= a)%nat /\
        (applyFilters toLowerCase this h).2 !! a = Some (Arr kept) /\
        Forall (element_of source) kept) /\
  (forall v,
      (getDeadlinesInMonth Date_new conference month
         (applyFilters toLowerCase this h).2).1 = Return v ->
      exists a entries,
        v = VRef a /\
        (length (applyFilters toLowerCase this h).2 <= a)%nat /\
        (getDeadlinesInMonth Date_new conference month
           (applyFilters toLowerCase this h).2).2 !! a = Some (Arr entries) /\
        Forall (fresh_ref (applyFilters toLowerCase this h).2) entries).
Proof.
  destruct (applyFilters_frame toLowerCase this h) as [Hfilter Hfiltered].
  destruct (getDeadlinesInMonth_frame Date_new conference month
              (applyFilters toLowerCase this h).2) as [Hbucket Hentries].
  split; [|split].
  - intros l o Hl.
    pose proof (prefix_lookup_Some _ _ _ _ Hl Hfilter) as Hl'.
    split; [exact Hl'|].
    exact (prefix_lookup_Some _ _ _ _ Hl' Hbucket).
  - intros this' Hret. destruct (Hfiltered this' Hret) as (Hc & _ & H).
    split; [exact Hc | exact H].
  - exact Hentries.
Qed.

End Frame.

(** ** The two models agree

    On a store that holds a conference record, the bucketizer over the
    store returns, without throwing, an array of new objects that are the
    entries the bucketizer over records computes. *)

Module Refinement.

Lemma run_bind {A B : Type} (m : Store.M A) (f : A -> Store.M B)
    (h h' : Store.heap) (x : A) :
  m h = (Store.Return x, h') -> Store.bind m f h = f x h'.
Proof. intros H. unfold Store.bind. rewrite H. reflexivity. Qed.

Lemma get_object (h : Store.heap) (l : nat)
    (props : list (jsstring * Store.value)) (k : jsstring) :
  h !! l = Some (Store.Obj props) ->
  Store.get (Store.VRef l) k h = (Store.Return (Store.lookup_key props k), h).
Proof.
  intros Hl. unfold Store.get, Store.bind, Store.read. rewrite Hl.
  reflexivity.
Qed.

Lemma truthy_opt_value (o : option jsstring) :
  Store.truthy (opt_value o) = truthy_opt o.
Proof. destruct o; reflexivity. Qed.

Lemma truthy_scalar_value (v : scalar) :
  Store.truthy (scalar_value v) = truthy v.
Proof. destruct v as [| | |[|]|]; reflexivity. Qed.

Lemma lookup_set_key (props : list (jsstring * Store.value))
    (k k' : jsstring) (v : Store.value) :
  Store.lookup_key (Store.set_key props k v) k'
  = if decide (k = k') then v else Store.lookup_key props k'.
Proof.
  induction props as [|[k0 v0] props IH]; simpl.
  - destruct (decide (k = k')); reflexivity.
  - destruct (decide (k0 = k)) as [-> | Hne]; simpl.
    + destruct (decide (k = k')); reflexivity.
    + rewrite IH. destruct (decide (k0 = k')) as [-> | Hne'].
      * rewrite decide_False by congruence. reflexivity.
      * reflexivity.
Qed.

Lemma is_entry_alloc (h0 h : Store.heap) (o : Store.object)
    (v : Store.value) (e : Entry) :
  is_entry h0 h v e -> is_entry h0 (h ++ [o]) v e.
Proof.
  intros (l & props & -> & Hl & Hh & He). exists l, props.
  split; [reflexivity|]. split; [exact Hl|]. split; [|exact He].
  apply lookup_app_l_Some. exact Hh.
Qed.

Lemma is_entry_write (h0 h : Store.heap) (o : Store.object)
    (v : Store.value) (e : Entry) :
  is_entry h0 h v e -> is_entry h0 (<[length h0 := o]> h) v e.
Proof.
  intros (l & props & -> & Hl & Hh & He). exists l, props.
  split; [reflexivity|]. split; [exact Hl|]. split; [|exact He].
  rewrite list_lookup_insert_ne by lia. exact Hh.
Qed.

Lemma bucket_alloc (h0 : Store.heap) (es : list Entry) (h : Store.heap)
    (o : Store.object) :
  bucket h0 es h -> bucket h0 es (h ++ [o]).
Proof.
  intros (Hpre & items & Hitems & Hes). split.
  - apply prefix_app_r. exact Hpre.
  - exists items. split; [apply lookup_app_l_Some; exact Hitems|].
    eapply Forall2_impl; [exact Hes|]. intros v e. apply is_entry_alloc.
Qed.

(** Allocating the object of an entry and pushing it adds the entry. *)
Lemma bucket_push (h0 : Store.heap) (es : list Entry) (h : Store.heap)
    (props : list (jsstring * Store.value)) (e : Entry) :
  bucket h0 es h -> entry_props props e ->
  exists h',
    Store.bind (Store.alloc (Store.Obj props))
               (fun entry => Store.push (length h0) (Store.VRef entry)) h
    = (Store.Return tt, h') /\
    bucket h0 (es ++ [e]) h'.
Proof.
  intros (Hpre & items & Hitems & Hes) He.
  pose proof (lookup_lt_Some _ _ _ Hitems) as Hlt.
  unfold Store.bind, Store.alloc, Store.push, Store.bind, Store.read.
  rewrite (lookup_app_l_Some _ _ _ _ Hitems). cbn [Store.write].
  eexists. split; [reflexivity|]. split.
  - destruct Hpre as [k ->]. rewrite <- app_assoc.
    rewrite insert_app_r_alt by lia. eexists. reflexivity.
  - exists (items ++ [Store.VRef (length h)]). split.
    + apply list_lookup_insert_eq. rewrite length_app. simpl. lia.
    + apply Forall2_app.
      * eapply Forall2_impl; [exact Hes|]. intros v e' Hv.
        apply is_entry_write, is_entry_alloc, Hv.
      * constructor; [|constructor]. exists (length h), props.
        split; [reflexivity|]. split; [lia|]. split; [|exact He].
        rewrite list_lookup_insert_ne by lia.
        apply list_lookup_middle. reflexivity.
Qed.

Lemma lookup_key_NoDup (props : list (jsstring * Store.value))
    (k : jsstring) (v : Store.value) :
  NoDup (map fst props) -> In (k, v) props -> Store.lookup_key props k = v.
Proof.
  induction props as [|[k0 v0] props IH]; intros Hnd Hin; [destruct Hin|].
  cbn [map fst] in Hnd. apply NoDup_cons in Hnd as [Hk0 Hnd].
  cbn [Store.lookup_key].
  destruct Hin as [[= -> ->] | Hin].
  - rewrite decide_True by reflexivity. reflexivity.
  - rewrite decide_False; [apply IH; assumption|].
    intros Heq. apply Hk0. rewrite Heq.
    apply list_elem_of_In, in_map_iff. exists (k, v). auto.
Qed.

(** *** Every record can be held by a store *)

Lemma is_deadline_extend (h k : Store.heap) (v : Store.value)
    (d : DeadlineRecord) :
  is_deadline h v d -> is_deadline (h ++ k) v d.
Proof.
  intros (l & props & Hv & Hl & H). exists l, props.
  split; [exact Hv|]. split; [apply lookup_app_l_Some; exact Hl | exact H].
Qed.

Lemma is_deadlines_extend (h k : Store.heap) (v : Store.value)
    (ds : option (list DeadlineRecord)) :
  is_deadlines h v ds -> is_deadlines (h ++ k) v ds.
Proof.
  destruct ds as [ds|]; [|exact (fun H => H)].
  intros (l & items & Hv & Hl & H). exists l, items.
  split; [exact Hv|]. split; [apply lookup_app_l_Some; exact Hl|].
  eapply Forall2_impl; [exact H|]. intros x d. apply is_deadline_extend.
Qed.

Lemma is_conference_dates_extend (h k : Store.heap) (v : Store.value)
    (cd : option ConferenceDates) :
  is_conference_dates h v cd -> is_conference_dates (h ++ k) v cd.
Proof.
  destruct cd as [cd|]; [|exact (fun H => H)].
  intros (l & props & Hv & Hl & H). exists l, props.
  split; [exact Hv|]. split; [apply lookup_app_l_Some; exact Hl | exact H].
Qed.

Lemma is_year_info_extend (h k : Store.heap) (v : Store.value)
    (yearInfo : YearInfo) :
  is_year_info h v yearInfo -> is_year_info (h ++ k) v yearInfo.
Proof.
  intros (l & props & Hv & Hl & Hds & Hcd & Hp). exists l, props.
  split; [exact Hv|]. split; [apply lookup_app_l_Some; exact Hl|].
  split; [apply is_deadlines_extend; exact Hds|].
  split; [apply is_conference_dates_extend; exact Hcd | exact Hp].
Qed.

Lemma store_deadlines (h : Store.heap) (ds : list DeadlineRecord) :
  exists k items, Forall2 (is_deadline (h ++ k)) items ds.
Proof.
  revert h. induction ds as [|d ds IH]; intros h.
  - exists [], []. constructor.
  - set (o := Store.Obj [(js "type", opt_value (dl_type d));
                         (js "date", opt_value (dl_date d));
                         (js "label", opt_value (dl_label d));
                         (js "is_predicted",
                          scalar_value (dl_is_predicted d))]).
    destruct (IH (h ++ [o])) as (k & items & Hitems).
    exists ([o] ++ k), (Store.VRef (length h) :: items).
    rewrite app_assoc. constructor; [|exact Hitems].
    apply is_deadline_extend. eexists (length h), _.
    split; [reflexivity|].
    split; [apply list_lookup_middle; reflexivity|].
    repeat split.
Qed.

Lemma store_year_info (h : Store.heap) (yearInfo : YearInfo) :
  exists k v, is_year_info (h ++ k) v yearInfo.
Proof.
  assert (Hds : exists k1 dv, is_deadlines (h ++ k1) dv (deadlines yearInfo)).
  { destruct (deadlines yearInfo) as [ds|].
    - destruct (store_deadlines h ds) as (k & items & Hitems).
      exists (k ++ [Store.Arr items]), (Store.VRef (length (h ++ k))).
      exists (length (h ++ k)), items. split; [reflexivity|].
      rewrite app_assoc.
      split; [apply list_lookup_middle; reflexivity|].
      eapply Forall2_impl; [exact Hitems|]. intros x d.
      apply is_deadline_extend.
    - exists [], Store.VUndefined. reflexivity. }
  destruct Hds as (k1 & dv & Hds).
  assert (Hcd : exists k2 cv,
             is_conference_dates ((h ++ k1) ++ k2) cv
                                 (conference_dates yearInfo)).
  { destruct (conference_dates yearInfo) as [cd|].
    - exists [Store.Obj [(js "start", opt_value (cd_start cd));
                         (js "end", opt_value (cd_end cd))]],
             (Store.VRef (length (h ++ k1))).
      eexists (length (h ++ k1)), _. split; [reflexivity|].
      split; [apply list_lookup_middle; reflexivity|]. split; reflexivity.
    - exists [], Store.VUndefined. reflexivity. }
  destruct Hcd as (k2 & cv' & Hcd).
  set (o := Store.Obj [(js "deadlines", dv);
                       (js "conference_dates", cv');
                       (js "is_predicted",
                        scalar_value (is_predicted yearInfo))]).
  exists (k1 ++ k2 ++ [o]), (Store.VRef (length ((h ++ k1) ++ k2))).
  eexists (length ((h ++ k1) ++ k2)), _. split; [reflexivity|].
  replace (h ++ k1 ++ k2 ++ [o]) with (((h ++ k1) ++ k2) ++ [o])
    by (rewrite <- !app_assoc; reflexivity).
  split; [apply list_lookup_middle; reflexivity|].
  split; [|split; [|reflexivity]].
  - change (Store.lookup_key _ (js "deadlines")) with dv.
    rewrite <- app_assoc. apply is_deadlines_extend. exact Hds.
  - change (Store.lookup_key _ (js "conference_dates")) with cv'.
    apply is_conference_dates_extend. exact Hcd.
Qed.

Lemma store_information (h : Store.heap) (info : list (jsstring * YearInfo)) :
  exists k props,
    map fst props = map fst info /\
    Forall2 (fun p kv => p.1 = kv.1 /\ is_year_info (h ++ k) p.2 kv.2)
            props info.
Proof.
  revert h. induction info as [|[y yi] info IH]; intros h.
  - exists [], []. split; [reflexivity | constructor].
  - destruct (store_year_info h yi) as (k1 & v & Hv).
    destruct (IH (h ++ k1)) as (k2 & props & Hkeys & Hprops).
    exists (k1 ++ k2), ((y, v) :: props). split.
    + cbn [map fst]. rewrite Hkeys. reflexivity.
    + rewrite app_assoc. constructor; [|exact Hprops].
      split; [reflexivity|]. apply is_year_info_extend. exact Hv.
Qed.

(** Every record whose year labels are distinct is held by some store. *)
Lemma store_conference (conference : ConferenceRecord) :
  NoDup (map fst (default [] (information conference))) ->
  exists h cv, is_conference_record h cv conference.
Proof.
  intros Hnd.
  assert (Hinfo : exists h iv, is_information h iv (information conference)).
  { destruct (information conference) as [info|].
    - destruct (store_information [] info) as (k & props & Hkeys & Hprops).
      exists (k ++ [Store.Obj props]), (Store.VRef (length k)).
      exists (length k), props. split; [reflexivity|].
      split; [apply list_lookup_middle; reflexivity|].
      split; [rewrite Hkeys; exact Hnd|].
      eapply Forall2_impl; [exact Hprops|]. intros p kv [Hk Hy].
      split; [exact Hk|]. apply (is_year_info_extend k). exact Hy.
    - exists [], Store.VUndefined. reflexivity. }
  destruct Hinfo as (h & iv & Hinfo).
  set (o := Store.Obj [(js "short_name", opt_value (short_name conference));
                       (js "information", iv)]).
  exists (h ++ [o]), (Store.VRef (length h)).
  eexists (length h), _. split; [reflexivity|].
  split; [apply list_lookup_middle; reflexivity|]. split; [reflexivity|].
  change (Store.lookup_key _ (js "information")) with iv.
  destruct (information conference) as [info|]; [|exact Hinfo].
  destruct Hinfo as (l & props & Hv & Hl & Hnd' & Hprops).
  exists l, props. split; [exact Hv|].
  split; [apply lookup_app_l_Some; exact Hl|]. split; [exact Hnd'|].
  eapply Forall2_impl; [exact Hprops|]. intros p kv [Hk Hy].
  split; [exact Hk|]. apply is_year_info_extend. exact Hy.
Qed.

Section Simulation.

Variable Date_parse : jsstring -> Date.
Variable Date_new : Store.heap -> Store.value -> Date.

(** On a string the constructor does not look at the store. *)
Hypothesis Date_new_string :
  forall h s, Date_new h (Store.VString s) = Date_parse s.

Variable month : MonthSlot.
Variable h0 : Store.heap.
Variable cv : Store.value.
Variable conference : ConferenceRecord.
Hypothesis Hconference : is_conference_record h0 cv conference.

Lemma get_short_name (h : Store.heap) :
  h0 `prefix_of` h ->
  Store.get cv (js "short_name") h
  = (Store.Return (opt_value (short_name conference)), h).
Proof.
  intros Hpre. pose proof Hconference as (l & props & Hcv & Hl & Hname & _).
  rewrite Hcv.
  rewrite (get_object h l props _ (prefix_lookup_Some _ _ _ _ Hl Hpre)), Hname.
  reflexivity.
Qed.

Lemma new_Date_truthy (h : Store.heap) (o : option jsstring) :
  truthy_opt o = true ->
  Store.new_Date Date_new (opt_value o) h
  = (Store.Return (Date_of Date_parse o), h).
Proof.
  destruct o as [s|]; [|discriminate]. intros _.
  unfold Store.new_Date. cbn [opt_value Date_of].
  rewrite Date_new_string. reflexivity.
Qed.

Lemma visit_deadline_sim (confYear : jsstring) (dv : Store.value)
    (d : DeadlineRecord) (es : list Entry) (h : Store.heap) :
  is_deadline h0 dv d -> bucket h0 es h ->
  exists h',
    Store.visit_deadline Date_new cv month confYear (length h0) dv h
    = (Store.Return tt, h') /\
    bucket h0 (visit_deadline Date_parse conference month confYear es d) h'.
Proof.
  intros (l & props & -> & Hl & Htype & Hdate & Hend & Hlabel & Hpred) Hb.
  pose proof (proj1 Hb) as Hpre.
  pose proof (prefix_lookup_Some _ _ _ _ Hl Hpre) as Hl'.
  unfold Store.visit_deadline, visit_deadline.
  rewrite (run_bind _ _ _ _ _ (get_object h l props _ Hl')), Hdate.
  rewrite truthy_opt_value.
  destruct (truthy_opt (dl_date d)) eqn:Htruthy; [|exists h; auto].
  rewrite (run_bind _ _ _ _ _ (get_object h l props _ Hl')), Hdate.
  rewrite (run_bind _ _ _ _ _ (new_Date_truthy h _ Htruthy)).
  destruct (in_month (Date_of Date_parse (dl_date d)) month);
    [|exists h; auto].
  assert (Hspread : Store.spread (Store.VRef l) h = (Store.Return props, h)).
  { unfold Store.spread, Store.bind, Store.read. rewrite Hl'. reflexivity. }
  rewrite (run_bind _ _ _ _ _ Hspread).
  rewrite (run_bind _ _ _ _ _ (get_short_name h Hpre)).
  apply bucket_push; [exact Hb|].
  unfold entry_props, deadline_entry.
  cbn [e_type e_date e_endDate e_label e_is_predicted e_conferenceName
       e_conferenceYear opt_value].
  rewrite !lookup_set_key.
  repeat split;
    repeat (first [rewrite decide_False by discriminate
                  | rewrite decide_True by reflexivity]);
    first [assumption | reflexivity].
Qed.

Lemma forEach_loop_sim (confYear : jsstring) (la : nat)
    (items : list Store.value) (n k : nat) (ds : list DeadlineRecord)
    (es : list Entry) (h : Store.heap) :
  h0 !! la = Some (Store.Arr items) ->
  (k + n = length items)%nat ->
  Forall2 (is_deadline h0) (drop k items) ds ->
  bucket h0 es h ->
  exists h',
    Store.forEach_loop n k la
      (Store.visit_deadline Date_new cv month confYear (length h0)) h
    = (Store.Return tt, h') /\
    bucket h0
      (fold_left (visit_deadline Date_parse conference month confYear) ds es)
      h'.
Proof.
  intros Hla. revert k ds es h.
  induction n as [|n IH]; intros k ds es h Hlen Hds Hb.
  - rewrite drop_ge in Hds by lia. inversion Hds; subst.
    exists h. auto.
  - destruct (lookup_lt_is_Some_2 items k ltac:(lia)) as [x Hx].
    rewrite (drop_S _ _ _ Hx) in Hds.
    inversion Hds as [|? d ? ds' Hd Hds']; subst.
    cbn [Store.forEach_loop fold_left].
    rewrite (run_bind _ _ _ _ _
               (Frame.element_of_source h0 la items k h Hla (proj1 Hb))).
    rewrite Hx.
    destruct (visit_deadline_sim confYear x d es h Hd Hb) as (h1 & Hrun & Hb1).
    rewrite (run_bind _ _ _ _ _ Hrun).
    apply (IH (S k) ds' _ h1); [lia | exact Hds' | exact Hb1].
Qed.

Lemma deadlines_sim (confYear : jsstring) (l : nat)
    (props : list (jsstring * Store.value)) (yearInfo : YearInfo)
    (es : list Entry) (h : Store.heap) :
  h0 !! l = Some (Store.Obj props) ->
  is_deadlines h0 (Store.lookup_key props (js "deadlines"))
               (deadlines yearInfo) ->
  bucket h0 es h ->
  exists h',
    (if Store.truthy (Store.lookup_key props (js "deadlines"))
     then Store.bind (Store.get (Store.VRef l) (js "deadlines"))
            (fun year_deadlines =>
               Store.forEach year_deadlines
                 (Store.visit_deadline Date_new cv month confYear
                                       (length h0)))
     else Store.ret tt) h
    = (Store.Return tt, h') /\
    bucket h0
      match deadlines yearInfo with
      | Some ds =>
          fold_left (visit_deadline Date_parse conference month confYear)
                    ds es
      | None => es
      end h'.
Proof.
  intros Hl Hds Hb. pose proof (proj1 Hb) as Hpre.
  pose proof (prefix_lookup_Some _ _ _ _ Hl Hpre) as Hl'.
  destruct (deadlines yearInfo) as [ds|]; cbn [is_deadlines] in Hds.
  - destruct Hds as (la & items & Heq & Hla & Hitems). rewrite Heq.
    cbn [Store.truthy].
    rewrite (run_bind _ _ _ _ _ (get_object h l props _ Hl')), Heq.
    unfold Store.forEach.
    assert (Hread : Store.read la h = (Store.Return (Store.Arr items), h)).
    { unfold Store.read.
      rewrite (prefix_lookup_Some _ _ _ _ Hla Hpre). reflexivity. }
    rewrite (run_bind _ _ _ _ _ Hread).
    apply (forEach_loop_sim confYear la items (length items) 0 ds es h Hla);
      [lia | exact Hitems | exact Hb].
  - rewrite Hds. cbn [Store.truthy]. exists h. auto.
Qed.

Lemma conference_date_sim (l : nat) (props : list (jsstring * Store.value))
    (lc : nat) (propsc : list (jsstring * Store.value)) (k : jsstring)
    (h : Store.heap) :
  h0 !! l = Some (Store.Obj props) ->
  Store.lookup_key props (js "conference_dates") = Store.VRef lc ->
  h0 !! lc = Some (Store.Obj propsc) ->
  h0 `prefix_of` h ->
  Store.conference_date (Store.VRef l) k h
  = (Store.Return (Store.lookup_key propsc k), h).
Proof.
  intros Hl Hcd Hlc Hpre. unfold Store.conference_date.
  rewrite (run_bind _ _ _ _ _
             (get_object h l props _ (prefix_lookup_Some _ _ _ _ Hl Hpre))).
  rewrite Hcd.
  apply (get_object h lc propsc _ (prefix_lookup_Some _ _ _ _ Hlc Hpre)).
Qed.

Lemma or_else_scalar (v : scalar) :
  Store.or_else (scalar_value v) (Store.VBool false)
  = scalar_value (or_false v).
Proof.
  unfold Store.or_else, or_false. rewrite truthy_scalar_value.
  destruct (truthy v); reflexivity.
Qed.

Lemma visit_year_sim (li : nat) (confYear : jsstring) (yv : Store.value)
    (yearInfo : YearInfo) (es : list Entry) (h : Store.heap) :
  (forall h', h0 `prefix_of` h' ->
     Store.get cv (js "information") h'
     = (Store.Return (Store.VRef li), h')) ->
  (forall h', h0 `prefix_of` h' ->
     Store.get (Store.VRef li) confYear h' = (Store.Return yv, h')) ->
  is_year_info h0 yv yearInfo ->
  bucket h0 es h ->
  exists h',
    Store.visit_year Date_new cv month (length h0) confYear h
    = (Store.Return tt, h') /\
    bucket h0
      (visit_year Date_parse conference month es (confYear, yearInfo)) h'.
Proof.
  intros Hinfo Hyear (l & props & -> & Hl & Hds & Hcd & Hpred) Hb.
  unfold Store.visit_year, visit_year.
  rewrite (run_bind _ _ _ _ _ (Hinfo h (proj1 Hb))).
  rewrite (run_bind _ _ _ _ _ (Hyear h (proj1 Hb))).
  rewrite (run_bind _ _ _ _ _
             (get_object h l props _
                (prefix_lookup_Some _ _ _ _ Hl (proj1 Hb)))).
  destruct (deadlines_sim confYear l props yearInfo es h Hl Hds Hb)
    as (h1 & Hrun & Hb1).
  rewrite (run_bind _ _ _ _ _ Hrun). clear Hrun.
  set (es1 := match deadlines yearInfo with
              | Some ds =>
                  fold_left
                    (visit_deadline Date_parse conference month confYear)
                    ds es
              | None => es
              end) in *.
  pose proof (proj1 Hb1) as Hpre1.
  pose proof (prefix_lookup_Some _ _ _ _ Hl Hpre1) as Hl1.
  rewrite (run_bind _ _ _ _ _ (get_object h1 l props _ Hl1)).
  destruct (conference_dates yearInfo) as [cd|];
    cbn [is_conference_dates] in Hcd.
  2:{ rewrite Hcd. cbn [Store.truthy].
      rewrite (run_bind _ _ _ _ _ (eq_refl : Store.ret _ h1 = _)).
      cbn [Store.truthy]. exists h1. auto. }
  destruct Hcd as (lc & propsc & Heq & Hlc & Hstart & Hend).
  rewrite Heq. cbn [Store.truthy].
  pose proof (fun k h' => conference_date_sim l props lc propsc k h'
                            Hl Heq Hlc) as Hcdate.
  rewrite (run_bind _ _ _ _ _ (Hcdate _ h1 Hpre1)), Hstart.
  rewrite truthy_opt_value.
  destruct (truthy_opt (cd_start cd)) eqn:Htruthy; [|exists h1; auto].
  rewrite (run_bind _ _ _ _ _ (Hcdate _ h1 Hpre1)), Hstart.
  rewrite (run_bind _ _ _ _ _ (new_Date_truthy h1 _ Htruthy)).
  destruct (in_month (Date_of Date_parse (cd_start cd)) month);
    [|exists h1; auto].
  rewrite (run_bind _ _ _ _ _ (Hcdate _ h1 Hpre1)), Hstart.
  rewrite (run_bind _ _ _ _ _ (Hcdate _ h1 Hpre1)), Hend.
  rewrite (run_bind _ _ _ _ _ (get_object h1 l props _ Hl1)), Hpred.
  rewrite (run_bind _ _ _ _ _ (get_short_name h1 Hpre1)).
  apply bucket_push; [exact Hb1|].
  unfold entry_props, conference_entry.
  cbn [e_type e_date e_endDate e_label e_is_predicted e_conferenceName
       e_conferenceYear opt_value Store.lookup_key].
  rewrite or_else_scalar.
  repeat split;
    repeat (first [rewrite decide_False by discriminate
                  | rewrite decide_True by reflexivity]);
    reflexivity.
Qed.

Lemma forEach_key_sim (li : nat) (propsi : list (jsstring * Store.value))
    (ps : list (jsstring * Store.value)) (info : list (jsstring * YearInfo))
    (es : list Entry) (h : Store.heap) :
  (forall h', h0 `prefix_of` h' ->
     Store.get cv (js "information") h'
     = (Store.Return (Store.VRef li), h')) ->
  h0 !! li = Some (Store.Obj propsi) ->
  NoDup (map fst propsi) ->
  (forall p, In p ps -> In p propsi) ->
  Forall2 (fun p kv => p.1 = kv.1 /\ is_year_info h0 p.2 kv.2) ps info ->
  bucket h0 es h ->
  exists h',
    Store.forEach_key (map fst ps)
      (Store.visit_year Date_new cv month (length h0)) h
    = (Store.Return tt, h') /\
    bucket h0 (fold_left (visit_year Date_parse conference month) info es) h'.
Proof.
  intros Hinfo Hli Hnd Hsub Hps. revert es h.
  induction Hps as [|[k yv] [k' yi] ps info [Hk Hyi] Hps IH]; intros es h Hb.
  - exists h. auto.
  - cbn [fst snd] in Hk, Hyi. subst k'.
    cbn [map fst Store.forEach_key fold_left].
    assert (Hyear : forall h', h0 `prefix_of` h' ->
              Store.get (Store.VRef li) k h' = (Store.Return yv, h')).
    { intros h' Hpre'.
      rewrite (get_object h' li propsi _
                 (prefix_lookup_Some _ _ _ _ Hli Hpre')).
      rewrite (lookup_key_NoDup propsi k yv Hnd
                 (Hsub (k, yv) (or_introl eq_refl))).
      reflexivity. }
    destruct (visit_year_sim li k yv yi es h Hinfo Hyear Hyi Hb)
      as (h1 & Hrun & Hb1).
    rewrite (run_bind _ _ _ _ _ Hrun).
    apply IH; [|exact Hb1].
    intros p Hp. apply Hsub. right. exact Hp.
Qed.

(** On a store that holds the record, the bucketizer over the store
    returns, and returns a new array of new objects that are the entries
    of the bucket. *)
Lemma getDeadlinesInMonth_sim :
  exists h',
    Store.getDeadlinesInMonth Date_new cv month h0
    = (Store.Return (Store.VRef (length h0)), h') /\
    bucket h0 (getDeadlinesInMonth Date_parse conference month) h'.
Proof.
  unfold Store.getDeadlinesInMonth, getDeadlinesInMonth.
  rewrite (run_bind _ _ _ _ _
             (eq_refl : Store.alloc (Store.Arr []) h0
                        = (Store.Return (length h0), h0 ++ [Store.Arr []]))).
  assert (Hb : bucket h0 [] (h0 ++ [Store.Arr []])).
  { split; [apply prefix_app_r; reflexivity|].
    exists []. split; [apply list_lookup_middle; reflexivity | constructor]. }
  pose proof Hconference as (l & props & Hcv & Hl & _ & Hinfo).
  assert (Hget : forall h', h0 `prefix_of` h' ->
            Store.get cv (js "information") h'
            = (Store.Return (Store.lookup_key props (js "information")), h')).
  { intros h' Hpre'. rewrite Hcv.
    apply (get_object h' l props _ (prefix_lookup_Some _ _ _ _ Hl Hpre')). }
  pose proof (Hget _ (proj1 Hb)) as Hg.
  rewrite (run_bind _ _ _ _ _ Hg).
  destruct (information conference) as [info|];
    cbn [is_information] in Hinfo.
  2:{ rewrite Hinfo. cbn [Store.truthy].
      rewrite (run_bind _ _ _ _ _ (eq_refl : Store.ret tt _ = _)).
      eexists. split; [reflexivity | exact Hb]. }
  destruct Hinfo as (li & propsi & Heq & Hli & Hnd & Hps).
  rewrite Heq in *. cbn [Store.truthy].
  assert (Hinner :
    exists h',
      Store.bind (Store.get cv (js "information"))
        (fun information =>
           Store.bind (Store.Object_keys information)
             (fun keys =>
                Store.bind (Store.alloc (Store.Arr (map Store.VString keys)))
                  (fun _ =>
                     Store.forEach_key keys
                       (Store.visit_year Date_new cv month (length h0)))))
        (h0 ++ [Store.Arr []])
      = (Store.Return tt, h') /\
      bucket h0 (fold_left (visit_year Date_parse conference month) info [])
             h').
  { rewrite (run_bind _ _ _ _ _ Hg).
    assert (Hkeys : Store.Object_keys (Store.VRef li) (h0 ++ [Store.Arr []])
                    = (Store.Return (map fst propsi), h0 ++ [Store.Arr []])).
    { unfold Store.Object_keys, Store.bind, Store.read.
      rewrite (lookup_app_l_Some _ _ _ _ Hli). reflexivity. }
    rewrite (run_bind _ _ _ _ _ Hkeys).
    rewrite (run_bind _ _ _ _ _
               (eq_refl : Store.alloc (Store.Arr (map Store.VString
                                                      (map fst propsi)))
                            (h0 ++ [Store.Arr []])
                          = (Store.Return _, _))).
    apply (forEach_key_sim li propsi propsi info []); try assumption.
    - auto.
    - apply bucket_alloc. exact Hb. }
  destruct Hinner as (h' & Hrun & Hb').
  rewrite (run_bind _ _ _ _ _ Hrun).
  exists h'. split; [reflexivity | exact Hb'].
Qed.

End Simulation.

End Refinement.

(** ** Dates that cannot be read, and missing structure *)


Lemma ice_undated_in_store :
  is_conference_record ice_undated_store (Store.VRef 5) ice_undated.
Proof.
  eexists 5%nat, _. split; [reflexivity|]. split; [reflexivity|].
  split; [reflexivity|].
  eexists 4%nat, _. split; [reflexivity|]. split; [reflexivity|].
  split; [repeat constructor; intros H; inversion H|].
  constructor; [|constructor]. split; [reflexivity|].
  eexists 3%nat, _. split; [reflexivity|]. split; [reflexivity|].
  split; [|split; reflexivity].
  eexists 2%nat, _. split; [reflexivity|]. split; [reflexivity|].
  constructor; [|constructor; [|constructor]].
  - eexists 0%nat, _. repeat split.
  - eexists 1%nat, _. repeat split.
Qed.



Lemma no_start_not_in_month (Date_parse : jsstring -> Date)
    (slot : MonthSlot) (yearInfo : YearInfo) :
  no_start yearInfo -> start_in_month Date_parse slot yearInfo = false.
Proof.
  unfold start_in_month. intros [-> | (cd & -> & ->)]; reflexivity.
Qed.




(** * Further properties of the code *)

(** ** Theme prefix *)

Lemma trimStart_suffix (s : jsstring) : exists pre, s = pre ++ trimStart s.
Proof.
  induction s as [|c s [pre IH]]; [exists []; reflexivity|].
  cbn [trimStart]. destruct (is_space c).
  - exists (c :: pre). cbn [app]. rewrite <- IH. reflexivity.
  - exists []. reflexivity.
Qed.

Lemma trim_substring (s : jsstring) : substring (trim s) s.
Proof.
  unfold trim, trimEnd.
  destruct (trimStart_suffix s) as [pre Hpre].
  destruct (trimStart_suffix (rev (trimStart s))) as [post Hpost].
  exists pre, (rev post).
  rewrite Hpre at 1. f_equal.
  rewrite <- (rev_involutive (trimStart s)) at 1.
  rewrite Hpost at 1. rewrite rev_app_distr. reflexivity.
Qed.

Lemma substring_trans (a b c : jsstring) :
  substring a b -> substring b c -> substring a c.
Proof.
  intros (p1 & q1 & ->) (p2 & q2 & ->).
  exists (p2 ++ p1), (q1 ++ q2). rewrite <- !app_assoc. reflexivity.
Qed.

Lemma replace_number_prefix_suffix (s : jsstring) :
  exists pre, s = pre ++ replace_number_prefix s.
Proof.
  unfold replace_number_prefix.
  destruct (match_number_prefix s) as [rest|] eqn:Hm; [|exists []; reflexivity].
  apply match_number_prefix_spec in Hm as (digits & seps & Hs & _).
  exists (digits ++ seps). rewrite <- app_assoc. exact Hs.
Qed.

(** X1.  [stripThemePrefix] only removes: what it returns occurs in the
    theme as one piece, and is not longer than the theme. *)
Theorem stripThemePrefix_substring (theme : jsstring) :
  substring (stripThemePrefix theme) theme /\
  (length (stripThemePrefix theme) <= length theme)%nat.
Proof.
  assert (H : substring (stripThemePrefix theme) theme).
  { unfold stripThemePrefix. destruct (negb (truthy_string theme)).
    - exists [], []. rewrite app_nil_r. reflexivity.
    - apply (substring_trans _ (replace_number_prefix theme)).
      + apply trim_substring.
      + destruct (replace_number_prefix_suffix theme) as [pre Hpre].
        exists pre, []. rewrite app_nil_r. exact Hpre. }
  split; [exact H|].
  destruct H as (pre & post & H).
  apply (f_equal (@length N)) in H. rewrite !length_app in H. lia.
Qed.

(** X2.  The number is looked for at the very start of the theme, before
    the white space is trimmed: a theme that begins with white space
    keeps its number. *)
Theorem stripThemePrefix_after_space (c : N) (theme : jsstring) :
  is_space c = true ->
  stripThemePrefix (c :: theme) = trim theme /\
  match_number_prefix (c :: theme) = None.
Proof.
  intros Hc.
  assert (Hd : is_digit c = false).
  { destruct (is_digit c) eqn:Hd; [|reflexivity].
    apply digit_not_dot_or_space in Hd. unfold is_dot_or_space in Hd.
    rewrite Hc, orb_true_r in Hd. discriminate. }
  assert (Hm : match_number_prefix (c :: theme) = None).
  { unfold match_number_prefix. cbn [match_plus]. rewrite Hd. reflexivity. }
  split; [|exact Hm].
  unfold stripThemePrefix, replace_number_prefix. rewrite Hm.
  cbn [truthy_string negb]. unfold trim. cbn [trimStart]. rewrite Hc.
  reflexivity.
Qed.

Lemma stripThemePrefix_after_space_witness :
  stripThemePrefix (js " 01. Systems") = js "01. Systems".
Proof.
  exact (proj1 (stripThemePrefix_after_space 32 (js "01. Systems") eq_refl)).
Defined.

(** ** Filter *)

Lemma filter_sublist {A : Type} (f g : A -> bool) (l : list A) :
  (forall x, f x = true -> g x = true) ->
  List.filter f l `sublist_of` List.filter g l.
Proof.
  intros Hfg. induction l as [|x l IH]; [constructor|].
  cbn [List.filter]. destruct (f x) eqn:Hf.
  - rewrite (Hfg x Hf). constructor. exact IH.
  - destruct (g x); [constructor|]; exact IH.
Qed.

Lemma existsb_has_subseteq (selected selected' : gset jsstring)
    (ts : list (option jsstring)) :
  selected ⊆ selected' ->
  existsb (fun theme => has selected theme) ts = true ->
  existsb (fun theme => has selected' theme) ts = true.
Proof.
  intros Hsub. rewrite !existsb_exists. intros (t & Hin & Ht).
  exists t. split; [exact Hin|].
  destruct t as [t|]; [|discriminate]. cbn [has] in *.
  apply bool_decide_eq_true. apply bool_decide_eq_true in Ht.
  apply Hsub. exact Ht.
Qed.

(** X3.  Selecting more themes never hides a conference: with the same
    search string, the list filtered with a set of themes is a
    subsequence of the list filtered with a larger set. *)
Theorem applyFilters_more_themes (toLowerCase : jsstring -> jsstring)
    (this : ConferenceCalendar) (selected selected' : gset jsstring) :
  selected ⊆ selected' ->
  filteredConferences (applyFilters toLowerCase (with_themes selected this))
  `sublist_of`
  filteredConferences (applyFilters toLowerCase (with_themes selected' this)).
Proof.
  intros Hsub. cbn [filteredConferences applyFilters conferences with_themes].
  apply filter_sublist. intros conf. unfold filter_callback.
  cbn [currentFilters with_themes fs_themes fs_search].
  destruct (size selected =? 0)%nat eqn:Hsize; [discriminate|].
  destruct (existsb (fun theme => has selected theme) (confThemes conf))
    eqn:Hhas; [|discriminate].
  rewrite (existsb_has_subseteq _ _ _ Hsub Hhas).
  assert (Hsize' : (size selected' =? 0)%nat = false).
  { apply Nat.eqb_neq. apply Nat.eqb_neq in Hsize.
    pose proof (subseteq_size _ _ Hsub). lia. }
  rewrite Hsize'. exact (fun H => H).
Qed.

Lemma applyFilters_more_themes_witness :
  filteredConferences
    (applyFilters ascii_toLowerCase
       (with_themes {[ js "T" ]} (calendar_with [conf_sigmod; conf_abc] [] [])))
  `sublist_of`
  filteredConferences
    (applyFilters ascii_toLowerCase
       (with_themes ({[ js "T" ]} ∪ {[ js "03. Databases" ]})
                    (calendar_with [conf_sigmod; conf_abc] [] []))).
Proof.
  apply applyFilters_more_themes. apply union_subseteq_l.
Defined.

(** X4.  A longer search string never adds a conference: when the search
    string occurs in a second one, the list filtered with the second is
    a subsequence of the list filtered with the first. *)
Theorem applyFilters_longer_search (toLowerCase : jsstring -> jsstring)
    (this : ConferenceCalendar) (search search' : jsstring) :
  substring search search' ->
  filteredConferences (applyFilters toLowerCase (with_search search' this))
  `sublist_of`
  filteredConferences (applyFilters toLowerCase (with_search search this)).
Proof.
  intros Hsub. cbn [filteredConferences applyFilters conferences with_search].
  apply filter_sublist. intros conf. unfold filter_callback.
  cbn [currentFilters with_search fs_themes fs_search].
  destruct (size (fs_themes (currentFilters this)) =? 0)%nat; [discriminate|].
  destruct (negb _); [discriminate|].
  destruct search as [|c search]; [reflexivity|].
  assert (Hne : truthy_string search' = true).
  { destruct Hsub as (pre & post & ->). destruct pre; reflexivity. }
  rewrite Hne. cbn [truthy_string].
  assert (Hinc : forall t, includes t search' = true ->
                           includes t (c :: search) = true).
  { intros t. rewrite !includes_substring. intros H.
    exact (substring_trans _ _ _ Hsub H). }
  assert (Ht : existsb (fun theme =>
                          includes (toLowerCase (or_empty theme)) search')
                       (confThemes conf) = true ->
               existsb (fun theme =>
                          includes (toLowerCase (or_empty theme))
                                   (c :: search))
                       (confThemes conf) = true).
  { rewrite !existsb_exists. intros (t & Hin & Ht).
    exists t. split; [exact Hin | exact (Hinc _ Ht)]. }
  pose proof (Hinc (toLowerCase (or_empty (name conf)))) as Hn.
  pose proof (Hinc (toLowerCase (or_empty (short_name conf)))) as Hs.
  destruct (includes (toLowerCase (or_empty (name conf))) search');
    [rewrite (Hn eq_refl); reflexivity|].
  destruct (includes (toLowerCase (or_empty (short_name conf))) search');
    [rewrite (Hs eq_refl); intros _;
     destruct (includes _ (c :: search)); reflexivity|].
  destruct (existsb _ (confThemes conf)); [|discriminate].
  rewrite (Ht eq_refl). intros _.
  destruct (includes _ (c :: search)), (includes _ (c :: search));
    reflexivity.
Qed.

Lemma applyFilters_longer_search_witness :
  filteredConferences
    (applyFilters ascii_toLowerCase
       (with_search (js "sigm")
          (calendar_with [conf_sigmod; conf_abc]
                         [js "T"; js "03. Databases"] [])))
  `sublist_of`
  filteredConferences
    (applyFilters ascii_toLowerCase
       (with_search (js "sig")
          (calendar_with [conf_sigmod; conf_abc]
                         [js "T"; js "03. Databases"] []))).
Proof.
  apply applyFilters_longer_search. exists [], (js "m"). reflexivity.
Defined.

(** X5.  When [themes] is an array the legacy [theme] is not looked at;
    a record whose [themes] is the empty array is in no filtered list,
    whatever its [theme] and whatever is selected. *)
Theorem applyFilters_empty_themes_array
    (toLowerCase : jsstring -> jsstring) (this : ConferenceCalendar)
    (conf : ConferenceRecord) :
  themes conf = Some [] ->
  ~ In conf (filteredConferences (applyFilters toLowerCase this)).
Proof.
  intros Hthemes Hin. cbn [filteredConferences applyFilters] in Hin.
  apply filter_In in Hin as [_ Hkeep]. unfold filter_callback in Hkeep.
  unfold confThemes in Hkeep. rewrite Hthemes in Hkeep.
  cbn [map existsb negb] in Hkeep.
  destruct (size _ =? 0)%nat; discriminate.
Qed.

Lemma applyFilters_empty_themes_array_witness :
  ~ In (mkConference (Some (js "abc")) None None None (Some (js "T"))
                     (Some []) None None)
       (filteredConferences
          (applyFilters ascii_toLowerCase
             (calendar_with
                [mkConference (Some (js "abc")) None None None
                              (Some (js "T")) (Some []) None None]
                [js "T"] []))).
Proof.
  apply applyFilters_empty_themes_array. reflexivity.
Defined.

(** ** Month window *)

(** X6.  Whatever the year, [currentMonthIndex] is the number of months
    from April to the current month (0 to 11), so the current month is
    looked for in the first twelve columns, and the scroll position
    [scrollToCurrentMonth] asks for is 150 times that number. *)
Theorem generateMonths_index_range (y m d : Z) (this : ConferenceCalendar) :
  valid_date (LocalDate y m d) ->
  currentMonthIndex (generateMonths (LocalDate y m d) this)
  = Some (Int ((m + 9) mod 12)) /\
  0 <= (m + 9) mod 12 <= 11 /\
  scrollToCurrentMonth (generateMonths (LocalDate y m d) this)
  = Some (Int ((m + 9) mod 12 * 150)).
Proof.
  intros [Hm _].
  assert (Hidx : (y - fiscal_year y m) * 12 + (m - 3) = (m + 9) mod 12).
  { unfold fiscal_year. destruct (m <? 3) eqn:Hlt.
    - apply Z.ltb_lt in Hlt.
      replace ((y - (y - 1)) * 12 + (m - 3)) with (m + 9) by lia.
      symmetry. apply Z.mod_small. lia.
    - apply Z.ltb_ge in Hlt.
      replace ((y - y) * 12 + (m - 3)) with (m - 3) by lia.
      replace (m + 9) with (m - 3 + 1 * 12) by lia.
      rewrite Z.mod_add by lia. symmetry. apply Z.mod_small. lia. }
  unfold scrollToCurrentMonth. rewrite generateMonths_index, Hidx.
  split; [reflexivity|]. split; [|reflexivity].
  pose proof (Z.mod_pos_bound (m + 9) 12). lia.
Qed.

Lemma generateMonths_index_range_witness :
  currentMonthIndex (generateMonths (LocalDate 2026 1 20) new_calendar)
  = Some (Int 10) /\
  scrollToCurrentMonth (generateMonths (LocalDate 2026 1 20) new_calendar)
  = Some (Int 1500).
Proof.
  assert (Hv : valid_date (LocalDate 2026 1 20)).
  { unfold valid_date. change (days_in_month 2026 1) with 28. lia. }
  destruct (generateMonths_index_range 2026 1 20 new_calendar Hv)
    as (Hi & _ & Hs).
  split; [exact Hi | exact Hs].
Defined.

(** ** Deadline buckets, markers and popups *)

Lemma bucket_entry (Date_parse : jsstring -> Date)
    (conference : ConferenceRecord) (slot : MonthSlot) (e : Entry) :
  In e (getDeadlinesInMonth Date_parse conference slot) ->
  exists confYear yearInfo s,
    In (confYear, yearInfo) (default [] (information conference)) /\
    e_conferenceName e = short_name conference /\
    e_conferenceYear e = confYear /\
    e_date e = Some s /\ date_in_slot Date_parse s slot.
Proof.
  rewrite getDeadlinesInMonth_entries. intros He.
  apply in_flat_map in He as ([confYear yearInfo] & Hkv & He).
  unfold year_entries in He. cbn [fst snd] in He.
  exists confYear, yearInfo.
  apply in_app_or in He as [He | He].
  - apply in_map_iff in He as (dl & <- & Hdl).
    apply filter_In in Hdl as [_ Hdl].
    apply deadline_in_month_slot in Hdl as (s & Hs & Hslot).
    exists s. auto.
  - destruct (conference_dates yearInfo) as [cd|] eqn:Hcd; [|destruct He].
    destruct (start_in_month Date_parse slot yearInfo) eqn:Hin;
      [|destruct He].
    destruct He as [<- | []].
    apply start_in_month_slot in Hin as (cd' & s & Hcd' & Hs & Hslot).
    rewrite Hcd in Hcd'. injection Hcd' as <-.
    exists s. auto.
Qed.

(** X7.  Every marker of the column of a month begins with the number of
    that month and a slash: the marker of a deadline reads month/day, and
    the marker of a conference, which is put in the month of its start,
    begins with the month and the day of the start. *)
Theorem marker_begins_with_month (Date_parse : jsstring -> Date)
    (conference : ConferenceRecord) (slot : MonthSlot) (e : Entry) :
  In e (getDeadlinesInMonth Date_parse conference slot) ->
  exists (m d : Z) (rest : jsstring),
    month slot = Int m /\
    textContent (createDeadlineMarker Date_parse e).1
    = digits_of m ++ js "/" ++ digits_of d ++ rest.
Proof.
  intros He.
  apply bucket_entry in He
    as (_ & _ & s & _ & _ & _ & Hs & _ & y & m & d & Hp & _ & Hm).
  rewrite createDeadlineMarker_text, Hs. cbn [Date_of]. rewrite Hp.
  cbn [getMonth getDate num_add num_toString].
  exists (m + 1), d.
  destruct (is_conference (e_type e) && truthy_opt (e_endDate e)).
  - eexists. split; [exact Hm|]. reflexivity.
  - exists []. split; [exact Hm|]. rewrite app_nil_r. reflexivity.
Qed.

Lemma marker_begins_with_month_witness :
  exists (m d : Z) (rest : jsstring),
    month (slot_of 2026 3) = Int m /\
    textContent
      (createDeadlineMarker (Date_parse_iso false)
         (deadline_entry ice_dated (js "2026") submission_2026_03_10)).1
    = digits_of m ++ js "/" ++ digits_of d ++ rest.
Proof.
  apply (marker_begins_with_month (Date_parse_iso false) ice_dated).
  left. reflexivity.
Defined.



(** ** Month headers *)

Lemma generateMonths_slots (y m d : Z) (this : ConferenceCalendar) :
  99 < fiscal_year y m ->
  months (generateMonths (LocalDate y m d) this)
  = map (fun k => month_slot (LocalDate (fiscal_year y m) 3 1) (Z.of_nat k))
        (seq 0 24).
Proof.
  intros Hfy. unfold generateMonths. cbn [months].
  rewrite fiscalYearStart_fiscal_year.
  set (fy := fiscal_year y m) in *.
  cbn [num_add]. rewrite (Date_ymd_first_of_month fy 3 Hfy).
  rewrite (Date_ymd_end_of_march (fy + 2)) by lia.
  change (3 / 12) with 0. change (3 mod 12) with 3. rewrite Z.add_0_r.
  cbn [getFullYear getMonth num_sub num_mul num_add iterations].
  replace ((fy + 2 - fy) * 12 + (2 - 3) + 1) with 24 by lia.
  change (Z.to_nat 24) with 24%nat.
  rewrite push_months_map. apply map_ext. intros k.
  rewrite Z.add_0_l. reflexivity.
Qed.

Lemma month_slot_fields (fy i : Z) :
  99 < fy ->
  year (month_slot (LocalDate fy 3 1) i) = Int (fy + (3 + i) / 12) /\
  month (month_slot (LocalDate fy 3 1) i) = Int ((3 + i) mod 12 + 1) /\
  label (month_slot (LocalDate fy 3 1) i)
  = digits_of (fy + (3 + i) / 12) ++ js "/"
    ++ padStart2 (digits_of ((3 + i) mod 12 + 1)).
Proof.
  intros Hfy. unfold month_slot.
  cbn [getFullYear getMonth year month label num_add].
  rewrite (Date_ymd_first_of_month fy (3 + i) Hfy).
  cbn [getFullYear getMonth num_add num_toString]. auto.
Qed.

Lemma is_current_month_slot (y m d fy : Z) (k : nat) :
  0 <= m <= 11 -> fy = fiscal_year y m -> 99 < fy -> (k < 24)%nat ->
  is_current_month (LocalDate y m d)
                   (month_slot (LocalDate fy 3 1) (Z.of_nat k))
  = bool_decide (k = Z.to_nat ((m + 9) mod 12)).
Proof.
  intros Hm Hfy Hbig Hk. unfold is_current_month.
  destruct (month_slot_fields fy (Z.of_nat k) Hbig) as (-> & -> & _).
  cbn [getFullYear getMonth num_add num_eq].
  assert (Hidx : (m + 9) mod 12 = if m <? 3 then m + 9 else m - 3).
  { destruct (m <? 3) eqn:Hlt.
    - apply Z.ltb_lt in Hlt. apply Z.mod_small. lia.
    - apply Z.ltb_ge in Hlt. replace (m + 9) with (m - 3 + 1 * 12) by lia.
      rewrite Z.mod_add by lia. apply Z.mod_small. lia. }
  rewrite Hidx. subst fy. unfold fiscal_year in *.
  pose proof (Z.div_mod (3 + Z.of_nat k) 12 ltac:(lia)) as Hdiv.
  pose proof (Z.mod_pos_bound (3 + Z.of_nat k) 12 ltac:(lia)) as Hmod.
  destruct (m <? 3) eqn:Hlt;
    [apply Z.ltb_lt in Hlt | apply Z.ltb_ge in Hlt];
    destruct (bool_decide_reflect (k = Z.to_nat (if false then m + 9 else m - 3)));
    destruct (bool_decide_reflect (k = Z.to_nat (if true then m + 9 else m - 3)));
    cbn iota in *;
    try (apply andb_true_iff; rewrite !Z.eqb_eq; lia);
    try (apply andb_false_iff; rewrite !Z.eqb_neq; lia).
Qed.

Lemma highlighted_element (tag class : jsstring) (b : bool)
    (attrs styles : list (jsstring * jsstring)) (children : list Node) :
  highlighted (Element tag class
                       (if b then [js "current-month"] else [])
                       attrs styles children) = b.
Proof.
  destruct b; cbn [highlighted].
  - apply bool_decide_eq_true. apply list_elem_of_here.
  - apply bool_decide_eq_false. apply not_elem_of_nil.
Qed.



(** ** Conference rows *)

Lemma fold_left_pairs {A B C : Type} (f : A -> B * list C) (l : list A)
    (acc : list B * list C) :
  fold_left (fun acc x => (acc.1 ++ [(f x).1], acc.2 ++ (f x).2)) l acc
  = (acc.1 ++ map (fun x => (f x).1) l,
     acc.2 ++ flat_map (fun x => (f x).2) l).
Proof.
  revert acc. induction l as [|x l IH]; intros [bs cs].
  - cbn. rewrite !app_nil_r. reflexivity.
  - cbn [fold_left map flat_map fst snd]. rewrite IH. cbn [fst snd].
    rewrite <- !app_assoc. reflexivity.
Qed.

Section RowProperties.

Variable Date_parse : jsstring -> Date.

Lemma month_column_silent (now : Date) (conference : ConferenceRecord)
    (slot : MonthSlot) :
  (month_column Date_parse now conference slot).2 = [].
Proof.
  unfold month_column. cbn [snd]. rewrite map_map.
  assert (H : forall es : list Entry,
             (forall e, In e es ->
                        (createDeadlineMarker Date_parse e).2 = []) ->
             concat (map (fun e => (createDeadlineMarker Date_parse e).2) es)
             = []).
  { induction es as [|e es IH]; intros Hes; [reflexivity|].
    cbn [map concat]. rewrite (Hes e (or_introl eq_refl)).
    apply IH. intros e' He'. apply Hes. right. exact He'. }
  apply H. intros e He.
  apply bucket_dates_read in He as (s & y & m & d & Hs & _ & Hp).
  exact (createDeadlineMarker_silent Date_parse e s y m d Hs Hp).
Qed.

Lemma createConferenceRow_timeline (now : Date) (this : ConferenceCalendar)
    (conference : ConferenceRecord) :
  row_columns (createConferenceRow Date_parse now this conference).1
  = map (fun slot => (month_column Date_parse now conference slot).1)
        (months this) /\
  (createConferenceRow Date_parse now this conference).2 = [].
Proof.
  unfold createConferenceRow. cbn zeta.
  rewrite (fold_left_pairs (month_column Date_parse now conference)).
  cbn [fst snd row_columns childNodes_of app]. split; [reflexivity|].
  induction (months this) as [|slot slots IH]; [reflexivity|].
  cbn [flat_map]. rewrite month_column_silent. exact IH.
Qed.

Lemma renderConferenceRows_map (now : Date) (this : ConferenceCalendar) :
  filteredConferences this <> [] ->
  (renderConferenceRows Date_parse now this).1
  = map (fun conf =>
           (createConferenceRow Date_parse now this
                                (with_flagship None conf)).1)
        (filteredConferences this).
Proof.
  intros Hne. unfold renderConferenceRows.
  destruct (filteredConferences this) as [|conf confs]; [congruence|].
  cbn [length Nat.eqb]. cbn zeta.
  rewrite (fold_left_pairs (createConferenceRow Date_parse now this)).
  cbn [fst app]. unfold groupConferencesByName. rewrite map_map.
  reflexivity.
Qed.

End RowProperties.

Lemma renderConferenceRows_console (Date_parse : jsstring -> Date)
    (now : Date) (this : ConferenceCalendar) :
  (renderConferenceRows Date_parse now this).2 = [].
Proof.
  unfold renderConferenceRows.
  destruct (length (filteredConferences this) =? 0)%nat; [reflexivity|].
  cbn zeta.
  rewrite (fold_left_pairs (createConferenceRow Date_parse now this)).
  cbn [snd app].
  induction (groupConferencesByName (filteredConferences this))
    as [|group groups IH]; [reflexivity|].
  cbn [flat_map].
  rewrite (proj2 (createConferenceRow_timeline Date_parse now this group)).
  exact IH.
Qed.

(** X10.  Rendering the calendar never writes to the console: the
    warning of [createDeadlineMarker] is for a marker whose text is empty
    or [NaN/NaN], and the date of every entry of a bucket has been read
    before its marker is made. *)
Theorem renderCalendar_console (Date_parse : jsstring -> Date)
    (now : Date) (page : Page) :
  console (renderCalendar Date_parse now page) = console page /\
  forall conference slot e,
    In e (getDeadlinesInMonth Date_parse conference slot) ->
    (createDeadlineMarker Date_parse e).2 = [].
Proof.
  split.
  - unfold renderCalendar. cbn [console].
    rewrite renderConferenceRows_console. apply app_nil_r.
  - intros conference slot e He.
    apply bucket_dates_read in He as (s & y & m & d & Hs & _ & Hp).
    exact (createDeadlineMarker_silent Date_parse e s y m d Hs Hp).
Qed.

(** X11.  With no conference left by the filter, the list shows the one
    message that nothing was found; otherwise it shows one row per
    filtered record, in the order of the records, each with the name of
    its record: records that have the same name are not merged. *)
Theorem renderConferenceRows_one_row_per_record
    (Date_parse : jsstring -> Date) (now : Date) (this : ConferenceCalendar) :
  (filteredConferences this = [] ->
   (renderConferenceRows Date_parse now this).1 = [noDataDiv]) /\
  (filteredConferences this <> [] ->
   map (fun row => map text_of (row_fullName row))
       (renderConferenceRows Date_parse now this).1
   = map (fun conf => [or_empty (name conf)]) (filteredConferences this)).
Proof.
  split.
  - intros Hnil. unfold renderConferenceRows. rewrite Hnil. reflexivity.
  - intros Hne. rewrite (renderConferenceRows_map _ _ _ Hne), map_map.
    apply map_ext. intros conf. unfold createConferenceRow.
    cbn [fst row_fullName childNodes_of map with_flagship name].
    destruct (name conf) as [[|c n]|]; cbn [textContent_set text_of
      childNodes_of flat_map or_empty truthy_string];
      rewrite ?app_nil_r; reflexivity.
Qed.

(** X12.  The badges of a rendered row are the badges of the non-empty
    themes of its record, each with the theme stripped of its number, and
    nothing else: [groupConferencesByName] does not copy [flagship], so
    the flagship badge, which [createConferenceRow] makes for a record
    with [flagship], is never in the list. *)
Theorem renderConferenceRows_badges (Date_parse : jsstring -> Date)
    (now : Date) (this : ConferenceCalendar) :
  (filteredConferences this <> [] ->
   map row_badges (renderConferenceRows Date_parse now this).1
   = map (fun conf =>
            map theme_badge
                (List.filter truthy_string (effective_themes conf)))
         (filteredConferences this)) /\
  (forall conf,
      flagship conf = Some true ->
      row_badges (createConferenceRow Date_parse now this conf).1
      = map theme_badge (List.filter truthy_string (effective_themes conf))
        ++ [Element (js "span") (js "badge badge-flagship") [] [] []
                    [Text (js "Flagship")]]).
Proof.
  assert (Hbadges : forall conf,
    flat_map (fun theme =>
                match theme with
                | Some (c :: t) =>
                    [Element (js "span") (js "badge badge-theme") [] [] []
                             (textContent_set
                                (Some (stripThemePrefix (c :: t))))]
                | _ => []
                end)
             (confThemes conf)
    = map theme_badge (List.filter truthy_string (effective_themes conf))).
  { intros conf. unfold confThemes, effective_themes.
    destruct (themes conf) as [ts|].
    - induction ts as [|[|c t] ts IH]; [reflexivity|exact IH|].
      cbn [map flat_map List.filter truthy_string app]. rewrite <- IH.
      reflexivity.
    - destruct (theme conf) as [[|c t]|]; reflexivity. }
  split.
  - intros Hne. rewrite (renderConferenceRows_map _ _ _ Hne), map_map.
    apply map_ext. intros conf. unfold createConferenceRow.
    cbn [fst row_badges childNodes_of with_flagship flagship].
    rewrite app_nil_r. exact (Hbadges (with_flagship None conf)).
  - intros conf Hflag. unfold createConferenceRow.
    cbn [fst row_badges childNodes_of]. rewrite Hflag, Hbadges.
    reflexivity.
Qed.

(** X13.  A rendered row has one column per month of the window, marked
    as the current month exactly where the header of that month is, and
    the column of a month holds one marker per entry of the bucket of
    that month. *)
Theorem renderConferenceRows_columns (Date_parse : jsstring -> Date)
    (now : Date) (this : ConferenceCalendar) :
  filteredConferences this <> [] ->
  map (fun row => map highlighted (row_columns row))
      (renderConferenceRows Date_parse now this).1
  = map (fun _ => map highlighted (renderMonthHeaders now this))
        (filteredConferences this) /\
  map (fun row => map (fun column => length (childNodes_of column))
                      (row_columns row))
      (renderConferenceRows Date_parse now this).1
  = map (fun conf =>
           map (fun slot =>
                  length (getDeadlinesInMonth Date_parse conf slot))
               (months this))
        (filteredConferences this).
Proof.
  intros Hne. rewrite (renderConferenceRows_map _ _ _ Hne), !map_map.
  split; apply map_ext; intros conf;
    rewrite (proj1 (createConferenceRow_timeline Date_parse now this _)),
            map_map.
  - unfold renderMonthHeaders. rewrite map_map. apply map_ext. intros slot.
    unfold month_column. cbn [fst]. rewrite !highlighted_element.
    reflexivity.
  - apply map_ext. intros slot. unfold month_column.
    cbn [fst childNodes_of]. rewrite !length_map.
    unfold getDeadlinesInMonth. reflexivity.
Qed.

(** ** Loading *)

Lemma loadData_feed (first second : Fetched) (page : Page) :
  loadData first second page
  = match feed_of first second with
    | Some data => loadData_from (JsonValue data) page
    | None => Abrupt (log Error_loading page)
    end.
Proof.
  destruct first as [|[|] [| |data]]; try reflexivity;
    destruct second as [|ok [| |data']]; reflexivity.
Qed.

(** X14.  What [init] does depends on the two fetches only through the
    feed that is read: the second file is fetched only when the first
    response is not ok, and then its body is loaded whatever its own
    status is; a rejected first fetch is not followed by a second one. *)
Theorem init_feed (toLowerCase : jsstring -> jsstring)
    (Date_parse : jsstring -> Date) (first second first' second' : Fetched)
    (now : Date) (page : Page) :
  feed_of first second = feed_of first' second' ->
  init toLowerCase Date_parse first second now page
  = init toLowerCase Date_parse first' second' now page.
Proof.
  intros Hfeed. unfold init. rewrite !loadData_feed, Hfeed. reflexivity.
Qed.

Lemma init_feed_witness :
  init ascii_toLowerCase (Date_parse_iso false)
       (Response false NotJson) (Response false (JsonValue feed))
       (LocalDate 2025 10 15) (constructed blank_page)
  = init ascii_toLowerCase (Date_parse_iso false)
         (Response true (JsonValue feed)) NetworkError
         (LocalDate 2025 10 15) (constructed blank_page).
Proof.
  apply init_feed. reflexivity.
Defined.

Section PageProperties.

Variable toLowerCase : jsstring -> jsstring.
Variable Date_parse : jsstring -> Date.

Lemma dispatch_not_listening (page : Page) (at_event : Date * Event) :
  listening page = false ->
  listening (dispatch toLowerCase Date_parse page at_event) = false /\
  controller (dispatch toLowerCase Date_parse page at_event)
  = controller page /\
  conferencesList (dispatch toLowerCase Date_parse page at_event)
  = conferencesList page /\
  monthsHeader (dispatch toLowerCase Date_parse page at_event)
  = monthsHeader page /\
  console (dispatch toLowerCase Date_parse page at_event) = console page.
Proof.
  intros Hoff. destruct at_event as [now [| |i|value]]; cbn [dispatch];
    rewrite ?Hoff; auto.
  destruct (bool_decide _); [|auto].
  cbn [with_checkboxes listening]. rewrite Hoff. cbn. auto.
Qed.

(** X15.  When the feed cannot be read (a fetch is rejected, or the body
    is not JSON, or is [null]), the page shows the error box, no handler
    is installed, and nothing the user does afterwards changes the
    controller, the error box, the header or the console: no month is
    generated and no filter is applied. *)
Theorem failed_load_is_final (first second : Fetched) (now : Date)
    (document : Page) (events : list (Date * Event)) :
  feed_of first second = None ->
  listening (session toLowerCase Date_parse first second now
                     (constructed document) events) = false /\
  controller (session toLowerCase Date_parse first second now
                      (constructed document) events) = new_calendar /\
  conferencesList (session toLowerCase Date_parse first second now
                           (constructed document) events)
  = ErrorBox load_failed_message /\
  monthsHeader (session toLowerCase Date_parse first second now
                        (constructed document) events)
  = monthsHeader document /\
  console (session toLowerCase Date_parse first second now
                   (constructed document) events)
  = console document ++ [Error_loading; Error_initialize].
Proof.
  intros Hfeed. unfold session, init. rewrite loadData_feed, Hfeed.
  set (page := showError _ _).
  assert (H : listening page = false /\ controller page = new_calendar /\
              conferencesList page = ErrorBox load_failed_message /\
              monthsHeader page = monthsHeader document /\
              console page
              = console document ++ [Error_loading; Error_initialize]).
  { unfold page. cbn. rewrite <- app_assoc. auto. }
  clearbody page. revert page H.
  induction events as [|at_event events IH]; intros page H.
  - cbn [fold_left]. exact H.
  - cbn [fold_left]. apply IH.
    destruct H as (Hoff & Hc & Hl & Hm & Hk).
    destruct (dispatch_not_listening page at_event Hoff)
      as (Hoff' & Hc' & Hl' & Hm' & Hk').
    rewrite Hoff', Hc', Hl', Hm', Hk'. auto.
Qed.

Lemma map_cb_value_set_checked (b : bool) (boxes : list Checkbox) :
  map cb_value (map (set_checked b) boxes) = map cb_value boxes.
Proof. rewrite map_map. reflexivity. Qed.

Lemma filter_checked_all (boxes : list Checkbox) :
  List.filter cb_checked (map (set_checked true) boxes)
  = map (set_checked true) boxes.
Proof.
  induction boxes as [|box boxes IH]; [reflexivity|].
  cbn [map List.filter set_checked cb_checked]. rewrite IH. reflexivity.
Qed.

Lemma filter_checked_none (boxes : list Checkbox) :
  List.filter cb_checked (map (set_checked false) boxes) = [].
Proof.
  induction boxes as [|box boxes IH]; [reflexivity|].
  cbn [map List.filter set_checked cb_checked]. exact IH.
Qed.

Lemma map_cb_value_flip (i : nat) (boxes : list Checkbox) :
  map cb_value (flip i boxes) = map cb_value boxes.
Proof.
  unfold flip. revert i. induction boxes as [|box boxes IH]; intros i;
    [reflexivity|].
  destruct i as [|i]; cbn; [reflexivity|].
  f_equal. apply IH.
Qed.

(** What [applyFilters] with its rendering leaves as it was. *)
Lemma applyFilters_render_frame (now : Date) (page : Page) :
  listening (applyFilters_render toLowerCase Date_parse now page)
  = listening page /\
  conferences (controller (applyFilters_render toLowerCase Date_parse now page))
  = conferences (controller page) /\
  months (controller (applyFilters_render toLowerCase Date_parse now page))
  = months (controller page) /\
  currentMonthIndex
    (controller (applyFilters_render toLowerCase Date_parse now page))
  = currentMonthIndex (controller page) /\
  currentFilters
    (controller (applyFilters_render toLowerCase Date_parse now page))
  = currentFilters (controller page) /\
  themeCheckboxes (applyFilters_render toLowerCase Date_parse now page)
  = themeCheckboxes page /\
  lastUpdated (applyFilters_render toLowerCase Date_parse now page)
  = lastUpdated page /\
  console (applyFilters_render toLowerCase Date_parse now page)
  = console page.
Proof.
  repeat split. unfold applyFilters_render, renderCalendar. cbn [console].
  rewrite renderConferenceRows_console. apply app_nil_r.
Qed.

Lemma applyFilters_render_view (now : Date) (page : Page) (index : number) :
  currentMonthIndex (controller page) = Some index ->
  loaded_view toLowerCase Date_parse
              (applyFilters_render toLowerCase Date_parse now page).
Proof.
  intros Hindex. split; [reflexivity|]. split.
  - unfold applyFilters_render, renderCalendar, scrollToCurrentMonth.
    cbn [scrollLeft controller with_controller applyFilters
         currentMonthIndex].
    rewrite Hindex. reflexivity.
  - exists now. split; reflexivity.
Qed.

Lemma generateMonths_index_Some (now : Date) (this : ConferenceCalendar) :
  exists index, currentMonthIndex (generateMonths now this) = Some index.
Proof. eexists. reflexivity. Qed.

Lemma applyFilters_render_loaded (data : Data) (now0 now : Date)
    (document page : Page) :
  listening page = true ->
  conferences (controller page) = default [] (d_conferences data) ->
  months (controller page) = months (generateMonths now0 new_calendar) ->
  currentMonthIndex (controller page)
  = currentMonthIndex (generateMonths now0 new_calendar) ->
  map cb_value (themeCheckboxes page) = default [] (d_themes data) ->
  themes_in_sync page ->
  console page
  = console document
    ++ [Log_loaded
          (Int (Z.of_nat (length (default [] (d_conferences data)))))] ->
  loaded_model data now0 document
               (applyFilters_render toLowerCase Date_parse now page) /\
  loaded_view toLowerCase Date_parse
              (applyFilters_render toLowerCase Date_parse now page).
Proof.
  intros Hon Hconfs Hmonths Hindex Hboxes Hsync Hconsole.
  destruct (applyFilters_render_frame now page)
    as (Hl & Hc & Hm & Hi & Hf & Hb & _ & Hk).
  split.
  - unfold loaded_model, themes_in_sync.
    rewrite Hl, Hc, Hm, Hi, Hf, Hb, Hk. auto 10.
  - destruct (generateMonths_index_Some now0 new_calendar) as [index Hsome].
    apply (applyFilters_render_view now page index). congruence.
Qed.

Lemma dispatch_loaded (data : Data) (now0 : Date) (document page : Page)
    (at_event : Date * Event) :
  loaded_model data now0 document page /\
  loaded_view toLowerCase Date_parse page ->
  loaded_model data now0 document
               (dispatch toLowerCase Date_parse page at_event) /\
  loaded_view toLowerCase Date_parse
              (dispatch toLowerCase Date_parse page at_event).
Proof.
  intros [Hmodel Hview].
  pose proof Hmodel as (Hon & Hconfs & Hmonths & Hindex & Hboxes & Hsync
                        & Hconsole).
  destruct at_event as [now [| |i|value]]; cbn [dispatch].
  - rewrite Hon. unfold on_selectAll.
    apply applyFilters_render_loaded; try assumption.
    + cbn. rewrite map_cb_value_set_checked. exact Hboxes.
    + unfold themes_in_sync. cbn. rewrite filter_checked_all. reflexivity.
  - rewrite Hon. unfold on_deselectAll.
    apply applyFilters_render_loaded; try assumption.
    + cbn. rewrite map_cb_value_set_checked. exact Hboxes.
    + unfold themes_in_sync. cbn. rewrite filter_checked_none. reflexivity.
  - destruct (bool_decide _); [|split; assumption].
    cbn [with_checkboxes listening]. rewrite Hon. unfold on_change.
    apply applyFilters_render_loaded; try assumption.
    + cbn. rewrite map_cb_value_flip. exact Hboxes.
    + reflexivity.
  - rewrite Hon. unfold on_input.
    apply applyFilters_render_loaded; try assumption.
Qed.

Lemma init_loaded (first second : Fetched) (data : Data) (now : Date)
    (document : Page) :
  feed_of first second = Some data ->
  loaded_model data now document
    (init toLowerCase Date_parse first second now (constructed document)) /\
  loaded_view toLowerCase Date_parse
    (init toLowerCase Date_parse first second now (constructed document)).
Proof.
  intros Hfeed. unfold init. rewrite loadData_feed, Hfeed.
  unfold loadData_from. cbn zeta.
  assert (Hchecked : forall ts : list jsstring,
             map cb_value
               (List.filter cb_checked
                  (map (fun theme =>
                          {| cb_value := theme; cb_checked := true;
                             cb_text := js " " ++ stripThemePrefix theme |})
                       ts)) = ts).
  { induction ts as [|t ts IH]; [reflexivity|].
    cbn [map List.filter cb_checked cb_value]. rewrite IH. reflexivity. }
  apply applyFilters_render_loaded.
  - reflexivity.
  - destruct (d_last_updated data) as [[|c s]|]; reflexivity.
  - reflexivity.
  - reflexivity.
  - destruct (d_last_updated data) as [[|c s]|]; cbn; rewrite map_map;
      apply map_id.
  - unfold themes_in_sync.
    destruct (d_last_updated data) as [[|c s]|]; cbn; rewrite Hchecked;
      reflexivity.
  - destruct (d_last_updated data) as [[|c s]|]; reflexivity.
Qed.

Lemma session_loaded (first second : Fetched) (data : Data) (now : Date)
    (document : Page) (events : list (Date * Event)) :
  feed_of first second = Some data ->
  loaded_model data now document
    (session toLowerCase Date_parse first second now (constructed document)
             events) /\
  loaded_view toLowerCase Date_parse
    (session toLowerCase Date_parse first second now (constructed document)
             events).
Proof.
  intros Hfeed. unfold session.
  pose proof (init_loaded first second data now document Hfeed) as H.
  revert H. generalize (init toLowerCase Date_parse first second now
                             (constructed document)).
  induction events as [|at_event events IH]; intros page H; [exact H|].
  cbn [fold_left]. apply IH. apply dispatch_loaded. exact H.
Qed.

Lemma flip_flip (i : nat) (boxes : list Checkbox) :
  flip i (flip i boxes) = boxes.
Proof.
  unfold flip. revert i. induction boxes as [|[v c t] boxes IH]; intros i;
    [reflexivity|].
  destruct i as [|i]; cbn.
  - unfold set_checked. cbn. rewrite negb_involutive. reflexivity.
  - f_equal. apply IH.
Qed.

Lemma length_flip (i : nat) (boxes : list Checkbox) :
  length (flip i boxes) = length boxes.
Proof.
  rewrite <- (length_map cb_value (flip i boxes)), map_cb_value_flip.
  apply length_map.
Qed.

Lemma dispatch_search (page : Page) (at_event : Date * Event) :
  fs_search (currentFilters
               (controller (dispatch toLowerCase Date_parse page at_event)))
  = fs_search (currentFilters (controller page)) \/
  exists value,
    fs_search (currentFilters
                 (controller (dispatch toLowerCase Date_parse page at_event)))
    = toLowerCase value.
Proof.
  destruct at_event as [now [| |i|value]]; cbn [dispatch].
  - destruct (listening page); left; reflexivity.
  - destruct (listening page); left; reflexivity.
  - destruct (bool_decide _); [|left; reflexivity].
    cbn [with_checkboxes listening].
    destruct (listening page); left; reflexivity.
  - destruct (listening page); [right; exists value|left]; reflexivity.
Qed.

Lemma session_search (first second : Fetched) (now : Date) (document : Page)
    (events : list (Date * Event)) :
  fs_search
    (currentFilters
       (controller (session toLowerCase Date_parse first second now
                            (constructed document) events))) = [] \/
  exists value,
    fs_search
      (currentFilters
         (controller (session toLowerCase Date_parse first second now
                              (constructed document) events)))
    = toLowerCase value.
Proof.
  unfold session.
  assert (H : fs_search
                (currentFilters
                   (controller (init toLowerCase Date_parse first second now
                                     (constructed document)))) = [] \/
              exists value,
                fs_search
                  (currentFilters
                     (controller (init toLowerCase Date_parse first second
                                       now (constructed document))))
                = toLowerCase value).
  { left. unfold init. rewrite loadData_feed.
    destruct (feed_of first second) as [data|]; [|reflexivity].
    unfold loadData_from. cbn zeta.
    destruct (d_last_updated data) as [[|c s]|]; reflexivity. }
  revert H. generalize (init toLowerCase Date_parse first second now
                             (constructed document)).
  induction events as [|at_event events IH]; intros page H; [exact H|].
  cbn [fold_left]. apply IH.
  destruct (dispatch_search page at_event) as [Hsame | Hlower];
    [rewrite Hsame; exact H | right; exact Hlower].
Qed.

End PageProperties.

Lemma failed_load_is_final_witness :
  conferencesList
    (session ascii_toLowerCase (Date_parse_iso false)
             (Response false NotJson) (Response true JsonNull)
             (LocalDate 2025 10 15) (constructed blank_page)
             [(LocalDate 2025 10 15, TypeSearch (js "sig"));
              (LocalDate 2025 10 15, ClickSelectAll)])
  = ErrorBox load_failed_message.
Proof.
  apply (proj1 (proj2 (proj2 (failed_load_is_final ascii_toLowerCase
                                (Date_parse_iso false)
                                (Response false NotJson)
                                (Response true JsonNull)
                                (LocalDate 2025 10 15) blank_page
                                [(LocalDate 2025 10 15, TypeSearch (js "sig"));
                                 (LocalDate 2025 10 15, ClickSelectAll)]
                                eq_refl)))).
Defined.

Lemma existsb_listed (listed : list jsstring) (conf : ConferenceRecord) :
  existsb (fun theme => has (list_to_set listed) theme) (confThemes conf)
  = existsb (fun t => bool_decide (t ∈ listed)) (effective_themes conf).
Proof.
  assert (Hhas : forall t : jsstring,
             has (list_to_set listed) (Some t) = bool_decide (t ∈ listed)).
  { intros t. cbn [has]. apply bool_decide_ext. apply elem_of_list_to_set. }
  unfold confThemes, effective_themes. destruct (themes conf) as [ts|].
  - induction ts as [|t ts IH]; [reflexivity|].
    cbn [map existsb]. rewrite IH, Hhas. reflexivity.
  - destruct (theme conf) as [t|]; [|reflexivity].
    cbn [existsb]. rewrite Hhas. reflexivity.
Qed.

(** X16.  After a load, every theme of the feed has a checked box that
    shows the theme without its number, all the themes of the feed are
    selected, and the list holds the conferences of the feed that have at
    least one theme among the themes of the feed, in the order of the
    feed: a feed without [themes] shows no conference. *)
Theorem init_shows_listed_themes (toLowerCase : jsstring -> jsstring)
    (Date_parse : jsstring -> Date) (first second : Fetched) (data : Data)
    (now : Date) (document : Page) :
  feed_of first second = Some data ->
  themeCheckboxes
    (init toLowerCase Date_parse first second now (constructed document))
  = map (fun theme => {| cb_value := theme; cb_checked := true;
                         cb_text := js " " ++ stripThemePrefix theme |})
        (default [] (d_themes data)) /\
  currentFilters
    (controller
       (init toLowerCase Date_parse first second now (constructed document)))
  = {| fs_themes := list_to_set (default [] (d_themes data));
       fs_search := [] |} /\
  filteredConferences
    (controller
       (init toLowerCase Date_parse first second now (constructed document)))
  = List.filter
      (fun conf =>
         existsb (fun t => bool_decide (t ∈ default [] (d_themes data)))
                 (effective_themes conf))
      (default [] (d_conferences data)).
Proof.
  intros Hfeed. unfold init. rewrite loadData_feed, Hfeed.
  unfold loadData_from. cbn zeta.
  split; [destruct (d_last_updated data) as [[|c s]|]; reflexivity|].
  split; [destruct (d_last_updated data) as [[|c s]|]; reflexivity|].
  transitivity
    (List.filter
       (filter_callback toLowerCase
          (with_themes (list_to_set (default [] (d_themes data)))
                       new_calendar))
       (default [] (d_conferences data))).
  { destruct (d_last_updated data) as [[|c s]|]; reflexivity. }
  apply filter_ext. intros conf. unfold filter_callback.
  cbn [currentFilters with_themes fs_themes fs_search new_calendar
       truthy_string].
  rewrite existsb_listed.
  destruct (size _ =? 0)%nat eqn:Hsize.
  - apply Nat.eqb_eq, size_empty_inv in Hsize.
    symmetry. apply not_true_is_false. rewrite existsb_exists.
    intros (t & _ & Ht). apply bool_decide_eq_true in Ht.
    apply (elem_of_list_to_set (C := gset jsstring)) in Ht.
    apply Hsize in Ht. exact (not_elem_of_empty (C := gset jsstring) t Ht).
  - destruct (existsb _ (effective_themes conf)); reflexivity.
Qed.

Lemma init_shows_listed_themes_witness :
  filteredConferences
    (controller
       (init ascii_toLowerCase (Date_parse_iso false)
             (Response true (JsonValue feed)) NetworkError
             (LocalDate 2025 10 15) (constructed blank_page)))
  = [conf_sigmod; ice_dated].
Proof.
  etransitivity.
  - apply (init_shows_listed_themes ascii_toLowerCase (Date_parse_iso false)
             (Response true (JsonValue feed)) NetworkError feed).
    reflexivity.
  - vm_compute. reflexivity.
Defined.

(** X17.  In a loaded page, whatever the user has done, the boxes are
    those of the themes of the feed; the selected themes are the values
    of the checked boxes; the filtered list is the list of conferences
    filtered with the filter as it is now; and the page shows the rows of
    the filtered list and the headers of the window. *)
Theorem session_in_sync (toLowerCase : jsstring -> jsstring)
    (Date_parse : jsstring -> Date) (first second : Fetched) (data : Data)
    (now : Date) (document : Page) (events : list (Date * Event)) :
  feed_of first second = Some data ->
  map cb_value
      (themeCheckboxes
         (session toLowerCase Date_parse first second now
                  (constructed document) events))
  = default [] (d_themes data) /\
  themes_in_sync
    (session toLowerCase Date_parse first second now (constructed document)
             events) /\
  loaded_view toLowerCase Date_parse
    (session toLowerCase Date_parse first second now (constructed document)
             events).
Proof.
  intros Hfeed.
  destruct (session_loaded toLowerCase Date_parse first second data now
              document events Hfeed)
    as ((_ & _ & _ & _ & Hboxes & Hsync & _) & Hview).
  auto.
Qed.

Lemma session_in_sync_witness :
  themes_in_sync
    (session ascii_toLowerCase (Date_parse_iso false)
             (Response true (JsonValue feed)) NetworkError
             (LocalDate 2025 10 15) (constructed blank_page)
             [(LocalDate 2025 10 15, ClickDeselectAll);
              (LocalDate 2025 10 16, ClickTheme 1);
              (LocalDate 2025 10 16, TypeSearch (js "SIG"))]).
Proof.
  apply (session_in_sync ascii_toLowerCase (Date_parse_iso false)
           (Response true (JsonValue feed)) NetworkError feed).
  reflexivity.
Defined.

(** X18.  After the load the conferences, the window of months and
    [currentMonthIndex] never change: the window is the one of the day of
    the load, also for an event at a later reading of the clock; every
    rendering asks for the scroll position of that index; and nothing is
    written to the console after the line of the load. *)
Theorem session_keeps_window (toLowerCase : jsstring -> jsstring)
    (Date_parse : jsstring -> Date) (first second : Fetched) (data : Data)
    (now : Date) (document : Page) (events : list (Date * Event)) :
  feed_of first second = Some data ->
  conferences
    (controller (session toLowerCase Date_parse first second now
                         (constructed document) events))
  = default [] (d_conferences data) /\
  months
    (controller (session toLowerCase Date_parse first second now
                         (constructed document) events))
  = months (generateMonths now new_calendar) /\
  scrollLeft (session toLowerCase Date_parse first second now
                      (constructed document) events)
  = scrollToCurrentMonth (generateMonths now new_calendar) /\
  console (session toLowerCase Date_parse first second now
                   (constructed document) events)
  = console document
    ++ [Log_loaded
          (Int (Z.of_nat (length (default [] (d_conferences data)))))].
Proof.
  intros Hfeed.
  destruct (session_loaded toLowerCase Date_parse first second data now
              document events Hfeed)
    as ((_ & Hconfs & Hmonths & Hindex & _ & _ & Hconsole)
        & _ & Hscroll & _).
  repeat split; try assumption.
  rewrite Hscroll. unfold scrollToCurrentMonth. rewrite Hindex.
  reflexivity.
Qed.

Lemma session_keeps_window_witness :
  months
    (controller
       (session ascii_toLowerCase (Date_parse_iso false)
                (Response true (JsonValue feed)) NetworkError
                (LocalDate 2025 10 15) (constructed blank_page)
                [(LocalDate 2027 5 1, ClickSelectAll)]))
  = months (generateMonths (LocalDate 2025 10 15) new_calendar).
Proof.
  apply (session_keeps_window ascii_toLowerCase (Date_parse_iso false)
           (Response true (JsonValue feed)) NetworkError feed).
  reflexivity.
Defined.

(** X19.  A conference none of whose themes is among the themes of the
    feed is never in the filtered list, whatever boxes are checked and
    whatever is searched for. *)
Theorem unlisted_theme_never_shown (toLowerCase : jsstring -> jsstring)
    (Date_parse : jsstring -> Date) (first second : Fetched) (data : Data)
    (now : Date) (document : Page) (events : list (Date * Event))
    (conf : ConferenceRecord) :
  feed_of first second = Some data ->
  (forall t, In t (effective_themes conf) ->
             ~ In t (default [] (d_themes data))) ->
  ~ In conf
       (filteredConferences
          (controller (session toLowerCase Date_parse first second now
                               (constructed document) events))).
Proof.
  intros Hfeed Hunlisted Hin.
  destruct (session_loaded toLowerCase Date_parse first second data now
              document events Hfeed)
    as ((_ & _ & _ & _ & Hboxes & Hsync & _) & Hfiltered & _).
  set (page := session _ _ _ _ _ _ _) in *.
  rewrite Hfiltered in Hin. apply filter_In in Hin as [_ Hkeep].
  assert (Hsel : theme_selected (currentFilters (controller page)) conf).
  { apply hasMatchingTheme_selected. unfold filter_callback in Hkeep.
    destruct (size _ =? 0)%nat; [discriminate|].
    destruct (existsb _ (confThemes conf)); [reflexivity | discriminate]. }
  destruct Hsel as (t & Ht & Hselected).
  apply (Hunlisted t Ht). rewrite <- Hboxes.
  rewrite Hsync in Hselected. apply elem_of_list_to_set in Hselected.
  apply list_elem_of_In in Hselected.
  apply in_map_iff in Hselected as (box & <- & Hbox).
  apply filter_In in Hbox as [Hbox _]. apply in_map. exact Hbox.
Qed.

Lemma unlisted_theme_never_shown_witness :
  ~ In conf_abc
       (filteredConferences
          (controller
             (session ascii_toLowerCase (Date_parse_iso false)
                      (Response true (JsonValue feed)) NetworkError
                      (LocalDate 2025 10 15) (constructed blank_page)
                      [(LocalDate 2025 10 15, ClickSelectAll);
                       (LocalDate 2025 10 15, TypeSearch (js "abc"))]))).
Proof.
  apply (unlisted_theme_never_shown ascii_toLowerCase (Date_parse_iso false)
           (Response true (JsonValue feed)) NetworkError feed).
  - reflexivity.
  - intros t [<- | []] [H | [H | []]]; discriminate H.
Defined.

Lemma dispatch_click (toLowerCase : jsstring -> jsstring)
    (Date_parse : jsstring -> Date) (page : Page) (i : nat) (now : Date) :
  (i < length (themeCheckboxes page))%nat ->
  themeCheckboxes (dispatch toLowerCase Date_parse page (now, ClickTheme i))
  = flip i (themeCheckboxes page) /\
  listening (dispatch toLowerCase Date_parse page (now, ClickTheme i))
  = listening page /\
  currentFilters
    (controller (dispatch toLowerCase Date_parse page (now, ClickTheme i)))
  = if listening page
    then {| fs_themes :=
              list_to_set
                (map cb_value
                     (List.filter cb_checked (flip i (themeCheckboxes page))));
            fs_search := fs_search (currentFilters (controller page)) |}
    else currentFilters (controller page).
Proof.
  intros Hi. cbn [dispatch]. rewrite bool_decide_eq_true_2 by exact Hi.
  cbn [with_checkboxes listening]. destruct (listening page) eqn:Hon.
  - repeat split. cbn. exact Hon.
  - repeat split. cbn. exact Hon.
Qed.

(** X20.  Clicking the same box twice gives back the boxes as they were,
    and, when the selected themes were the values of the checked boxes,
    the filter as it was. *)
Theorem click_theme_twice (toLowerCase : jsstring -> jsstring)
    (Date_parse : jsstring -> Date) (page : Page) (i : nat)
    (now now' : Date) :
  themeCheckboxes
    (dispatch toLowerCase Date_parse
       (dispatch toLowerCase Date_parse page (now, ClickTheme i))
       (now', ClickTheme i))
  = themeCheckboxes page /\
  (themes_in_sync page ->
   currentFilters
     (controller
        (dispatch toLowerCase Date_parse
           (dispatch toLowerCase Date_parse page (now, ClickTheme i))
           (now', ClickTheme i)))
   = currentFilters (controller page)).
Proof.
  destruct (decide (i < length (themeCheckboxes page))%nat) as [Hi|Hi].
  2: { assert (Hsame : dispatch toLowerCase Date_parse page
                                (now, ClickTheme i) = page).
       { cbn [dispatch]. rewrite bool_decide_eq_false_2 by exact Hi.
         reflexivity. }
       rewrite Hsame.
       assert (Hsame' : dispatch toLowerCase Date_parse page
                                 (now', ClickTheme i) = page).
       { cbn [dispatch]. rewrite bool_decide_eq_false_2 by exact Hi.
         reflexivity. }
       rewrite Hsame'. auto. }
  destruct (dispatch_click toLowerCase Date_parse page i now Hi)
    as (Hb1 & Hl1 & Hf1).
  set (page1 := dispatch toLowerCase Date_parse page (now, ClickTheme i))
    in *.
  assert (Hi1 : (i < length (themeCheckboxes page1))%nat).
  { rewrite Hb1, length_flip. exact Hi. }
  destruct (dispatch_click toLowerCase Date_parse page1 i now' Hi1)
    as (Hb2 & Hl2 & Hf2).
  rewrite Hb2, Hb1, flip_flip. split; [reflexivity|].
  intros Hsync. rewrite Hf2, Hl1, Hb1, flip_flip, Hf1.
  destruct (listening page); [|reflexivity].
  cbn [fs_search]. rewrite <- Hsync.
  destruct (currentFilters (controller page)); reflexivity.
Qed.

Lemma ascii_toLowerCase_idempotent (s : jsstring) :
  ascii_toLowerCase (ascii_toLowerCase s) = ascii_toLowerCase s.
Proof.
  unfold ascii_toLowerCase. rewrite map_map. apply map_ext. intros c.
  destruct ((65 <=? c) && (c <=? 90))%N eqn:Hupper; [|rewrite Hupper; reflexivity].
  apply andb_true_iff in Hupper as [Hlo Hhi].
  apply N.leb_le in Hlo, Hhi.
  assert (Hlower : ((65 <=? c + 32) && (c + 32 <=? 90))%N = false).
  { apply andb_false_iff. right. apply N.leb_gt. lia. }
  rewrite Hlower. reflexivity.
Qed.

(** X21.  The search string of the filter is always empty or the lower
    case of what was typed.  So, for a [toLowerCase] that leaves lower
    case as it is, in a loaded page with a box checked, the filtered list
    is, whatever the user has done, the conferences that have a selected
    theme and, for a non-empty search string, in which the string occurs
    when case is ignored. *)
Theorem session_filters_as_specified (toLowerCase : jsstring -> jsstring)
    (Date_parse : jsstring -> Date) (first second : Fetched) (data : Data)
    (now : Date) (document : Page) (events : list (Date * Event)) :
  (forall s, toLowerCase (toLowerCase s) = toLowerCase s) ->
  toLowerCase [] = [] ->
  feed_of first second = Some data ->
  toLowerCase
    (fs_search
       (currentFilters
          (controller (session toLowerCase Date_parse first second now
                               (constructed document) events))))
  = fs_search
      (currentFilters
         (controller (session toLowerCase Date_parse first second now
                              (constructed document) events))) /\
  (fs_themes
     (currentFilters
        (controller (session toLowerCase Date_parse first second now
                             (constructed document) events))) <> ∅ ->
   forall conf,
     In conf
        (filteredConferences
           (controller (session toLowerCase Date_parse first second now
                                (constructed document) events)))
     <-> In conf (default [] (d_conferences data)) /\
         included toLowerCase
           (currentFilters
              (controller (session toLowerCase Date_parse first second now
                                   (constructed document) events)))
           conf).
Proof.
  intros Hidem Hnil Hfeed.
  destruct (session_loaded toLowerCase Date_parse first second data now
              document events Hfeed)
    as ((_ & Hconfs & _) & Hfiltered & _).
  pose proof (session_search toLowerCase Date_parse first second now document
                events) as Hsearch.
  set (page := session _ _ _ _ _ _ _) in *.
  assert (Hlower : toLowerCase (fs_search (currentFilters (controller page)))
                   = fs_search (currentFilters (controller page))).
  { destruct Hsearch as [-> | [value ->]]; [exact Hnil | apply Hidem]. }
  split; [exact Hlower|].
  intros Hthemes conf. rewrite Hfiltered, filter_In, Hconfs.
  rewrite (filter_callback_included toLowerCase (controller page) conf
             Hthemes Hlower).
  reflexivity.
Qed.

Lemma session_filters_as_specified_witness :
  ascii_toLowerCase
    (fs_search
       (currentFilters
          (controller
             (session ascii_toLowerCase (Date_parse_iso false)
                      (Response true (JsonValue feed)) NetworkError
                      (LocalDate 2025 10 15) (constructed blank_page)
                      [(LocalDate 2025 10 15, TypeSearch (js "SIG"))]))))
  = fs_search
      (currentFilters
         (controller
            (session ascii_toLowerCase (Date_parse_iso false)
                     (Response true (JsonValue feed)) NetworkError
                     (LocalDate 2025 10 15) (constructed blank_page)
                     [(LocalDate 2025 10 15, TypeSearch (js "SIG"))]))).
Proof.
  apply (session_filters_as_specified ascii_toLowerCase (Date_parse_iso false)
           (Response true (JsonValue feed)) NetworkError feed).
  - exact ascii_toLowerCase_idempotent.
  - reflexivity.
  - reflexivity.
Defined.

(** ** What makes a run throw *)

Module Raises.

Import Store.

Lemma bind_throw {A B : Type} (m : M A) (f : A -> M B) (h : heap) :
  (m h).1 = Throw -> (bind m f h).1 = Throw.
Proof.
  unfold bind. destruct (m h) as [[x|] h']; [discriminate | reflexivity].
Qed.

Section NullYear.

Variable Date_new : heap -> value -> Date.
Variable month : MonthSlot.
Variable h0 : heap.
Variable l li : loc.
Variable cprops iprops : list (jsstring * value).
Variable k : jsstring.

Hypothesis Hconference : h0 !! l = Some (Obj cprops).
Hypothesis Hinformation : lookup_key cprops (js "information") = VRef li.
Hypothesis Hyears : h0 !! li = Some (Obj iprops).
Hypothesis Hnull : lookup_key iprops k = VNull.

Lemma visit_year_null (a : loc) (h : heap) :
  h0 `prefix_of` h ->
  (visit_year Date_new (VRef l) month a k h).1 = Throw.
Proof.
  intros Hpre. unfold visit_year.
  rewrite (Refinement.run_bind _ _ _ _ _
             (Refinement.get_object h l cprops (js "information")
                (prefix_lookup_Some _ _ _ _ Hconference Hpre))).
  rewrite Hinformation.
  rewrite (Refinement.run_bind _ _ _ _ _
             (Refinement.get_object h li iprops k
                (prefix_lookup_Some _ _ _ _ Hyears Hpre))).
  rewrite Hnull. reflexivity.
Qed.

Lemma forEach_key_null (keys : list jsstring) (h : heap) :
  inv h0 (length h0) (fresh_ref h0) h -> In k keys ->
  (forEach_key keys (visit_year Date_new (VRef l) month (length h0)) h).1
  = Throw.
Proof.
  revert h. induction keys as [|k' keys IH]; intros h Hinv Hin;
    [destruct Hin|].
  cbn [forEach_key].
  destruct Hin as [-> | Hin].
  - apply bind_throw. apply visit_year_null. exact (proj1 Hinv).
  - pose proof (Frame.visit_year_preserves Date_new h0 (length h0) (VRef l)
                  month k' h Hinv) as [Hinv' _].
    unfold bind.
    destruct (visit_year Date_new (VRef l) month (length h0) k' h)
      as [[[]|] h']; [|reflexivity].
    apply IH; assumption.
Qed.

End NullYear.

(** X22.  A year entry that is [null] makes [getDeadlinesInMonth] throw,
    for every month and whatever the other year entries hold: the
    properties of the year entry are read without a test of the entry
    itself. *)
Theorem getDeadlinesInMonth_null_year (Date_new : heap -> value -> Date)
    (month : MonthSlot) (h : heap) (l li : loc)
    (cprops iprops : list (jsstring * value)) (k : jsstring) :
  h !! l = Some (Obj cprops) ->
  lookup_key cprops (js "information") = VRef li ->
  h !! li = Some (Obj iprops) ->
  In k (map fst iprops) ->
  lookup_key iprops k = VNull ->
  (getDeadlinesInMonth Date_new (VRef l) month h).1 = Throw.
Proof.
  intros Hconference Hinformation Hyears Hkey Hnull.
  unfold getDeadlinesInMonth.
  rewrite (Refinement.run_bind _ _ _ _ _
             (eq_refl : alloc (Arr []) h = (Return (length h), h ++ [Arr []]))).
  assert (Hget : get (VRef l) (js "information") (h ++ [Arr []])
                 = (Return (VRef li), h ++ [Arr []])).
  { rewrite (Refinement.get_object _ l cprops)
      by (apply lookup_app_l_Some; exact Hconference).
    rewrite Hinformation. reflexivity. }
  rewrite (Refinement.run_bind _ _ _ _ _ Hget). cbn [truthy].
  apply bind_throw.
  rewrite (Refinement.run_bind _ _ _ _ _ Hget).
  assert (Hkeys : Object_keys (VRef li) (h ++ [Arr []])
                  = (Return (map fst iprops), h ++ [Arr []])).
  { unfold Object_keys, bind, read.
    rewrite (lookup_app_l_Some _ _ _ _ Hyears). reflexivity. }
  rewrite (Refinement.run_bind _ _ _ _ _ Hkeys).
  rewrite (Refinement.run_bind _ _ _ _ _
             (eq_refl : alloc (Arr (map VString (map fst iprops)))
                              (h ++ [Arr []])
                        = (Return _, _))).
  apply (forEach_key_null Date_new month h l li cprops iprops k
           Hconference Hinformation Hyears Hnull); [|exact Hkey].
  split; [|split].
  - apply prefix_app_r, prefix_app_r. reflexivity.
  - lia.
  - exists []. split; [|constructor].
    rewrite lookup_app_l by (rewrite length_app; simpl; lia).
    apply list_lookup_middle. reflexivity.
Qed.

Lemma getDeadlinesInMonth_null_year_witness :
  (getDeadlinesInMonth (Date_new_iso false) (VRef 1) (slot_of 2026 3)
                       null_year_store).1 = Throw.
Proof.
  apply (getDeadlinesInMonth_null_year (Date_new_iso false) (slot_of 2026 3)
           null_year_store 1 0
           [(js "short_name", VString (js "ICE"));
            (js "theme", VString (js "T"));
            (js "information", VRef 0)]
           [(js "2025", VRef 3); (js "2026", VNull)] (js "2026")).
  - reflexivity.
  - reflexivity.
  - reflexivity.
  - right. left. reflexivity.
  - reflexivity.
Defined.

Section NullRecord.

Variable toLowerCase : jsstring -> jsstring.
Variable this : Controller.
Variable h0 : heap.
Variable l : loc.
Variable items : list value.

Hypothesis Hitems : h0 !! l = Some (Arr items).
Hypothesis Hsome : fs_themes (currentFilters this) <> ∅.

Lemma filter_callback_null (h : heap) :
  (filter_callback toLowerCase this VNull h).1 = Throw.
Proof.
  unfold filter_callback.
  destruct (size (fs_themes (currentFilters this)) =? 0)%nat eqn:Hsize;
    [|reflexivity].
  apply Nat.eqb_eq, size_empty_inv in Hsize.
  exfalso. apply Hsome. apply leibniz_equiv. exact Hsize.
Qed.

Lemma filter_loop_null (n k j : nat) (h : heap) :
  inv h0 (length h0) (fun _ => True) h ->
  (k <= j < k + n)%nat -> items !! j = Some VNull ->
  (filter_loop n k l (length h0) (filter_callback toLowerCase this) h).1
  = Throw.
Proof.
  revert k h. induction n as [|n IH]; intros k h Hinv Hj Hnull; [lia|].
  cbn [filter_loop].
  rewrite (Refinement.run_bind _ _ _ _ _
             (Frame.element_of_source h0 l items k h Hitems (proj1 Hinv))).
  destruct (decide (k = j)) as [-> | Hne].
  - rewrite Hnull. apply bind_throw. apply filter_callback_null.
  - destruct (items !! k) as [x|] eqn:Hx; [|apply IH; [exact Hinv|lia|exact Hnull]].
    pose proof (Frame.filter_callback_preserves toLowerCase h0 (length h0)
                  (fun _ => True) this x h Hinv) as [Hinv1 _].
    unfold bind at 1.
    destruct (filter_callback toLowerCase this x h) as [[b|] h1];
      [|reflexivity].
    cbn [snd] in Hinv1.
    assert (Hstep : inv h0 (length h0) (fun _ => True)
                        ((if b then push (length h0) x else ret tt) h1).2).
    { destruct b; [|exact Hinv1].
      apply (Frame.preserves_push h0 (length h0) (fun _ => True) x I h1
               Hinv1). }
    unfold bind.
    destruct ((if b then push (length h0) x else ret tt) h1) as [[[]|] h2];
      [|reflexivity].
    apply IH; [exact Hstep | lia | exact Hnull].
Qed.

End NullRecord.

(** X23.  With no theme selected [applyFilters] returns a new, empty
    array without reading any record.  With a theme selected, a record
    that is [null] makes it throw: the properties of a record are read
    without a test of the record itself. *)
Theorem applyFilters_null_record (toLowerCase : jsstring -> jsstring)
    (this : Controller) (h : heap) (l : loc) (items : list value) :
  conferences this = VRef l ->
  h !! l = Some (Arr items) ->
  (fs_themes (currentFilters this) = ∅ ->
   applyFilters toLowerCase this h
   = (Return {| conferences := conferences this;
                filteredConferences := VRef (length h);
                currentFilters := currentFilters this |},
      h ++ [Arr []])) /\
  (fs_themes (currentFilters this) <> ∅ -> In VNull items ->
   (applyFilters toLowerCase this h).1 = Throw).
Proof.
  intros Hthis Hitems. split.
  - intros Hnone. unfold applyFilters. rewrite Hthis.
    assert (Hrun : forall n k,
               filter_loop n k l (length h)
                           (filter_callback toLowerCase this) (h ++ [Arr []])
               = (Return tt, h ++ [Arr []])).
    { induction n as [|n IH]; intros k; [reflexivity|].
      cbn [filter_loop].
      rewrite (Refinement.run_bind _ _ _ _ _
                 (Frame.element_of_source h l items k (h ++ [Arr []]) Hitems
                    (prefix_app_r _ _ _ (reflexivity h)))).
      destruct (items !! k) as [x|]; [|apply IH].
      unfold filter_callback at 1. rewrite Hnone, size_empty.
      cbn [Nat.eqb]. unfold bind at 1. cbn [ret].
      unfold bind at 1. cbn [ret]. apply IH. }
    unfold filter, bind at 1, bind at 1, read. rewrite Hitems.
    unfold bind at 1. cbn [alloc]. unfold bind at 1. rewrite Hrun.
    reflexivity.
  - intros Hsome Hin. unfold applyFilters. rewrite Hthis.
    apply bind_throw. unfold filter.
    assert (Hread : read l h = (Return (Arr items), h)).
    { unfold read. rewrite Hitems. reflexivity. }
    rewrite (Refinement.run_bind _ _ _ _ _ Hread).
    rewrite (Refinement.run_bind _ _ _ _ _
               (eq_refl : alloc (Arr []) h
                          = (Return (length h), h ++ [Arr []]))).
    apply bind_throw.
    apply list_elem_of_In, list_elem_of_lookup in Hin as [j Hj].
    apply (filter_loop_null toLowerCase this h l items Hitems Hsome
             (length items) 0 j); [|pose proof (lookup_lt_Some _ _ _ Hj); lia
                                   |exact Hj].
    split; [|split].
    + apply prefix_app_r. reflexivity.
    + lia.
    + exists []. split; [|constructor].
      apply list_lookup_middle. reflexivity.
Qed.

Lemma applyFilters_null_record_witness :
  (applyFilters ascii_toLowerCase
     {| conferences := VRef 2;
        filteredConferences := VUndefined;
        currentFilters := {| fs_themes := {[ js "T" ]}; fs_search := [] |} |}
     null_year_store).1 = Throw.
Proof.
  refine (proj2 (applyFilters_null_record ascii_toLowerCase
                   {| conferences := VRef 2;
                      filteredConferences := VUndefined;
                      currentFilters :=
                        {| fs_themes := {[ js "T" ]}; fs_search := [] |} |}
                   null_year_store 2 [VRef 1; VNull] eq_refl eq_refl) _ _).
  - cbn [currentFilters fs_themes]. intros Hempty.
    apply (not_elem_of_empty (C := gset jsstring) (js "T")).
    rewrite <- Hempty. apply elem_of_singleton. reflexivity.
  - right. left. reflexivity.
Defined.

End Raises.

(** ** Groups *)

Module Groups.

Import Store.

Section Groups.

Variable h0 : heap.
Variable l : loc.
Variable items : list value.

Hypothesis Hitems : h0 !! l = Some (Arr items).
Hypothesis Hobjects : Forall (is_object h0) items.

Lemma is_group_frame (h h' : heap) (conf g : value) :
  is_group h0 h conf g ->
  (forall i o, (length h0 < i)%nat -> h !! i = Some o -> h' !! i = Some o) ->
  is_group h0 h' conf g.
Proof.
  intros (lc & props & lg & paperTypes & Hc & Hlc & Hg & Hlt & Hlg & Hpt)
         Hframe.
  exists lc, props, lg, paperTypes.
  split; [exact Hc|]. split; [exact Hlc|]. split; [exact Hg|].
  split; [exact Hlt|]. split; [apply Hframe; assumption|].
  destruct (truthy (lookup_key props (js "paper_types"))); [exact Hpt|].
  destruct Hpt as (le & Hle & Hlt' & Hempty). exists le.
  split; [exact Hle|]. split; [exact Hlt'|]. apply Hframe; assumption.
Qed.

(** The object literal of the callback. *)
Lemma group_run (h : heap) (lc : loc) (props : list (jsstring * value)) :
  h !! lc = Some (Obj props) ->
  exists h' paperTypes,
    group (VRef lc) h = (Return (VRef (length h)), h') /\
    (length h < length h')%nat /\
    h' !! length h = Some (Obj (group_props props paperTypes)) /\
    (forall i o, h !! i = Some o -> h' !! i = Some o) /\
    if truthy (lookup_key props (js "paper_types"))
    then paperTypes = lookup_key props (js "paper_types")
    else paperTypes = VRef (S (length h)) /\
         h' !! S (length h) = Some (Arr []).
Proof.
  intros Hlc.
  assert (Hget : forall key h1,
             h1 !! lc = Some (Obj props) ->
             get (VRef lc) key h1 = (Return (lookup_key props key), h1)).
  { intros key h1 H1. apply Refinement.get_object. exact H1. }
  assert (Hlc1 : (h ++ [Obj []]) !! lc = Some (Obj props)).
  { apply lookup_app_l_Some, Hlc. }
  unfold group.
  rewrite (Refinement.run_bind _ _ _ _ _
             (eq_refl : alloc (Obj []) h = (Return (length h), h ++ [Obj []]))).
  repeat rewrite (Refinement.run_bind _ _ _ _ _ (Hget _ _ Hlc1)).
  destruct (truthy (lookup_key props (js "paper_types"))).
  - rewrite (Refinement.run_bind _ _ _ _ _
               (eq_refl : ret (lookup_key props (js "paper_types"))
                              (h ++ [Obj []]) = (Return _, _))).
    rewrite (Refinement.run_bind _ _ _ _ _ (Hget _ _ Hlc1)).
    eexists _, _. split; [reflexivity|]. cbn [snd].
    split; [rewrite length_insert, length_app; cbn [length]; lia|].
    split; [apply list_lookup_insert_eq; rewrite length_app; cbn [length];
            lia|].
    split; [|reflexivity].
    intros i o Hi. pose proof (lookup_lt_Some _ _ _ Hi).
    rewrite list_lookup_insert_ne by lia. apply lookup_app_l_Some, Hi.
  - assert (Hempty : bind (alloc (Arr [])) (fun empty => ret (VRef empty))
                          (h ++ [Obj []])
                     = (Return (VRef (S (length h))),
                        (h ++ [Obj []]) ++ [Arr []])).
    { unfold bind, alloc, ret. rewrite length_app. cbn [length].
      rewrite Nat.add_1_r. reflexivity. }
    rewrite (Refinement.run_bind _ _ _ _ _ Hempty).
    rewrite (Refinement.run_bind _ _ _ _ _
               (Hget _ _ (lookup_app_l_Some _ _ _ _ Hlc1))).
    eexists _, _. split; [reflexivity|]. cbn [snd].
    split; [rewrite length_insert, !length_app; cbn [length]; lia|].
    split; [apply list_lookup_insert_eq; rewrite !length_app; cbn [length];
            lia|].
    split; [|split; [reflexivity|]].
    + intros i o Hi. pose proof (lookup_lt_Some _ _ _ Hi).
      rewrite list_lookup_insert_ne by lia.
      apply lookup_app_l_Some, lookup_app_l_Some, Hi.
    + rewrite list_lookup_insert_ne by lia.
      apply list_lookup_middle. rewrite length_app. cbn [length]. lia.
Qed.

(** One turn of the loop: the group of [x] is made and pushed. *)
Lemma group_push (h : heap) (done groups : list value) (x : value) :
  (forall i o, h0 !! i = Some o -> h !! i = Some o) ->
  h !! length h0 = Some (Arr groups) ->
  Forall2 (is_group h0 h) done groups ->
  is_object h0 x ->
  exists h',
    bind (group x) (fun y => push (length h0) y) h = (Return tt, h') /\
    grouped h0 (done ++ [x]) h'.
Proof.
  intros Hframe Harray Hdone (lc & props & -> & Hlc).
  pose proof (lookup_lt_Some _ _ _ Harray) as Hlt.
  destruct (group_run h lc props (Hframe _ _ Hlc))
    as (h1 & paperTypes & Hrun & Hlt1 & Hliteral & Hframe1 & Hpaper).
  rewrite (Refinement.run_bind _ _ _ _ _ Hrun).
  unfold push, bind, read. rewrite (Hframe1 _ _ Harray). unfold write.
  eexists. split; [reflexivity|]. split.
  - intros i o Hi. pose proof (lookup_lt_Some _ _ _ Hi) as Hi0.
    rewrite list_lookup_insert_ne by lia.
    apply Hframe1, Hframe, Hi.
  - exists (groups ++ [VRef (length h)]). split.
    + apply list_lookup_insert_eq. lia.
    + apply Forall2_app.
      * eapply Forall2_impl; [exact Hdone|]. intros c g Hg.
        apply (is_group_frame h _ c g Hg). intros i o Hi0 Hi.
        rewrite list_lookup_insert_ne by lia. apply Hframe1, Hi.
      * constructor; [|constructor].
        exists lc, props, (length h), paperTypes.
        split; [reflexivity|]. split; [exact Hlc|]. split; [reflexivity|].
        split; [lia|]. split.
        { rewrite list_lookup_insert_ne by lia. exact Hliteral. }
        destruct (truthy (lookup_key props (js "paper_types")));
          [exact Hpaper|].
        destruct Hpaper as [-> Hempty]. exists (S (length h)).
        split; [reflexivity|]. split; [lia|].
        rewrite list_lookup_insert_ne by lia. exact Hempty.
Qed.

Lemma map_loop_groups (n k : nat) (h : heap) :
  (k + n = length items)%nat ->
  grouped h0 (take k items) h ->
  exists h',
    map_loop n k l (length h0) group h = (Return tt, h') /\
    grouped h0 items h'.
Proof.
  revert k h. induction n as [|n IH]; intros k h Hk Hgrouped.
  - exists h. split; [reflexivity|].
    rewrite take_ge in Hgrouped by lia. exact Hgrouped.
  - destruct Hgrouped as (Hframe & groups & Harray & Hdone).
    cbn [map_loop].
    assert (Helement : element l k h = (Return (items !! k), h)).
    { unfold element, bind, read. rewrite (Hframe _ _ Hitems). reflexivity. }
    rewrite (Refinement.run_bind _ _ _ _ _ Helement).
    destruct (lookup_lt_is_Some_2 items k ltac:(lia)) as [x Hx].
    rewrite Hx.
    destruct (group_push h (take k items) groups x Hframe Harray Hdone)
      as (h' & Hrun & Hgrouped').
    { rewrite Forall_forall in Hobjects. apply Hobjects.
      apply list_elem_of_lookup. exists k. exact Hx. }
    assert (Hstep : bind (group x)
                         (fun y => bind (push (length h0) y)
                                        (fun _ => map_loop n (S k) l
                                                           (length h0) group))
                         h
                    = map_loop n (S k) l (length h0) group h').
    { unfold bind in Hrun |- *.
      destruct (group x h) as [[y|] h1]; [|discriminate].
      destruct (push (length h0) y h1) as [[[]|] h2]; [|discriminate].
      injection Hrun as ->. reflexivity. }
    rewrite Hstep. apply IH; [lia|].
    rewrite (take_S_r _ _ _ Hx). exact Hgrouped'.
Qed.

End Groups.

(** X24.  Over a store where the conferences are objects,
    [groupConferencesByName] returns a new array with one new object per
    record, in the order of the records: records are not merged.  The new
    object has the eight properties of the literal, with the values of
    the record (objects and arrays are shared, not copied), its
    [paperTypes] is the [paper_types] of the record or else a new, empty
    array, and it has no [flagship].  The objects that were in the store
    are as they were. *)
Theorem groupConferencesByName_groups (h : heap) (l : loc)
    (items : list value) :
  h !! l = Some (Arr items) ->
  Forall (is_object h) items ->
  exists h' groups,
    groupConferencesByName (VRef l) h = (Return (VRef (length h)), h') /\
    (forall i o, h !! i = Some o -> h' !! i = Some o) /\
    h' !! length h = Some (Arr groups) /\
    Forall2 (is_group h h') items groups /\
    Forall (fun g => get g (js "flagship") h' = (Return VUndefined, h'))
           groups.
Proof.
  intros Hitems Hobjects.
  destruct (map_loop_groups h l items Hitems Hobjects (length items) 0
              (h ++ [Arr []]))
    as (h' & Hrun & Hframe & groups & Harray & Hgroups).
  { lia. }
  { split.
    - intros i o Hi. apply lookup_app_l_Some. exact Hi.
    - exists []. split; [apply list_lookup_middle; reflexivity|].
      constructor. }
  exists h', groups. split; [|split; [exact Hframe|split; [exact Harray|]]].
  - unfold groupConferencesByName, Array_map.
    assert (Hread : read l h = (Return (Arr items), h)).
    { unfold read. rewrite Hitems. reflexivity. }
    rewrite (Refinement.run_bind _ _ _ _ _ Hread).
    rewrite (Refinement.run_bind _ _ _ _ _
               (eq_refl : alloc (Arr []) h
                          = (Return (length h), h ++ [Arr []]))).
    rewrite (Refinement.run_bind _ _ _ _ _ Hrun). reflexivity.
  - split; [exact Hgroups|].
    assert (H : forall cs gs,
               Forall2 (is_group h h') cs gs ->
               Forall (fun g => get g (js "flagship") h'
                                = (Return VUndefined, h')) gs).
    2: exact (H _ _ Hgroups).
    induction 1 as [|c g cs gs Hg _ IH]; [constructor|].
    constructor; [|exact IH].
    destruct Hg as (lc & props & lg & paperTypes & _ & _ & -> & _ & Hlg & _).
    rewrite (Refinement.get_object h' lg _ (js "flagship") Hlg).
    reflexivity.
Qed.

Lemma groupConferencesByName_groups_witness :
  exists h' groups,
    groupConferencesByName (VRef 1) twice_store
    = (Return (VRef (length twice_store)), h') /\
    (forall i o, twice_store !! i = Some o -> h' !! i = Some o) /\
    h' !! length twice_store = Some (Arr groups) /\
    Forall2 (is_group twice_store h') [VRef 0; VRef 0] groups /\
    Forall (fun g => get g (js "flagship") h' = (Return VUndefined, h'))
           groups.
Proof.
  apply (groupConferencesByName_groups twice_store 1 [VRef 0; VRef 0]).
  - reflexivity.
  - repeat constructor; eexists 0%nat, _; split; reflexivity.
Defined.

End Groups.

(** ** Widths *)

Lemma sync_columns_beyond (widths : list number) (index : nat)
    (columns : list (option jsstring * option jsstring)) :
  (length widths <= index)%nat -> sync_columns widths index columns = columns.
Proof.
  revert index. induction columns as [|column columns IH]; intros index Hge;
    [reflexivity|].
  cbn [sync_columns]. rewrite lookup_ge_None_2 by exact Hge.
  rewrite IH by lia. reflexivity.
Qed.

Lemma sync_columns_app (widths : list number) (index : nat)
    (xs ys : list (option jsstring * option jsstring)) :
  sync_columns widths index (xs ++ ys)
  = sync_columns widths index xs
    ++ sync_columns widths (index + length xs) ys.
Proof.
  revert index. induction xs as [|x xs IH]; intros index.
  - cbn. rewrite Nat.add_0_r. reflexivity.
  - cbn [app sync_columns length]. rewrite IH.
    replace (S index + length xs)%nat with (index + S (length xs))%nat by lia.
    reflexivity.
Qed.

Lemma sync_columns_first (widths : list number) (index : nat)
    (columns : list (option jsstring * option jsstring)) :
  (index + length columns = length widths)%nat ->
  sync_columns widths index columns
  = map (fun width => (Some (px width), Some (px width))) (drop index widths).
Proof.
  revert index. induction columns as [|column columns IH]; intros index Hlen.
  - cbn [length] in Hlen. rewrite drop_ge by lia. reflexivity.
  - cbn [length] in Hlen. cbn [sync_columns].
    destruct (lookup_lt_is_Some_2 widths index ltac:(lia)) as [width Hwidth].
    rewrite Hwidth, (drop_S _ _ _ Hwidth). cbn [map].
    rewrite IH by lia. reflexivity.
Qed.

Lemma fold_left_num_add (widths : list nat) (start : Z) :
  fold_left num_add (map (fun width => Int (Z.of_nat width)) widths)
            (Int start)
  = Int (start + Z.of_nat (list_sum widths)).
Proof.
  revert start. induction widths as [|width widths IH]; intros start.
  - cbn. rewrite Z.add_0_r. reflexivity.
  - cbn [map fold_left num_add]. rewrite IH.
    change (list_sum (width :: widths)) with (width + list_sum widths)%nat.
    f_equal. lia.
Qed.

(** X25.  [syncHeaderAndBodyWidth] numbers the month columns of all rows
    together: when every row has one column per month header, the columns
    of the first row get the widths of the headers, and the columns of
    every other row are left as they were.  The container and the body
    get the width of the conference column plus the sum of the widths of
    the headers. *)
Theorem syncHeaderAndBodyWidth_first_row (widths : list nat) (column : nat)
    (layout : Layout)
    (first : list (option jsstring * option jsstring))
    (others : list (list (option jsstring * option jsstring))) :
  widths <> [] ->
  monthColumn_widths layout = first ++ concat others ->
  length first = length widths ->
  monthColumn_widths (syncHeaderAndBodyWidth widths column layout)
  = map (fun width => (Some (px (Int (Z.of_nat width))),
                       Some (px (Int (Z.of_nat width))))) widths
    ++ concat others /\
  calendarContainer_width (syncHeaderAndBodyWidth widths column layout)
  = Some (px (Int (Z.of_nat (column + list_sum widths)))) /\
  calendarBody_width (syncHeaderAndBodyWidth widths column layout)
  = Some (px (Int (Z.of_nat (column + list_sum widths)))).
Proof.
  intros Hne Hcolumns Hfirst. unfold syncHeaderAndBodyWidth.
  destruct widths as [|width widths]; [congruence|].
  cbn [length Nat.ltb Nat.leb]. cbn zeta.
  cbn [monthColumn_widths calendarContainer_width calendarBody_width].
  rewrite fold_left_num_add. cbn [num_add].
  replace (Z.of_nat column + (0 + Z.of_nat (list_sum (width :: widths))))
    with (Z.of_nat (column + list_sum (width :: widths))) by lia.
  split; [|split; reflexivity].
  rewrite Hcolumns, sync_columns_app.
  rewrite sync_columns_first by (rewrite length_map; cbn [length] in *; lia).
  rewrite sync_columns_beyond
    by (rewrite length_map; cbn [length] in *; lia).
  rewrite drop_0, map_map. reflexivity.
Qed.

Lemma syncHeaderAndBodyWidth_first_row_witness :
  monthColumn_widths
    (syncHeaderAndBodyWidth [150; 160]%nat 300%nat layout_two_rows)
  = [(Some (js "150px"), Some (js "150px"));
     (Some (js "160px"), Some (js "160px"));
     (None, None); (None, None)].
Proof.
  refine (proj1 (syncHeaderAndBodyWidth_first_row [150; 160]%nat 300%nat
                   layout_two_rows [(None, None); (None, None)]
                   [[(None, None); (None, None)]] _ eq_refl eq_refl)).
  discriminate.
Defined.

(** ** Rows and controls together *)

Lemma renderConferenceRows_columns_witness :
  map (fun row => map highlighted (row_columns row))
      (renderConferenceRows (Date_parse_iso false) (LocalDate 2025 10 20)
                            calendar_2025_10).1
  = map (fun _ => map highlighted
                      (renderMonthHeaders (LocalDate 2025 10 20)
                                          calendar_2025_10))
        (filteredConferences calendar_2025_10).
Proof.
  apply (renderConferenceRows_columns (Date_parse_iso false)
           (LocalDate 2025 10 20) calendar_2025_10).
  discriminate.
Defined.

Lemma renderConferenceRows_one_row_per_record_witness :
  map (fun row => map text_of (row_fullName row))
      (renderConferenceRows (Date_parse_iso false) (LocalDate 2025 10 20)
         (with_filteredConferences [conf_abc; conf_abc] calendar_2025_10)).1
  = [[js "abc"]; [js "abc"]].
Proof.
  apply (proj2 (renderConferenceRows_one_row_per_record
                  (Date_parse_iso false) (LocalDate 2025 10 20)
                  (with_filteredConferences [conf_abc; conf_abc]
                                            calendar_2025_10))).
  discriminate.
Defined.

Lemma renderConferenceRows_badges_witness :
  map row_badges
      (renderConferenceRows (Date_parse_iso false) (LocalDate 2025 10 20)
         (with_filteredConferences [conf_sigmod] calendar_2025_10)).1
  = [[theme_badge (js "03. Databases")]].
Proof.
  apply (proj1 (renderConferenceRows_badges
                  (Date_parse_iso false) (LocalDate 2025 10 20)
                  (with_filteredConferences [conf_sigmod] calendar_2025_10))).
  discriminate.
Defined.

Lemma filter_callback_none (toLowerCase : jsstring -> jsstring)
    (this : ConferenceCalendar) (confs : list ConferenceRecord) :
  fs_themes (currentFilters this) = ∅ ->
  List.filter (filter_callback toLowerCase this) confs = [].
Proof.
  intros Hnone. induction confs as [|conf confs IH]; [reflexivity|].
  cbn [List.filter]. unfold filter_callback at 1.
  rewrite Hnone, size_empty. exact IH.
Qed.

(** X26.  The click on "deselect all" unchecks every box and leaves the
    list with the one message that nothing was found, whatever the search
    string is; the search string itself is kept. *)
Theorem deselect_all_shows_nothing (toLowerCase : jsstring -> jsstring)
    (Date_parse : jsstring -> Date) (page : Page) (now : Date) :
  listening page = true ->
  conferencesList
    (dispatch toLowerCase Date_parse page (now, ClickDeselectAll))
  = Children [noDataDiv] /\
  filteredConferences
    (controller (dispatch toLowerCase Date_parse page (now, ClickDeselectAll)))
  = [] /\
  Forall (fun box => cb_checked box = false)
         (themeCheckboxes
            (dispatch toLowerCase Date_parse page (now, ClickDeselectAll))) /\
  fs_search
    (currentFilters
       (controller
          (dispatch toLowerCase Date_parse page (now, ClickDeselectAll))))
  = fs_search (currentFilters (controller page)).
Proof.
  intros Hon. cbn [dispatch]. rewrite Hon.
  unfold on_deselectAll, applyFilters_render, renderCalendar.
  cbn [conferencesList controller with_controller themeCheckboxes
       with_checkboxes].
  assert (Hnone : filteredConferences
                    (applyFilters toLowerCase
                       (with_themes ∅ (controller page))) = []).
  { cbn [filteredConferences applyFilters].
    apply filter_callback_none. reflexivity. }
  split; [|split; [exact Hnone|split; [|reflexivity]]].
  - unfold renderConferenceRows. rewrite Hnone. reflexivity.
  - induction (themeCheckboxes page) as [|box boxes IH]; constructor;
      [reflexivity | exact IH].
Qed.

Lemma deselect_all_shows_nothing_witness :
  conferencesList
    (dispatch ascii_toLowerCase (Date_parse_iso false)
       (init ascii_toLowerCase (Date_parse_iso false)
             (Response true (JsonValue feed)) NetworkError
             (LocalDate 2025 10 15) (constructed blank_page))
       (LocalDate 2025 10 15, ClickDeselectAll))
  = Children [noDataDiv].
Proof.
  apply deselect_all_shows_nothing. reflexivity.
Defined.

(** ** Dates read behind UTC *)

(** X27.  A date-only string is midnight UTC.  Where local time is behind
    UTC every such date is read as the day before: a deadline dated on
    the first day of a month is put in the column of the month before,
    and in no other, and its marker shows the last day of that month. *)
Theorem first_of_month_behind_UTC (s : jsstring) (y m : Z)
    (deadline : DeadlineRecord) (slot : MonthSlot) :
  iso_date_only s = Some (y, m, 1) -> 1 < m ->
  dl_date deadline = Some s ->
  Date_parse_iso true s = LocalDate y (m - 2) (days_in_month y (m - 2)) /\
  (deadline_in_month (Date_parse_iso true) slot deadline = true
   <-> slot_ym slot = (Int y, Int (m - 1))) /\
  (deadline_in_month (Date_parse_iso false) slot deadline = true
   <-> slot_ym slot = (Int y, Int m)) /\
  forall conference confYear,
    textContent
      (createDeadlineMarker (Date_parse_iso true)
         (deadline_entry conference confYear deadline)).1
    = digits_of (m - 1) ++ js "/" ++ digits_of (days_in_month y (m - 2)).
Proof.
  intros Hiso Hm Hdate.
  assert (Hne : truthy_string s = true).
  { destruct s; [discriminate Hiso | reflexivity]. }
  assert (Hbehind : Date_parse_iso true s
                    = LocalDate y (m - 2) (days_in_month y (m - 2))).
  { unfold Date_parse_iso. rewrite Hiso. unfold prev_day.
    change (1 <? 1) with false. cbn iota.
    destruct (Z.ltb_spec 0 (m - 1)); [|lia].
    replace (m - 1 - 1) with (m - 2) by lia. reflexivity. }
  assert (Hahead : Date_parse_iso false s = LocalDate y (m - 1) 1).
  { unfold Date_parse_iso. rewrite Hiso. reflexivity. }
  split; [exact Hbehind|]. split; [|split].
  - unfold deadline_in_month. rewrite Hdate. cbn [truthy_opt Date_of].
    rewrite Hne, Hbehind. cbn [andb]. rewrite in_month_fields.
    unfold slot_ym. replace (m - 2 + 1) with (m - 1) by lia.
    split; [intros [-> ->]; reflexivity | intros [= -> ->]; auto].
  - unfold deadline_in_month. rewrite Hdate. cbn [truthy_opt Date_of].
    rewrite Hne, Hahead. cbn [andb]. rewrite in_month_fields.
    unfold slot_ym. replace (m - 1 + 1) with m by lia.
    split; [intros [-> ->]; reflexivity | intros [= -> ->]; auto].
  - intros conference confYear. rewrite createDeadlineMarker_text.
    cbn [deadline_entry e_type e_endDate e_date truthy_opt].
    rewrite andb_false_r, Hdate. cbn [Date_of]. rewrite Hbehind.
    cbn [getMonth getDate num_add num_toString].
    replace (m - 2 + 1) with (m - 1) by lia. reflexivity.
Qed.

Lemma first_of_month_behind_UTC_witness :
  Date_parse_iso true (js "2026-03-01") = LocalDate 2026 1 28 /\
  textContent
    (createDeadlineMarker (Date_parse_iso true)
       (deadline_entry ice_dated (js "2026")
          (mkDeadline (Some (js "submission")) (Some (js "2026-03-01"))
                      None Undefined))).1
  = js "2/28".
Proof.
  destruct (first_of_month_behind_UTC (js "2026-03-01") 2026 3
              (mkDeadline (Some (js "submission")) (Some (js "2026-03-01"))
                          None Undefined)
              (slot_of 2026 2) eq_refl eq_refl eq_refl)
    as (Hparse & _ & _ & Htext).
  split; [exact Hparse | exact (Htext ice_dated (js "2026"))].
Defined.

(** ** The sticky header *)

Section StickyProperties.

Variable pixels : Type.
Variable plus : pixels -> pixels -> pixels.
Variable minus : pixels -> pixels -> pixels.
Variable at_least : pixels -> pixels -> bool.
Variable Math_min : pixels -> pixels -> pixels.
Variable Math_max_0 : pixels -> pixels.
Variable is_truthy : pixels -> bool.
Variable String_of : pixels -> jsstring.
Variable three_hundred : pixels.

Lemma scroll_clone_None (measure : Measure pixels)
    (wrapper : option Wrapper) :
  scroll_clone pixels minus Math_min Math_max_0 is_truthy String_of
               three_hundred measure wrapper = None
  <-> wrapper = None.
Proof. destruct wrapper; cbn; split; congruence. Qed.

Lemma handleScroll_fixed_with_clone (measure : Measure pixels)
    (state : Sticky pixels) :
  fixed_with_clone pixels state ->
  fixed_with_clone pixels
    (handleScroll pixels plus minus at_least Math_min Math_max_0 is_truthy
                  String_of three_hundred measure state).
Proof.
  intros [Hclone Hstyles]. unfold handleScroll. cbn zeta.
  destruct (at_least _ _); destruct (isFixed pixels state) eqn:Hfixed;
    cbn [negb];
    (split;
     cbn [isFixed monthsWrapper monthsHeader_visibility
          conferenceColumnHeader_position]).
  - rewrite scroll_clone_None. exact Hclone.
  - exact Hstyles.
  - rewrite scroll_clone_None.
    destruct (monthsWrapper pixels state); unfold updateMonthsWrapperWidth;
      (split; [intros _; discriminate | reflexivity]).
  - intros _. split; reflexivity.
  - split; [discriminate | congruence].
  - discriminate.
  - exact Hclone.
  - discriminate.
Qed.

Lemma handle_fixed_with_clone (state : Sticky pixels)
    (event : LayoutEvent pixels) :
  fixed_with_clone pixels state ->
  fixed_with_clone pixels
    (handle pixels plus minus at_least Math_min Math_max_0 is_truthy
            String_of three_hundred state event).
Proof.
  intros Hstate. destruct event as [measure|measure|measure]; cbn [handle].
  - apply handleScroll_fixed_with_clone. exact Hstate.
  - destruct Hstate as [Hclone Hstyles]. unfold handleWrapperScroll.
    destruct (isFixed pixels state) eqn:Hfixed;
      [|split; [rewrite Hfixed; exact Hclone | congruence]].
    split;
      cbn [isFixed monthsWrapper monthsHeader_visibility
           conferenceColumnHeader_position].
    + rewrite scroll_clone_None. exact Hclone.
    + exact Hstyles.
  - unfold handleResize. apply handleScroll_fixed_with_clone.
    split; cbn [isFixed monthsWrapper]; [split; congruence | discriminate].
Qed.

Lemma run_fixed_with_clone (events : list (LayoutEvent pixels))
    (state : Sticky pixels) :
  fixed_with_clone pixels state ->
  fixed_with_clone pixels
    (fold_left (handle pixels plus minus at_least Math_min Math_max_0
                       is_truthy String_of three_hundred) events state).
Proof.
  revert state. induction events as [|event events IH]; intros state Hstate;
    [exact Hstate|].
  cbn [fold_left]. apply IH, handle_fixed_with_clone, Hstate.
Qed.

Lemma handle_visible_unless_fixed (visibility : jsstring)
    (state : Sticky pixels) (event : LayoutEvent pixels) :
  is_resize pixels event = false ->
  visible_unless_fixed pixels visibility state ->
  visible_unless_fixed pixels visibility
    (handle pixels plus minus at_least Math_min Math_max_0 is_truthy
            String_of three_hundred state event).
Proof.
  intros Hevent Hvisible. unfold visible_unless_fixed in *.
  destruct event as [measure|measure|measure]; [| |discriminate Hevent];
    cbn [handle].
  - unfold handleScroll. cbn zeta.
    destruct (at_least _ _); destruct (isFixed pixels state) eqn:Hfixed;
      cbn [negb isFixed monthsHeader_visibility].
    + discriminate.
    + discriminate.
    + intros _. right. reflexivity.
    + intros _. apply Hvisible. reflexivity.
  - unfold handleWrapperScroll.
    destruct (isFixed pixels state) eqn:Hfixed;
      cbn [isFixed monthsHeader_visibility].
    + discriminate.
    + intros _. apply Hvisible. reflexivity.
Qed.

Lemma run_visible_unless_fixed (visibility : jsstring)
    (events : list (LayoutEvent pixels)) (state : Sticky pixels) :
  forallb (fun event => negb (is_resize pixels event)) events = true ->
  visible_unless_fixed pixels visibility state ->
  visible_unless_fixed pixels visibility
    (fold_left (handle pixels plus minus at_least Math_min Math_max_0
                       is_truthy String_of three_hundred) events state).
Proof.
  revert state. induction events as [|event events IH];
    intros state Hevents Hstate; [exact Hstate|].
  cbn [fold_left forallb] in *.
  apply andb_true_iff in Hevents as [Hevent Hevents].
  apply negb_true_iff in Hevent.
  apply IH; [exact Hevents|].
  apply handle_visible_unless_fixed; assumption.
Qed.

Lemma handle_header_lost (top : pixels) (state : Sticky pixels)
    (event : LayoutEvent pixels) :
  stays_above pixels at_least top event = true ->
  headerTop pixels state = Some top /\ header_lost pixels state ->
  headerTop pixels
    (handle pixels plus minus at_least Math_min Math_max_0 is_truthy
            String_of three_hundred state event) = Some top /\
  header_lost pixels
    (handle pixels plus minus at_least Math_min Math_max_0 is_truthy
            String_of three_hundred state event).
Proof.
  intros Habove (Htop & Hfixed & Hwrapper & Hhidden).
  destruct event as [measure|measure|measure]; [| |discriminate Habove];
    cbn [handle stays_above] in *.
  - unfold handleScroll. cbn zeta. rewrite Htop.
    apply negb_true_iff in Habove. rewrite Habove, Hfixed.
    unfold header_lost.
    cbn [headerTop isFixed monthsWrapper monthsHeader_visibility]. auto.
  - unfold handleWrapperScroll. rewrite Hfixed.
    split; [exact Htop|]. split; [exact Hfixed|]. split; assumption.
Qed.

Lemma run_header_lost (top : pixels) (events : list (LayoutEvent pixels))
    (state : Sticky pixels) :
  forallb (stays_above pixels at_least top) events = true ->
  headerTop pixels state = Some top /\ header_lost pixels state ->
  header_lost pixels
    (fold_left (handle pixels plus minus at_least Math_min Math_max_0
                       is_truthy String_of three_hundred) events state).
Proof.
  revert state. induction events as [|event events IH];
    intros state Hevents Hstate; [exact (proj2 Hstate)|].
  cbn [fold_left forallb] in *.
  apply andb_true_iff in Hevents as [Hevent Hevents].
  apply IH; [exact Hevents|].
  apply handle_header_lost; assumption.
Qed.

End StickyProperties.

(** X28.  Whatever the window and the calendar are scrolled to and
    however the window is resized, the header is fixed exactly when the
    wrapper with the clone of the month header exists, and then the month
    header is hidden and the header of the conference column is fixed.
    As long as the window is not resized, the month header is hidden only
    while the header is fixed: otherwise its visibility is the one of the
    document, or empty. *)
Theorem sticky_header_invariant (pixels : Type)
    (plus minus : pixels -> pixels -> pixels)
    (at_least : pixels -> pixels -> bool)
    (Math_min : pixels -> pixels -> pixels) (Math_max_0 : pixels -> pixels)
    (is_truthy : pixels -> bool) (String_of : pixels -> jsstring)
    (three_hundred : pixels)
    (visibility position top left zIndex column_visibility : jsstring)
    (events : list (LayoutEvent pixels)) :
  fixed_with_clone pixels
    (fold_left (handle pixels plus minus at_least Math_min Math_max_0
                       is_truthy String_of three_hundred)
               events
               (setupStickyHeader pixels visibility position top left zIndex
                                  column_visibility)) /\
  (forallb (fun event => negb (is_resize pixels event)) events = true ->
   isFixed pixels
     (fold_left (handle pixels plus minus at_least Math_min Math_max_0
                        is_truthy String_of three_hundred)
                events
                (setupStickyHeader pixels visibility position top left zIndex
                                   column_visibility)) = false ->
   monthsHeader_visibility pixels
     (fold_left (handle pixels plus minus at_least Math_min Math_max_0
                        is_truthy String_of three_hundred)
                events
                (setupStickyHeader pixels visibility position top left zIndex
                                   column_visibility)) = visibility \/
   monthsHeader_visibility pixels
     (fold_left (handle pixels plus minus at_least Math_min Math_max_0
                        is_truthy String_of three_hundred)
                events
                (setupStickyHeader pixels visibility position top left zIndex
                                   column_visibility)) = []).
Proof.
  split.
  - apply run_fixed_with_clone.
    split; cbn [isFixed monthsWrapper setupStickyHeader];
      [split; congruence | discriminate].
  - intros Hevents.
    apply (run_visible_unless_fixed pixels plus minus at_least Math_min
             Math_max_0 is_truthy String_of three_hundred visibility events
             _ Hevents).
    intros _. left. reflexivity.
Qed.

(** X29.  A resize of the window forgets that the header is fixed without
    putting back the styles.  When the header was fixed and, after the
    resize, the window is not scrolled past the top of the calendar, the
    month header stays hidden although nothing is fixed and there is no
    clone; and it stays so through every scroll of the calendar and every
    scroll of the window that does not reach the top of the calendar. *)
Theorem resize_loses_header (pixels : Type)
    (plus minus : pixels -> pixels -> pixels)
    (at_least : pixels -> pixels -> bool)
    (Math_min : pixels -> pixels -> pixels) (Math_max_0 : pixels -> pixels)
    (is_truthy : pixels -> bool) (String_of : pixels -> jsstring)
    (three_hundred : pixels)
    (state : Sticky pixels) (measure : Measure pixels)
    (events : list (LayoutEvent pixels)) :
  isFixed pixels state = true ->
  monthsHeader_visibility pixels state = js "hidden" ->
  at_least (window_scrollY pixels measure)
           (plus (wrapperRect_top pixels measure)
                 (window_scrollY pixels measure)) = false ->
  forallb (stays_above pixels at_least
             (plus (wrapperRect_top pixels measure)
                   (window_scrollY pixels measure))) events = true ->
  header_lost pixels
    (fold_left (handle pixels plus minus at_least Math_min Math_max_0
                       is_truthy String_of three_hundred)
               (WindowResize pixels measure :: events) state).
Proof.
  intros Hfixed Hhidden Hbelow Hevents. cbn [fold_left handle].
  apply (run_header_lost pixels plus minus at_least Math_min Math_max_0
           is_truthy String_of three_hundred _ events _ Hevents).
  unfold handleResize, handleScroll. cbn zeta.
  cbn [headerTop isFixed]. rewrite Hbelow.
  unfold header_lost.
  cbn [headerTop isFixed monthsWrapper monthsHeader_visibility]. auto.
Qed.

Lemma resize_loses_header_witness :
  header_lost Z
    (fold_left handle_whole
       [WindowResize Z (measure_at 50); WrapperScroll Z (measure_at 50);
        WindowScroll Z (measure_at 60)]
       (handle_whole (setupStickyHeader Z [] [] [] [] [] [])
                     (WindowScroll Z (measure_at (-100))))).
Proof.
  apply (resize_loses_header Z Z.add Z.sub Z.geb Z.min (Z.max 0)
           (fun x => negb (x =? 0)) digits_of 300
           (handle_whole (setupStickyHeader Z [] [] [] [] [] [])
                         (WindowScroll Z (measure_at (-100))))
           (measure_at 50)
           [WrapperScroll Z (measure_at 50); WindowScroll Z (measure_at 60)]);
    reflexivity.
Defined.

(** ** The filter over the store *)

Module FilterRun.

Lemma some_loop_pure (h : Store.heap) (la : nat) (xs : list Store.value)
    (cb : Store.value -> Store.M bool) (f : Store.value -> bool)
    (n k : nat) :
  h !! la = Some (Store.Arr xs) ->
  (forall x, In x xs -> cb x h = (Store.Return (f x), h)) ->
  (k + n = length xs)%nat ->
  Store.some_loop n k la cb h = (Store.Return (existsb f (drop k xs)), h).
Proof.
  intros Hla Hcb. revert k. induction n as [|n IH]; intros k Hk.
  - rewrite drop_ge by lia. reflexivity.
  - cbn [Store.some_loop].
    assert (Helement : Store.element la k h = (Store.Return (xs !! k), h)).
    { unfold Store.element, Store.bind, Store.read. rewrite Hla.
      reflexivity. }
    rewrite (Refinement.run_bind _ _ _ _ _ Helement).
    destruct (lookup_lt_is_Some_2 xs k ltac:(lia)) as [x Hx].
    rewrite Hx, (drop_S _ _ _ Hx). cbn [existsb].
    assert (Hin : In x xs).
    { apply list_elem_of_In, list_elem_of_lookup. exists k. exact Hx. }
    rewrite (Refinement.run_bind _ _ _ _ _ (Hcb x Hin)).
    destruct (f x); [reflexivity|]. apply IH. lia.
Qed.

Lemma some_pure (h : Store.heap) (la : nat) (xs : list Store.value)
    (cb : Store.value -> Store.M bool) (f : Store.value -> bool) :
  h !! la = Some (Store.Arr xs) ->
  (forall x, In x xs -> cb x h = (Store.Return (f x), h)) ->
  Store.some (Store.VRef la) cb h = (Store.Return (existsb f xs), h).
Proof.
  intros Hla Hcb. unfold Store.some.
  assert (Hread : Store.read la h = (Store.Return (Store.Arr xs), h)).
  { unfold Store.read. rewrite Hla. reflexivity. }
  rewrite (Refinement.run_bind _ _ _ _ _ Hread).
  rewrite (some_loop_pure h la xs cb f (length xs) 0 Hla Hcb) by lia.
  rewrite drop_0. reflexivity.
Qed.

Lemma existsb_map_opt {A B : Type} (f : B -> bool) (g : A -> B)
    (f' : A -> bool) (l : list A) :
  (forall x, f (g x) = f' x) -> existsb f (map g l) = existsb f' l.
Proof.
  intros Hfg. induction l as [|x l IH]; [reflexivity|].
  cbn [map existsb]. rewrite Hfg, IH. reflexivity.
Qed.

Lemma or_else_opt_value (o : option jsstring) :
  Store.or_else (opt_value o) (Store.VString [])
  = Store.VString (or_empty o).
Proof. destruct o as [[|c s]|]; reflexivity. Qed.

Lemma has_opt_value (selected : gset jsstring) (o : option jsstring) :
  Store.has selected (opt_value o) = has selected o.
Proof. destruct o; reflexivity. Qed.

(** The themes of a record, as values. *)
Lemma confThemes_values (conf : ConferenceRecord) :
  match themes conf with
  | Some ts => map Store.VString ts
  | None => [opt_value (theme conf)]
  end = map opt_value (confThemes conf).
Proof.
  unfold confThemes. destruct (themes conf) as [ts|]; [|reflexivity].
  rewrite map_map. reflexivity.
Qed.

Section Callback.

Variable toLowerCase : jsstring -> jsstring.
Variable this : Store.Controller.
Variable calendar : ConferenceCalendar.

Hypothesis Hfilters : Store.currentFilters this = currentFilters calendar.

(** The search tests of the callback, over a store where the array of
    the themes of the record is at [la]. *)
Lemma search_sim (h : Store.heap) (l la : nat)
    (props : list (jsstring * Store.value)) (conf : ConferenceRecord) :
  h !! l = Some (Store.Obj props) ->
  Store.lookup_key props (js "name") = opt_value (name conf) ->
  Store.lookup_key props (js "short_name") = opt_value (short_name conf) ->
  h !! la = Some (Store.Arr (map opt_value (confThemes conf))) ->
  Store.bind
    (Store.some (Store.VRef la)
       (fun theme =>
          Store.ret (Store.has (fs_themes (Store.currentFilters this)) theme)))
    (fun hasMatchingTheme =>
       if negb hasMatchingTheme then Store.ret false
       else if truthy_string (fs_search (Store.currentFilters this)) then
         Store.bind (Store.get (Store.VRef l) (js "name"))
           (fun name =>
         Store.bind
           (Store.lower_includes toLowerCase
              (Store.or_else name (Store.VString []))
              (fs_search (Store.currentFilters this)))
           (fun nameMatch =>
         Store.bind (Store.get (Store.VRef l) (js "short_name"))
           (fun short_name =>
         Store.bind
           (Store.lower_includes toLowerCase
              (Store.or_else short_name (Store.VString []))
              (fs_search (Store.currentFilters this)))
           (fun shortNameMatch =>
         Store.bind
           (Store.some (Store.VRef la)
              (fun theme =>
                 Store.lower_includes toLowerCase
                   (Store.or_else theme (Store.VString []))
                   (fs_search (Store.currentFilters this))))
           (fun themeMatch =>
              if negb nameMatch && negb shortNameMatch && negb themeMatch
              then Store.ret false else Store.ret true)))))
       else Store.ret true) h
  = (Store.Return
       (if negb (existsb (fun theme =>
                            has (fs_themes (currentFilters calendar)) theme)
                         (confThemes conf))
        then false
        else if truthy_string (fs_search (currentFilters calendar)) then
          if negb (includes (toLowerCase (or_empty (name conf)))
                            (fs_search (currentFilters calendar)))
             && negb (includes (toLowerCase (or_empty (short_name conf)))
                               (fs_search (currentFilters calendar)))
             && negb (existsb
                        (fun theme =>
                           includes (toLowerCase (or_empty theme))
                                    (fs_search (currentFilters calendar)))
                        (confThemes conf))
          then false else true
        else true), h).
Proof.
  intros Hl Hname Hshort Hla. rewrite Hfilters.
  rewrite (Refinement.run_bind _ _ _ _ _
             (some_pure h la _ _
                (Store.has (fs_themes (currentFilters calendar))) Hla
                (fun x _ => eq_refl))).
  rewrite (existsb_map_opt _ opt_value
             (fun theme => has (fs_themes (currentFilters calendar)) theme)
             _ (has_opt_value _)).
  destruct (negb (existsb _ (confThemes conf))); [reflexivity|].
  destruct (truthy_string (fs_search (currentFilters calendar)));
    [|reflexivity].
  rewrite (Refinement.run_bind _ _ _ _ _
             (Refinement.get_object h l props (js "name") Hl)).
  rewrite Hname, or_else_opt_value.
  rewrite (Refinement.run_bind _ _ _ _ _
             (eq_refl : Store.lower_includes toLowerCase
                          (Store.VString (or_empty (name conf))) _ h
                        = (Store.Return _, h))).
  rewrite (Refinement.run_bind _ _ _ _ _
             (Refinement.get_object h l props (js "short_name") Hl)).
  rewrite Hshort, or_else_opt_value.
  rewrite (Refinement.run_bind _ _ _ _ _
             (eq_refl : Store.lower_includes toLowerCase
                          (Store.VString (or_empty (short_name conf))) _ h
                        = (Store.Return _, h))).
  assert (Hthemes :
    Store.some (Store.VRef la)
      (fun theme =>
         Store.lower_includes toLowerCase
           (Store.or_else theme (Store.VString []))
           (fs_search (currentFilters calendar))) h
    = (Store.Return
         (existsb (fun theme =>
                     match Store.or_else theme (Store.VString []) with
                     | Store.VString s =>
                         includes (toLowerCase s)
                                  (fs_search (currentFilters calendar))
                     | _ => false
                     end)
                  (map opt_value (confThemes conf))), h)).
  { apply (some_pure h la _ _ _ Hla). intros x Hx.
    apply in_map_iff in Hx as (o & <- & _).
    rewrite or_else_opt_value. reflexivity. }
  rewrite (Refinement.run_bind _ _ _ _ _ Hthemes).
  assert (Hpoint : forall o,
    match Store.or_else (opt_value o) (Store.VString []) with
    | Store.VString s =>
        includes (toLowerCase s) (fs_search (currentFilters calendar))
    | _ => false
    end
    = includes (toLowerCase (or_empty o))
               (fs_search (currentFilters calendar))).
  { intros o. rewrite or_else_opt_value. reflexivity. }
  rewrite (existsb_map_opt _ opt_value _ _ Hpoint).
  destruct (negb _ && negb _ && negb _); reflexivity.
Qed.

Lemma filter_callback_sim (h h1 : Store.heap) (v : Store.value)
    (conf : ConferenceRecord) :
  is_filter_record h v conf ->
  (forall i o, h !! i = Some o -> h1 !! i = Some o) ->
  exists h2,
    Store.filter_callback toLowerCase this v h1
    = (Store.Return (filter_callback toLowerCase calendar conf), h2) /\
    (forall i o, h1 !! i = Some o -> h2 !! i = Some o).
Proof.
  intros (l & props & -> & Hl & Hname & Hshort & Htheme & Hthemes) Hagree.
  pose proof (Hagree _ _ Hl) as Hl1.
  unfold Store.filter_callback, filter_callback. cbn zeta.
  rewrite <- Hfilters.
  destruct (size (fs_themes (Store.currentFilters this)) =? 0)%nat.
  { exists h1. split; [reflexivity | auto]. }
  rewrite Hfilters.
  rewrite (Refinement.run_bind _ _ _ _ _
             (Refinement.get_object h1 l props (js "themes") Hl1)).
  unfold confThemes in *.
  destruct (themes conf) as [ts|].
  - destruct Hthemes as (lt & -> & Hlt).
    pose proof (Hagree _ _ Hlt) as Hlt1.
    assert (Harray : Store.isArray (Store.VRef lt) h1
                     = (Store.Return true, h1)).
    { unfold Store.isArray, Store.bind, Store.read. rewrite Hlt1.
      reflexivity. }
    rewrite (Refinement.run_bind _ _ _ _ _ Harray).
    rewrite (Refinement.run_bind _ _ _ _ _
               (eq_refl : Store.ret (Store.VRef lt) h1
                          = (Store.Return (Store.VRef lt), h1))).
    exists h1. split; [|auto].
    rewrite <- Hfilters.
    rewrite (search_sim h1 l lt props
               (mkConference (name conf) (short_name conf) None None None
                             (Some ts) None None) Hl1 Hname Hshort).
    + rewrite Hfilters. reflexivity.
    + cbn [confThemes themes]. rewrite map_map. exact Hlt1.
  - rewrite Hthemes.
    rewrite (Refinement.run_bind _ _ _ _ _
               (eq_refl : Store.isArray Store.VUndefined h1
                          = (Store.Return false, h1))).
    assert (Hlegacy :
      Store.bind (Store.get (Store.VRef l) (js "theme"))
        (fun theme =>
           Store.bind (Store.alloc (Store.Arr [theme]))
                      (fun a => Store.ret (Store.VRef a))) h1
      = (Store.Return (Store.VRef (length h1)),
         h1 ++ [Store.Arr [opt_value (theme conf)]])).
    { rewrite (Refinement.run_bind _ _ _ _ _
                 (Refinement.get_object h1 l props (js "theme") Hl1)).
      rewrite Htheme. reflexivity. }
    rewrite (Refinement.run_bind _ _ _ _ _ Hlegacy).
    eexists. split.
    + rewrite <- Hfilters.
      rewrite (search_sim _ l (length h1) props
                 (mkConference (name conf) (short_name conf) None None
                               (theme conf) None None None)
                 (lookup_app_l_Some _ _ _ _ Hl1) Hname Hshort).
      * rewrite Hfilters. reflexivity.
      * apply list_lookup_middle. reflexivity.
    + intros i o Hi. apply lookup_app_l_Some. exact Hi.
Qed.

Lemma kept_of_cons (keep : ConferenceRecord -> bool) (x : Store.value)
    (xs : list Store.value) (c : ConferenceRecord)
    (cs : list ConferenceRecord) :
  kept_of keep (x :: xs) (c :: cs)
  = (if keep c then [x] else []) ++ kept_of keep xs cs.
Proof.
  unfold kept_of. cbn [combine List.filter snd]. destruct (keep c); reflexivity.
Qed.

Lemma kept_of_records (keep : ConferenceRecord -> bool) (h : Store.heap)
    (items : list Store.value) (confs : list ConferenceRecord) :
  Forall2 (is_filter_record h) items confs ->
  Forall2 (is_filter_record h) (kept_of keep items confs)
          (List.filter keep confs).
Proof.
  induction 1 as [|x c xs cs Hx _ IH]; [constructor|].
  rewrite kept_of_cons. cbn [List.filter].
  destruct (keep c); [constructor; assumption | exact IH].
Qed.

Section Loop.

Variable h : Store.heap.
Variable l : nat.
Variable items : list Store.value.
Variable confs : list ConferenceRecord.

Hypothesis Hitems : h !! l = Some (Store.Arr items).
Hypothesis Hrecords : Forall2 (is_filter_record h) items confs.

Lemma filter_loop_sim (n k : nat) (h1 : Store.heap)
    (acc : list Store.value) :
  (k + n = length items)%nat ->
  (forall i o, h !! i = Some o -> h1 !! i = Some o) ->
  h1 !! length h = Some (Store.Arr acc) ->
  exists h2,
    Store.filter_loop n k l (length h)
                      (Store.filter_callback toLowerCase this) h1
    = (Store.Return tt, h2) /\
    (forall i o, h !! i = Some o -> h2 !! i = Some o) /\
    h2 !! length h
    = Some (Store.Arr
              (acc ++ kept_of (filter_callback toLowerCase calendar)
                              (drop k items) (drop k confs))).
Proof.
  revert k h1 acc. induction n as [|n IH]; intros k h1 acc Hk Hagree Hacc.
  - exists h1. split; [reflexivity|]. split; [exact Hagree|].
    rewrite (drop_ge items) by lia. unfold kept_of. cbn.
    rewrite app_nil_r. exact Hacc.
  - cbn [Store.filter_loop].
    assert (Helement : Store.element l k h1
                       = (Store.Return (items !! k), h1)).
    { unfold Store.element, Store.bind, Store.read.
      rewrite (Hagree _ _ Hitems). reflexivity. }
    rewrite (Refinement.run_bind _ _ _ _ _ Helement).
    destruct (lookup_lt_is_Some_2 items k ltac:(lia)) as [x Hx].
    destruct (Forall2_lookup_l _ _ _ _ _ Hrecords Hx) as (c & Hc & Hxc).
    rewrite Hx, (drop_S _ _ _ Hx), (drop_S _ _ _ Hc), kept_of_cons.
    destruct (filter_callback_sim h h1 x c Hxc Hagree)
      as (h2 & Hrun & Hextend).
    rewrite (Refinement.run_bind _ _ _ _ _ Hrun).
    pose proof (Hextend _ _ Hacc) as Hacc2.
    pose proof (lookup_lt_Some _ _ _ Hacc2) as Hlt.
    destruct (filter_callback toLowerCase calendar c).
    + assert (Hpush : Store.push (length h) x h2
                      = (Store.Return tt,
                         <[length h := Store.Arr (acc ++ [x])]> h2)).
      { unfold Store.push, Store.bind, Store.read. rewrite Hacc2.
        reflexivity. }
      rewrite (Refinement.run_bind _ _ _ _ _ Hpush).
      destruct (IH (S k) (<[length h := Store.Arr (acc ++ [x])]> h2)
                   (acc ++ [x]))
        as (h3 & Hloop & Hagree3 & Hacc3).
      * lia.
      * intros i o Hi. pose proof (lookup_lt_Some _ _ _ Hi).
        rewrite list_lookup_insert_ne by lia. apply Hextend, Hagree, Hi.
      * apply list_lookup_insert_eq. exact Hlt.
      * exists h3. split; [exact Hloop|]. split; [exact Hagree3|].
        rewrite Hacc3, <- app_assoc. reflexivity.
    + rewrite (Refinement.run_bind _ _ _ _ _
                 (eq_refl : Store.ret tt h2 = (Store.Return tt, h2))).
      destruct (IH (S k) h2 acc) as (h3 & Hloop & Hagree3 & Hacc3).
      * lia.
      * intros i o Hi. apply Hextend, Hagree, Hi.
      * exact Hacc2.
      * exists h3. split; [exact Hloop|]. split; [exact Hagree3|].
        exact Hacc3.
Qed.

End Loop.

End Callback.



End FilterRun.
